(** * terraform-provider-signoz: the semantic reconciliation core

    A shallow embedding of the provider's drift-suppression code
    (signoz/internal/provider/resource/alert.go, .../dashboard.go and
    signoz/internal/model/{alert,dashboard}.go) together with the parts of
    the Go runtime and libraries that code calls: interface values,
    encoding/json, strconv.Quote, strings.Trim, crypto/sha256 and the
    terraform-plugin-framework attribute types.

    Part I holds the definitions, Part II the lemmas and the theorems about
    the specification's claims, Part III further properties of the code. *)

From stdpp Require Import gmap strings list fin_maps.
From Stdlib Require Import Ascii ZArith NArith Lia DecimalN.

#[local] Set Warnings "-register-all,-abstract-large-number".
#[local] Open Scope Z_scope.

(* ===================================================================== *)
(** * Part I: definitions                                                 *)
(* ===================================================================== *)

(** ** Go strings and byte slices

    A Go [string] is an immutable byte sequence and is modelled by Rocq's
    [string]; a [[]byte] is a [list ascii].  [bytes_of] is the conversion
    [[]byte(s)] and [string_of] is [string(b)]. *)

Abbreviation bytes := (list ascii).

Definition bytes_of (s : string) : bytes := String.list_ascii_of_string s.
Definition string_of (b : bytes) : string := String.string_of_list_ascii b.

Module Go.

(** [strings.Trim(s, cutset)] for a one-byte cutset: every leading and
    every trailing occurrence of the byte is removed. *)
Fixpoint TrimLeft (c : ascii) (b : bytes) : bytes :=
  match b with
  | x :: b' => if Ascii.eqb x c then TrimLeft c b' else b
  | [] => []
  end.

Definition TrimRight (c : ascii) (b : bytes) : bytes :=
  rev (TrimLeft c (rev b)).

Definition Trim (s : string) (c : ascii) : string :=
  string_of (TrimRight c (TrimLeft c (bytes_of s))).

(** Lower-case hexadecimal digit of a value below 16. *)
Definition hexdigit (n : N) : ascii :=
  match n with
  | 0 => "0" | 1 => "1" | 2 => "2" | 3 => "3" | 4 => "4" | 5 => "5"
  | 6 => "6" | 7 => "7" | 8 => "8" | 9 => "9" | 10 => "a" | 11 => "b"
  | 12 => "c" | 13 => "d" | 14 => "e" | _ => "f"
  end%N%char.

Definition hex2 (c : ascii) : bytes :=
  let n := N_of_ascii c in [hexdigit (n / 16); hexdigit (n mod 16)]%N.

(** [strconv.Quote], the formatting behind the verb [%q]: a double-quoted
    Go literal.  The quote and the backslash are escaped with a backslash,
    the control characters with [\a \b \f \n \r \t \v] or [\xNN].  Bytes
    from 0x80 up belong to multi-byte runes; they are copied, which is
    what Go does for printable runes in valid UTF-8.  (Go writes a byte
    that is not part of valid UTF-8 as [\xNN] and a rune that is not
    printable as [\u] and four digits; the theorems that depend on the
    quoted text are stated for ASCII strings.) *)
Definition quoteByte (c : ascii) : bytes :=
  let n := N_of_ascii c in
  if (n =? 34)%N || (n =? 92)%N then ["\"%char; c]
  else if (n =? 7)%N then ["\"; "a"]%char
  else if (n =? 8)%N then ["\"; "b"]%char
  else if (n =? 12)%N then ["\"; "f"]%char
  else if (n =? 10)%N then ["\"; "n"]%char
  else if (n =? 13)%N then ["\"; "r"]%char
  else if (n =? 9)%N then ["\"; "t"]%char
  else if (n =? 11)%N then ["\"; "v"]%char
  else if (n <? 32)%N || (n =? 127)%N then ["\"; "x"]%char ++ hex2 c
  else [c].

Definition Quote (s : string) : string :=
  string_of ((ascii_of_N 34 :: flat_map quoteByte (bytes_of s)) ++ [ascii_of_N 34]).

(** [strings.Split(s, sep)] for a one-byte separator. *)
Fixpoint splitBytes (sep : ascii) (cur : bytes) (b : bytes) : list string :=
  match b with
  | [] => [string_of (rev cur)]
  | x :: b' =>
      if Ascii.eqb x sep then string_of (rev cur) :: splitBytes sep [] b'
      else splitBytes sep (x :: cur) b'
  end.

Definition Split (s : string) (sep : ascii) : list string :=
  splitBytes sep [] (bytes_of s).

(** [strings.TrimSpace] on ASCII input: leading and trailing white space
    ([\t \n \v \f \r] and the space) is removed. *)
Fixpoint trimSpaceLeft (b : bytes) : bytes :=
  match b with
  | x :: b' => if Ascii.is_space x then trimSpaceLeft b' else b
  | [] => []
  end.

Definition TrimSpace (s : string) : string :=
  string_of (rev (trimSpaceLeft (rev (trimSpaceLeft (bytes_of s))))).

End Go.

(** ** Go interface values

    The dynamic values an [interface{}] holds in this program: [nil], a
    [bool], an [int] (the untyped constant [0] that [normalizeCondition]
    stores and [isDefaultField] compares with), a [float64] (every JSON
    number decoded into an [interface{}]), a [string], a [[]interface{}]
    and a [map[string]interface{}].  Two interface values are [==] only
    when their dynamic types agree, so [VInt 0] and the [float64] zero are
    different values.

    A [float64] is modelled by the decimal it was read from: a sign, the
    significant digits (no leading and no trailing zero; empty for zero) and
    the decimal exponent of the last digit.  The model is exact on the
    numbers [float64] represents and prints back unchanged (up to fifteen
    significant digits, magnitude within the normal range).  A literal of
    more digits is kept as written, where Go rounds it to the nearest
    [float64]; the theorems that depend on the digits of a number are
    stated for numbers of at most fifteen digits.  A literal beyond the
    range of [float64] is refused by the decoder, as it is in Go. *)

Inductive digit := d0 | d1 | d2 | d3 | d4 | d5 | d6 | d7 | d8 | d9.

Record float64 := Float64 { f_neg : bool; f_digits : list digit; f_exp : Z }.

Inductive value :=
| VNil
| VBool (b : bool)
| VInt (n : Z)
| VFloat (f : float64)
| VString (s : string)
| VSlice (l : list value)
| VMap (m : gmap string value).

#[global] Instance digit_eq_dec : EqDecision digit.
Proof. solve_decision. Defined.

#[global] Instance float64_eq_dec : EqDecision float64.
Proof. solve_decision. Defined.

(** ** encoding/json *)

Module json.

(** *** Decimal digits *)

Definition digit_byte (d : digit) : ascii :=
  match d with
  | d0 => "0" | d1 => "1" | d2 => "2" | d3 => "3" | d4 => "4"
  | d5 => "5" | d6 => "6" | d7 => "7" | d8 => "8" | d9 => "9"
  end%char.

Definition byte_digit (c : ascii) : option digit :=
  match N_of_ascii c with
  | 48 => Some d0 | 49 => Some d1 | 50 => Some d2 | 51 => Some d3
  | 52 => Some d4 | 53 => Some d5 | 54 => Some d6 | 55 => Some d7
  | 56 => Some d8 | 57 => Some d9 | _ => None
  end%N.

Fixpoint uint_digits (u : Decimal.uint) : list digit :=
  match u with
  | Decimal.Nil => []
  | Decimal.D0 u => d0 :: uint_digits u
  | Decimal.D1 u => d1 :: uint_digits u
  | Decimal.D2 u => d2 :: uint_digits u
  | Decimal.D3 u => d3 :: uint_digits u
  | Decimal.D4 u => d4 :: uint_digits u
  | Decimal.D5 u => d5 :: uint_digits u
  | Decimal.D6 u => d6 :: uint_digits u
  | Decimal.D7 u => d7 :: uint_digits u
  | Decimal.D8 u => d8 :: uint_digits u
  | Decimal.D9 u => d9 :: uint_digits u
  end.

Fixpoint digits_uint (l : list digit) : Decimal.uint :=
  match l with
  | [] => Decimal.Nil
  | d0 :: l => Decimal.D0 (digits_uint l)
  | d1 :: l => Decimal.D1 (digits_uint l)
  | d2 :: l => Decimal.D2 (digits_uint l)
  | d3 :: l => Decimal.D3 (digits_uint l)
  | d4 :: l => Decimal.D4 (digits_uint l)
  | d5 :: l => Decimal.D5 (digits_uint l)
  | d6 :: l => Decimal.D6 (digits_uint l)
  | d7 :: l => Decimal.D7 (digits_uint l)
  | d8 :: l => Decimal.D8 (digits_uint l)
  | d9 :: l => Decimal.D9 (digits_uint l)
  end.

(** The decimal digits of a natural number, most significant first, and
    the number a digit sequence denotes. *)
Definition N_digits (n : N) : list digit := uint_digits (N.to_uint n).
Definition digits_N (l : list digit) : N := N.of_uint (digits_uint l).

Definition digit_bytes (l : list digit) : bytes := digit_byte <$> l.

(** *** Encoding: [json.Marshal] *)

(** An [int] is written in decimal. *)
Definition formatInt (n : Z) : bytes :=
  (if n <? 0 then ["-"%char] else []) ++ digit_bytes (N_digits (Z.abs_N n)).

(** A [float64] is written as [strconv.AppendFloat(b, f, fmt, -1, 64)]
    does, with [fmt = 'e'] when the magnitude is below 1e-6 or at least
    1e21 and [fmt = 'f'] otherwise, and the two-digit exponent of the ['e']
    form cut down to one digit ([e-07] becomes [e-7]).  With [n] digits and
    exponent [e] the decimal point stands after [p = n + e] digits. *)
Definition formatFloat (f : float64) : bytes :=
  let sign := if f_neg f then ["-"%char] else [] in
  match f_digits f with
  | [] => sign ++ ["0"%char]
  | d :: ds =>
      let n := Z.of_nat (length (f_digits f)) in
      let p := n + f_exp f in
      sign ++
      if (p <? -5) || (21 <? p) then
        digit_byte d :: (match ds with [] => [] | _ => "."%char :: digit_bytes ds end)
          ++ ["e"%char; if p - 1 <? 0 then "-"%char else "+"%char]
          ++ digit_bytes (N_digits (Z.abs_N (p - 1)))
      else if p <=? 0 then
        ["0"; "."]%char ++ replicate (Z.to_nat (- p)) "0"%char ++ digit_bytes (f_digits f)
      else if p <? n then
        digit_bytes (take (Z.to_nat p) (f_digits f))
          ++ "."%char :: digit_bytes (drop (Z.to_nat p) (f_digits f))
      else
        digit_bytes (f_digits f) ++ replicate (Z.to_nat (p - n)) "0"%char
  end.

(** A string is written between double quotes; [json.Marshal] escapes
    HTML, so besides the quote, the backslash and the control characters
    the bytes [<], [>] and [&] are written as [\u00XX].  Bytes from 0x80 up
    are copied, as Go copies valid UTF-8 other than U+2028 and U+2029.  (Go
    writes these two runes as [\u2028] and [\u2029] and a byte that is not
    part of valid UTF-8 as [\ufffd]; the theorems that depend on the
    encoded text are stated for ASCII strings.) *)
Definition escapeByte (c : ascii) : bytes :=
  let n := N_of_ascii c in
  if (n =? 34)%N || (n =? 92)%N then ["\"%char; c]
  else if (n =? 8)%N then ["\"; "b"]%char
  else if (n =? 12)%N then ["\"; "f"]%char
  else if (n =? 10)%N then ["\"; "n"]%char
  else if (n =? 13)%N then ["\"; "r"]%char
  else if (n =? 9)%N then ["\"; "t"]%char
  else if (n <? 32)%N || (n =? 60)%N || (n =? 62)%N || (n =? 38)%N
       then ["\"; "u"; "0"; "0"]%char ++ Go.hex2 c
  else [c].

Definition quote : ascii := ascii_of_N 34.

Definition appendString (s : string) : bytes :=
  quote :: flat_map escapeByte (bytes_of s) ++ [quote].

(** Map keys are written in increasing byte order. *)
Fixpoint insertKey {A} (kv : string * A) (l : list (string * A)) : list (string * A) :=
  match l with
  | [] => [kv]
  | x :: l' => if String.leb kv.1 x.1 then kv :: l else x :: insertKey kv l'
  end.

Definition sortKeys {A} (l : list (string * A)) : list (string * A) :=
  foldr insertKey [] l.

Fixpoint joinComma (l : list bytes) : bytes :=
  match l with
  | [] => []
  | [x] => x
  | x :: l' => x ++ ","%char :: joinComma l'
  end.

Definition member (kv : string * bytes) : bytes :=
  appendString kv.1 ++ ":"%char :: kv.2.

Fixpoint Marshal (v : value) : bytes :=
  match v with
  | VNil => bytes_of "null"
  | VBool true => bytes_of "true"
  | VBool false => bytes_of "false"
  | VInt n => formatInt n
  | VFloat f => formatFloat f
  | VString s => appendString s
  | VSlice l => "["%char :: joinComma (Marshal <$> l) ++ ["]"%char]
  | VMap m =>
      "{"%char :: joinComma (member <$> sortKeys (map_to_list (Marshal <$> m)))
        ++ ["}"%char]
  end.

(** *** Decoding: [json.Unmarshal] into an [interface{}] *)

Definition byteIs (c : ascii) (x : string) : bool :=
  match x with
  | String y EmptyString => Ascii.eqb c y
  | _ => false
  end.

Definition isSpace (c : ascii) : bool :=
  let n := N_of_ascii c in ((n =? 32) || (n =? 9) || (n =? 13) || (n =? 10))%N.

Fixpoint skipSpace (cs : bytes) : bytes :=
  match cs with
  | c :: cs' => if isSpace c then skipSpace cs' else cs
  | [] => []
  end.

(** [stripPrefix p cs] is the rest of [cs] behind the literal [p]. *)
Fixpoint stripPrefix (p cs : bytes) : option bytes :=
  match p, cs with
  | [], _ => Some cs
  | x :: p', c :: cs' => if Ascii.eqb x c then stripPrefix p' cs' else None
  | _ :: _, [] => None
  end.

(** Numbers: an optional minus sign, an integer part (a single zero, or a
    non-zero digit and further digits), an optional fraction (a point and at
    least one digit) and an optional exponent ([e] or [E], an optional sign
    and at least one digit). *)
Fixpoint scanDigits (cs : bytes) : list digit * bytes :=
  match cs with
  | c :: cs' =>
      match byte_digit c with
      | Some d => let '(ds, r) := scanDigits cs' in (d :: ds, r)
      | None => ([], cs)
      end
  | [] => ([], [])
  end.

Fixpoint stripZeros (ds : list digit) : list digit :=
  match ds with
  | d0 :: ds' => stripZeros ds'
  | _ => ds
  end.

(** The [float64] with the given sign, digits and exponent of the last
    digit: trailing zeros go into the exponent, leading zeros are dropped. *)
Definition mkFloat (neg : bool) (ds : list digit) (e : Z) : float64 :=
  let r := stripZeros (rev ds) in
  match stripZeros (rev r) with
  | [] => Float64 neg [] 0
  | m => Float64 neg m (e + Z.of_nat (length ds - length r))
  end.

Definition scanExponent (neg : bool) (ds fs : list digit) (cs : bytes)
  : option (float64 * bytes) :=
  let frac := Z.of_nat (length fs) in
  match cs with
  | c :: cs1 =>
      if byteIs c "e" || byteIs c "E" then
        let '(eneg, cs2) :=
          match cs1 with
          | s :: cs2 => if byteIs s "-" then (true, cs2)
                        else if byteIs s "+" then (false, cs2) else (false, cs1)
          | [] => (false, cs1)
          end in
        match scanDigits cs2 with
        | ([], _) => None
        | (es, rest) =>
            let x := Z.of_N (digits_N es) in
            Some (mkFloat neg (ds ++ fs) ((if eneg then - x else x) - frac), rest)
        end
      else Some (mkFloat neg (ds ++ fs) (- frac), cs)
  | [] => Some (mkFloat neg (ds ++ fs) (- frac), cs)
  end.

Definition scanFraction (neg : bool) (ds : list digit) (cs : bytes)
  : option (float64 * bytes) :=
  match cs with
  | c :: cs1 =>
      if byteIs c "." then
        match scanDigits cs1 with
        | ([], _) => None
        | (fs, cs2) => scanExponent neg ds fs cs2
        end
      else scanExponent neg ds [] cs
  | [] => scanExponent neg ds [] cs
  end.

Definition parseNumber (cs : bytes) : option (float64 * bytes) :=
  let '(neg, cs0) :=
    match cs with
    | c :: cs' => if byteIs c "-" then (true, cs') else (false, cs)
    | [] => (false, cs)
    end in
  match cs0 with
  | c :: cs1 =>
      if byteIs c "0" then scanFraction neg [d0] cs1
      else match scanDigits cs0 with
           | ([], _) => None
           | (ds, cs2) => scanFraction neg ds cs2
           end
  | [] => None
  end.

(** Strings.  [hexval] reads a hexadecimal digit of either case,
    [encodeRune] is [utf8.EncodeRune] and [decodeSurrogates] is
    [utf16.DecodeRune]. *)
Definition hexval (c : ascii) : option N :=
  let n := N_of_ascii c in
  (if (48 <=? n) && (n <=? 57) then Some (n - 48)
   else if (97 <=? n) && (n <=? 102) then Some (n - 87)
   else if (65 <=? n) && (n <=? 70) then Some (n - 55)
   else None)%N.

Definition getu4 (a b c d : ascii) : option N :=
  match hexval a, hexval b, hexval c, hexval d with
  | Some x, Some y, Some z, Some w => Some (((x * 16 + y) * 16 + z) * 16 + w)%N
  | _, _, _, _ => None
  end.

Definition replacementChar : N := 65533.

Definition isSurrogate (r : N) : bool := ((55296 <=? r) && (r <? 57344))%N.

Definition decodeSurrogates (r1 r2 : N) : N :=
  (if (55296 <=? r1) && (r1 <? 56320) && (56320 <=? r2) && (r2 <? 57344)
   then (r1 - 55296) * 1024 + (r2 - 56320) + 65536
   else replacementChar)%N.

Definition encodeRune (r : N) : bytes :=
  (if r <? 128 then [ascii_of_N r]
   else if r <? 2048 then [ascii_of_N (192 + r / 64); ascii_of_N (128 + r mod 64)]
   else if isSurrogate r || (1114111 <? r) then
     [ascii_of_N 239; ascii_of_N 191; ascii_of_N 189]
   else if r <? 65536 then
     [ascii_of_N (224 + r / 4096); ascii_of_N (128 + (r / 64) mod 64);
      ascii_of_N (128 + r mod 64)]
   else
     [ascii_of_N (240 + r / 262144); ascii_of_N (128 + (r / 4096) mod 64);
      ascii_of_N (128 + (r / 64) mod 64); ascii_of_N (128 + r mod 64)])%N.

Definition unescape (c : ascii) : option ascii :=
  if byteIs c "b" then Some (ascii_of_N 8)
  else if byteIs c "f" then Some (ascii_of_N 12)
  else if byteIs c "n" then Some (ascii_of_N 10)
  else if byteIs c "r" then Some (ascii_of_N 13)
  else if byteIs c "t" then Some (ascii_of_N 9)
  else if byteIs c "/" || byteIs c "\" || Ascii.eqb c quote then Some c
  else None.

Definition prepend (b : bytes) (r : option (bytes * bytes)) : option (bytes * bytes) :=
  match r with
  | Some (s, rest) => Some (b ++ s, rest)
  | None => None
  end.

(** [parseString cs] reads a string literal whose opening quote has been
    consumed and returns its bytes and the input behind the closing quote.
    A raw control character is an error; a [\u] escape that is half of a
    surrogate pair without its other half becomes U+FFFD.  Bytes from 0x80
    up are copied, as Go copies valid UTF-8 (a byte that is not part of
    valid UTF-8 becomes U+FFFD in Go); which texts are accepted does not
    depend on them. *)
Fixpoint parseString (cs : bytes) : option (bytes * bytes) :=
  match cs with
  | [] => None
  | c :: cs1 =>
      if Ascii.eqb c quote then Some ([], cs1)
      else if byteIs c "\" then
        match cs1 with
        | [] => None
        | e :: cs2 =>
            if byteIs e "u" then
              match cs2 with
              | h1 :: h2 :: h3 :: h4 :: cs3 =>
                  match getu4 h1 h2 h3 h4 with
                  | None => None
                  | Some r =>
                      if isSurrogate r then
                        match cs3 with
                        | b1 :: u1 :: k1 :: k2 :: k3 :: k4 :: cs4 =>
                            match
                              (if byteIs b1 "\" && byteIs u1 "u" then getu4 k1 k2 k3 k4 else None)
                            with
                            | Some r' =>
                                if (decodeSurrogates r r' =? replacementChar)%N
                                then prepend (encodeRune replacementChar) (parseString cs3)
                                else prepend (encodeRune (decodeSurrogates r r'))
                                             (parseString cs4)
                            | None => prepend (encodeRune replacementChar) (parseString cs3)
                            end
                        | _ => prepend (encodeRune replacementChar) (parseString cs3)
                        end
                      else prepend (encodeRune r) (parseString cs3)
                  end
              | _ => None
              end
            else
              match unescape e with
              | Some x => prepend [x] (parseString cs2)
              | None => None
              end
        end
      else if (N_of_ascii c <? 32)%N then None
      else prepend [c] (parseString cs1)
  end.

(** Arrays and objects.  [pv] decodes one value; the counter bounds the
    number of elements by the number of input bytes, which every element
    consumes at least one of. *)
Fixpoint parseElements (pv : bytes → option (value * bytes)) (n : nat) (cs : bytes)
  : option (list value * bytes) :=
  match n with
  | O => None
  | S n' =>
      match pv cs with
      | Some (v, cs1) =>
          match skipSpace cs1 with
          | c :: cs2 =>
              if byteIs c "," then
                match parseElements pv n' cs2 with
                | Some (vs, rest) => Some (v :: vs, rest)
                | None => None
                end
              else if byteIs c "]" then Some ([v], cs2)
              else None
          | [] => None
          end
      | None => None
      end
  end.

(** A key that occurs again overwrites the earlier entry, as [m[key] = v]
    does. *)
Fixpoint parseMembers (pv : bytes → option (value * bytes)) (n : nat)
    (m : gmap string value) (cs : bytes) : option (gmap string value * bytes) :=
  match n with
  | O => None
  | S n' =>
      match skipSpace cs with
      | q :: cs1 =>
          if Ascii.eqb q quote then
            match parseString cs1 with
            | Some (k, cs2) =>
                match skipSpace cs2 with
                | c :: cs3 =>
                    if byteIs c ":" then
                      match pv cs3 with
                      | Some (v, cs4) =>
                          let m' := <[string_of k := v]> m in
                          match skipSpace cs4 with
                          | c' :: cs5 =>
                              if byteIs c' "," then parseMembers pv n' m' cs5
                              else if byteIs c' "}" then Some (m', cs5)
                              else None
                          | [] => None
                          end
                      | None => None
                      end
                    else None
                | [] => None
                end
            | None => None
            end
          else None
      | [] => None
      end
  end.

(** The scanner refuses input nested deeper than [maxNestingDepth]. *)
Definition maxNestingDepth : nat := 10000.

(** [strconv.ParseFloat] answers a literal that rounds to an infinity with
    a range error, which makes [Unmarshal] return an [UnmarshalTypeError]: a
    magnitude of at least [2^1024 - 2^970], half a unit in the last place
    above the largest [float64].  A literal that rounds to zero is no error.
    [inRange f] tells that the decimal [f] of the parser, with [n]
    significant digits and the decimal point after [p = n + f_exp f] of
    them, stays below the bound; the digits decide for [p = 309] only. *)
Definition overflowBound : N := (2 ^ 1024 - 2 ^ 970)%N.

Definition inRange (f : float64) : bool :=
  match f_digits f with
  | [] => true
  | _ :: _ =>
      let p := Z.of_nat (length (f_digits f)) + f_exp f in
      if p <=? 308 then true
      else if 309 <? p then false
      else if 0 <=? f_exp f
           then (digits_N (f_digits f) * 10 ^ Z.to_N (f_exp f) <? overflowBound)%N
           else (digits_N (f_digits f) <? overflowBound * 10 ^ Z.to_N (- f_exp f))%N
  end.

(** [parseValue check depth cs] decodes one value.  With [check] the
    numbers are converted as [Unmarshal] does, so that one out of range
    fails the decoding; without it the text is only scanned, as the
    validity check that [Unmarshal] runs first does. *)
Fixpoint parseValue (check : bool) (depth : nat) (cs : bytes) : option (value * bytes) :=
  match skipSpace cs with
  | [] => None
  | c :: cs1 =>
      if byteIs c "{" then
        match depth with
        | O => None
        | S d =>
            match skipSpace cs1 with
            | c' :: cs2 =>
                if byteIs c' "}" then Some (VMap ∅, cs2)
                else match parseMembers (parseValue check d) (length cs1) ∅ cs1 with
                     | Some (m, rest) => Some (VMap m, rest)
                     | None => None
                     end
            | [] => None
            end
        end
      else if byteIs c "[" then
        match depth with
        | O => None
        | S d =>
            match skipSpace cs1 with
            | c' :: cs2 =>
                if byteIs c' "]" then Some (VSlice [], cs2)
                else match parseElements (parseValue check d) (length cs1) cs1 with
                     | Some (vs, rest) => Some (VSlice vs, rest)
                     | None => None
                     end
            | [] => None
            end
        end
      else if Ascii.eqb c quote then
        match parseString cs1 with
        | Some (s, rest) => Some (VString (string_of s), rest)
        | None => None
        end
      else if byteIs c "t" then
        match stripPrefix (bytes_of "rue") cs1 with
        | Some rest => Some (VBool true, rest)
        | None => None
        end
      else if byteIs c "f" then
        match stripPrefix (bytes_of "alse") cs1 with
        | Some rest => Some (VBool false, rest)
        | None => None
        end
      else if byteIs c "n" then
        match stripPrefix (bytes_of "ull") cs1 with
        | Some rest => Some (VNil, rest)
        | None => None
        end
      else
        match parseNumber (c :: cs1) with
        | Some (f, rest) =>
            if negb check || inRange f then Some (VFloat f, rest) else None
        | None => None
        end
  end.

(** [json.Unmarshal(data, &v)] with [v] an [interface{}]: one value, with
    nothing but white space around it.  [None] is the error result. *)
Definition Unmarshal (data : bytes) : option value :=
  match parseValue true maxNestingDepth data with
  | Some (v, rest) =>
      match skipSpace rest with
      | [] => Some v
      | _ :: _ => None
      end
  | None => None
  end.

(** [json.Valid(data)]: the text is syntactically JSON.  [Unmarshal] fails
    with a [SyntaxError] on a text that is not, before it decodes
    anything. *)
Definition Valid (data : bytes) : bool :=
  match parseValue false maxNestingDepth data with
  | Some (_, rest) =>
      match skipSpace rest with
      | [] => true
      | _ :: _ => false
      end
  | None => false
  end.

End json.


(** ** crypto/sha256 and encoding/hex

    SHA-256 over 32-bit words held in [N]; every addition is reduced modulo
    2^32. *)

Module sha256.

#[local] Open Scope N_scope.

Definition w32 (x : N) : N := N.land x 0xffffffff.
Definition add32 (x y : N) : N := w32 (x + y).
Definition rotr (n x : N) : N := N.lor (N.shiftr x n) (w32 (N.shiftl x (32 - n))).
Definition not32 (x : N) : N := N.lxor x 0xffffffff.

Definition Ch (x y z : N) : N := N.lxor (N.land x y) (N.land (not32 x) z).
Definition Maj (x y z : N) : N :=
  N.lxor (N.lxor (N.land x y) (N.land x z)) (N.land y z).
Definition Sigma0 (x : N) : N := N.lxor (N.lxor (rotr 2 x) (rotr 13 x)) (rotr 22 x).
Definition Sigma1 (x : N) : N := N.lxor (N.lxor (rotr 6 x) (rotr 11 x)) (rotr 25 x).
Definition sigma0 (x : N) : N := N.lxor (N.lxor (rotr 7 x) (rotr 18 x)) (N.shiftr x 3).
Definition sigma1 (x : N) : N := N.lxor (N.lxor (rotr 17 x) (rotr 19 x)) (N.shiftr x 10).

(** The round constants are the first 32 bits of the fractional parts of
    the cube roots of the first 64 primes, the initial hash value the same
    of the square roots of the first 8 primes. *)
Definition isPrime (n : nat) : bool :=
  forallb (λ d, negb (n mod d =? 0)%nat) (seq 2 (n - 2)).

Definition primes : list N :=
  N.of_nat <$> filter (λ n, isPrime n = true) (seq 2 310).

(** [cbrt k n] is the largest [r] below [2^k] with [r^3 <= n]. *)
Fixpoint cbrt (k : nat) (n : N) : N :=
  match k with
  | O => 0
  | S k' =>
      let r := cbrt k' (N.shiftr n 3) * 2 in
      if (r + 1) * (r + 1) * (r + 1) <=? n then r + 1 else r
  end.

Definition K : list N :=
  (λ p, w32 (cbrt 36 (N.shiftl p 96))) <$> primes.

Definition init : list N :=
  (λ p, w32 (N.sqrt (N.shiftl p 64))) <$> take 8 primes.

(** Big-endian words and bytes. *)
Fixpoint words (b : list N) : list N :=
  match b with
  | b0 :: b1 :: b2 :: b3 :: b' =>
      (((b0 * 256 + b1) * 256 + b2) * 256 + b3) :: words b'
  | _ => []
  end.

Definition word_bytes (w : N) : list N :=
  [N.shiftr w 24; N.land (N.shiftr w 16) 255; N.land (N.shiftr w 8) 255; N.land w 255].

(** The message schedule; [w] holds the words computed so far, the latest
    first. *)
Fixpoint schedule (n : nat) (w : list N) : list N :=
  match n with
  | O => rev w
  | S n' =>
      let x i := nth i w 0 in
      schedule n' (add32 (add32 (sigma1 (x 1%nat)) (x 6%nat))
                         (add32 (sigma0 (x 14%nat)) (x 15%nat)) :: w)
  end.

Definition round (h : list N) (kw : N * N) : list N :=
  match h with
  | [a; b; c; d; e; f; g; hh] =>
      let t1 := add32 (add32 (add32 hh (Sigma1 e)) (add32 (Ch e f g) kw.1)) kw.2 in
      let t2 := add32 (Sigma0 a) (Maj a b c) in
      [add32 t1 t2; a; b; c; add32 d t1; e; f; g]
  | _ => h
  end.

Definition block (h : list N) (blk : list N) : list N :=
  let w := schedule 48 (rev (words blk)) in
  zip_with add32 h (foldl round h (zip K w)).

Fixpoint blocks (n : nat) (h : list N) (msg : list N) : list N :=
  match n with
  | O => h
  | S n' => blocks n' (block h (take 64 msg)) (drop 64 msg)
  end.

(** Padding: a one bit, zeros up to 56 modulo 64 bytes, and the length in
    bits as a 64-bit big-endian number. *)
Definition pad (len : nat) : list N :=
  let z := ((119 - len mod 64) mod 64)%nat in
  let bits := N.of_nat len * 8 in
  128 :: replicate z 0 ++ word_bytes (N.shiftr bits 32) ++ word_bytes (w32 bits).

(** [sha256.Sum256(data)]: the 32 bytes of the digest. *)
Definition Sum256 (data : bytes) : bytes :=
  let msg := (N_of_ascii <$> data) ++ pad (length data) in
  ascii_of_N <$> flat_map word_bytes (blocks (length msg / 64) init msg).

End sha256.

(** [hex.EncodeToString]. *)
Definition EncodeToString (b : bytes) : string :=
  string_of (flat_map Go.hex2 b).

(** ** Results of fallible operations

    A Go function returning [(T, error)] returns a [result T]; the error
    kinds are the ones this code can meet.  [NilMapPanic] stands for the
    runtime panic of an assignment to an entry of a nil map. *)

Inductive error :=
| SyntaxError          (* encoding/json: the text is not JSON *)
| UnmarshalTypeError   (* encoding/json: the JSON value does not fit the Go type *)
| RemoteError          (* an error returned by the SigNoz API client *)
| NilMapPanic.

Inductive result (A : Type) :=
| Ok (a : A)
| Err (e : error).

Arguments Ok {A} a.
Arguments Err {A} e.

(** The error of a [json.Unmarshal] that fails: a syntax error for a text
    that is not JSON, a type error for JSON with a number out of range. *)
Definition unmarshalError (data : bytes) : error :=
  if json.Valid data then UnmarshalTypeError else SyntaxError.

#[global] Instance result_ret : MRet result := λ A a, Ok a.

#[global] Instance result_bind : MBind result := λ A B k r,
  match r with
  | Ok a => k a
  | Err e => Err e
  end.

(** ** terraform-plugin-framework attribute values

    A [types.String], [types.Bool], [types.Map] or [types.List] is null,
    unknown or known.  The maps and lists of this provider have element type
    [types.StringType]. *)

Module types.

Inductive attr (A : Type) :=
| Null
| Unknown
| Known (a : A).

Arguments Null {A}.
Arguments Unknown {A}.
Arguments Known {A} a.

Abbreviation String := (attr string).
Abbreviation Bool := (attr bool).
Abbreviation Map := (attr (gmap string (attr string))).
Abbreviation List := (attr (list (attr string))).

Definition StringValue (s : string) : String := Known s.
Definition BoolValue (b : bool) : Bool := Known b.
Definition MapValue (elements : gmap string String) : Map := Known elements.
Definition ListValue (elements : list String) : List := Known elements.

Definition IsNull {A} (v : attr A) : bool :=
  match v with Null => true | _ => false end.

Definition IsUnknown {A} (v : attr A) : bool :=
  match v with Unknown => true | _ => false end.

(** [ValueString] and [ValueBool] give the zero value for null and unknown. *)
Definition ValueString (v : String) : string :=
  match v with Known s => s | _ => EmptyString end.

Definition ValueBool (v : Bool) : bool :=
  match v with Known b => b | _ => false end.

Definition MapElements (v : Map) : gmap string String :=
  match v with Known e => e | _ => ∅ end.

Definition ListElements (v : List) : list String :=
  match v with Known e => e | _ => [] end.

(** The method [String()] of a [types.String]: a human-readable rendering
    meant for logs, the value formatted with [%q] when it is known. *)
Definition ToString (v : String) : string :=
  match v with
  | Unknown => "<unknown>"
  | Null => "<null>"
  | Known s => Go.Quote s
  end.

End types.

(** ** terraform-plugin-sdk, helper/structure *)

Module structure.

(** [ExpandJsonFromString]: [json.Unmarshal] into a
    [map[string]interface{}].  The JSON text [null] leaves the map nil,
    which is the result [Ok None]. *)
Definition ExpandJsonFromString (jsonString : string)
  : result (option (gmap string value)) :=
  match json.Unmarshal (bytes_of jsonString) with
  | None => Err (unmarshalError (bytes_of jsonString))
  | Some (VMap m) => Ok (Some m)
  | Some VNil => Ok None
  | Some _ => Err UnmarshalTypeError
  end.

(** [FlattenJsonToString]: the empty string for an empty map, the JSON text
    otherwise. *)
Definition FlattenJsonToString (input : gmap string value) : string :=
  if decide (size input = 0%nat) then EmptyString
  else string_of (json.Marshal (VMap input)).

End structure.

(** ** The attribute names of package attr *)

Module attr.

(** Modelled from the spec: package [attr] is not among the sources; the
    constant [attr.Severity] names the attribute and label [severity]. *)
Definition Severity : string := "severity".

End attr.

(** ** The default-field policy and the canonicalizer

    [isDefaultField] and [removeDefaultFields] stand twice in the sources,
    in package resource (alert.go) and in package model; the two copies
    differ only in a debugging print. *)

(** [x == y] on interface values, for a scalar [y]: the dynamic types must
    agree.  Two [float64] zeros are equal whatever their sign. *)
Definition interfaceEq (x y : value) : bool :=
  match x, y with
  | VNil, VNil => true
  | VBool a, VBool b => Bool.eqb a b
  | VInt a, VInt b => a =? b
  | VFloat a, VFloat b =>
      match f_digits a, f_digits b with
      | [], [] => true
      | _, _ => bool_decide (a = b)
      end
  | VString a, VString b => String.eqb a b
  | _, _ => false
  end.

(** The constant [0] compared with an [interface{}] is an [int]. *)
Definition isDefaultField (key : string) (value : value) : bool :=
  if String.eqb key "groupBy" then
    match value with
    | VSlice slice => bool_decide (length slice = 0%nat)
    | _ => false
    end
  else if String.eqb key "IsAnomaly" then interfaceEq value (VBool false)
  else if String.eqb key "QueriesUsedInFormula" then interfaceEq value VNil
  else if String.eqb key "absentFor" then interfaceEq value (VInt 0)
  else if String.eqb key "alertOnAbsent" then interfaceEq value (VBool false)
  else if String.eqb key "hidden" then interfaceEq value (VBool true)
  else if String.eqb key "reduceTo" || String.eqb key "spaceAggregation"
          || String.eqb key "timeAggregation"
       then interfaceEq value (VString EmptyString)
  else false.

(** The loop over a map is a fold: a default field is skipped, any other is
    stored in the result with its value canonicalized. *)
Fixpoint removeDefaultFields (data : value) : value :=
  match data with
  | VMap v =>
      VMap (map_fold (λ key value result,
                        if isDefaultField key value then result
                        else <[key := removeDefaultFields value]> result) ∅ v)
  | VSlice v => VSlice (removeDefaultFields <$> v)
  | _ => data
  end.

Definition normalizeJSON (jsonStr : string) : result string :=
  match json.Unmarshal (bytes_of jsonStr) with
  | None => Err (unmarshalError (bytes_of jsonStr))
  | Some data => Ok (string_of (json.Marshal (removeDefaultFields data)))
  end.

(** The semantic comparator. *)
Definition areJSONsSemanticallyEqual (json1 json2 : string) : bool :=
  match json.Unmarshal (bytes_of json1) with
  | None => false
  | Some data1 =>
      match json.Unmarshal (bytes_of json2) with
      | None => false
      | Some data2 =>
          let normalized1Str := string_of (json.Marshal (removeDefaultFields data1)) in
          let normalized2Str := string_of (json.Marshal (removeDefaultFields data2)) in
          String.eqb normalized1Str normalized2Str
      end
  end.

(** The plan modifier of the alert's [condition] attribute: the state value
    replaces a planned value that is semantically equal to it. *)
Definition PlanModifyString (StateValue PlanValue : types.String) : types.String :=
  if types.IsNull StateValue || types.IsUnknown StateValue then PlanValue
  else if types.IsNull PlanValue || types.IsUnknown PlanValue then PlanValue
  else if areJSONsSemanticallyEqual (types.ValueString PlanValue)
                                    (types.ValueString StateValue)
       then StateValue
  else PlanValue.

(** ** Package model: the alert *)

Definition AlertTerraformLabel : string := "managedBy:terraform".

Module AlertAnnotations.

Record t := {
  Description : string;
  Summary : string
}.

End AlertAnnotations.

Module Alert.

(** A nil map reads like an empty one, so the map fields hold a [gmap]. *)
Record t := {
  ID : string;
  Alert : string;
  AlertType : string;
  Annotations : AlertAnnotations.t;
  BroadcastToAll : bool;
  Condition : gmap string value;
  Disabled : bool;
  EvalWindow : string;
  Frequency : string;
  Labels : gmap string string;
  PreferredChannels : list string;
  RuleType : string;
  Source : string;
  State : string;
  Version : string;
  CreateAt : string;
  CreateBy : string;
  UpdateAt : string;
  UpdateBy : string
}.

Definition ConditionToTerraform (a : t) : types.String :=
  match removeDefaultFields (VMap (Condition a)) with
  | VMap normalizedMap => types.StringValue (structure.FlattenJsonToString normalizedMap)
  | _ => types.StringValue (structure.FlattenJsonToString (Condition a))
  end.

Definition LabelsToTerraform (a : t) : types.Map :=
  let terraformLabels := Go.Split AlertTerraformLabel ":" in
  types.MapValue
    (map_fold (λ key value elements,
                 if String.eqb key attr.Severity
                    || String.eqb key (default EmptyString (terraformLabels !! 0%nat))
                 then elements
                 else <[key := types.StringValue value]> elements) ∅ (Labels a)).

Definition PreferredChannelsToTerraform (a : t) : types.List :=
  types.ListValue (types.StringValue <$> PreferredChannels a).

(** [m[k] == nil]: the key is missing or holds [nil]. *)
Definition isNil (m : gmap string value) (k : string) : bool :=
  match m !! k with
  | None | Some VNil => true
  | Some _ => false
  end.

Definition setIfNil (k : string) (x : value) (m : gmap string value)
  : gmap string value :=
  if isNil m k then <[k := x]> m else m.

(** The defaults added to one builder query; the query maps are changed in
    place in the source, which the rebuilt maps below reflect. *)
Definition normalizeQuery (queryName : string) (queryMap : gmap string value)
  : gmap string value :=
  let q := setIfNil "IsAnomaly" (VBool false) queryMap in
  let q := setIfNil "QueriesUsedInFormula" VNil q in
  let q := setIfNil "groupBy" (VSlice []) q in
  let q := if String.eqb queryName "A" then setIfNil "hidden" (VBool true) q else q in
  if String.eqb queryName "F1" then
    setIfNil "timeAggregation" (VString EmptyString)
      (setIfNil "spaceAggregation" (VString EmptyString)
         (setIfNil "reduceTo" (VString EmptyString) q))
  else q.

Definition normalizeQueries (condition : gmap string value) : gmap string value :=
  match condition !! "compositeQuery" with
  | Some (VMap compositeQuery) =>
      match compositeQuery !! "builderQueries" with
      | Some (VMap builderQueries) =>
          let queries :=
            map_imap (λ queryName query,
                        Some (match query with
                              | VMap queryMap => VMap (normalizeQuery queryName queryMap)
                              | _ => query
                              end)) builderQueries in
          <["compositeQuery" := VMap (<["builderQueries" := VMap queries]> compositeQuery)]>
            condition
      | _ => condition
      end
  | _ => condition
  end.

(** [normalizeCondition]; a nil map ([None]) panics at the first
    assignment of a root-level default. *)
Definition normalizeCondition (condition : option (gmap string value))
  : result (gmap string value) :=
  match condition with
  | None => Err NilMapPanic
  | Some c =>
      Ok (setIfNil "alertOnAbsent" (VBool false)
            (setIfNil "absentFor" (VInt 0) (normalizeQueries c)))
  end.

Definition withCondition (a : t) (c : gmap string value) : t :=
  {| ID := ID a; Alert := Alert a; AlertType := AlertType a;
     Annotations := Annotations a; BroadcastToAll := BroadcastToAll a;
     Condition := c; Disabled := Disabled a; EvalWindow := EvalWindow a;
     Frequency := Frequency a; Labels := Labels a;
     PreferredChannels := PreferredChannels a; RuleType := RuleType a;
     Source := Source a; State := State a; Version := Version a;
     CreateAt := CreateAt a; CreateBy := CreateBy a; UpdateAt := UpdateAt a;
     UpdateBy := UpdateBy a |}.

Definition withLabels (a : t) (l : gmap string string) : t :=
  {| ID := ID a; Alert := Alert a; AlertType := AlertType a;
     Annotations := Annotations a; BroadcastToAll := BroadcastToAll a;
     Condition := Condition a; Disabled := Disabled a; EvalWindow := EvalWindow a;
     Frequency := Frequency a; Labels := l;
     PreferredChannels := PreferredChannels a; RuleType := RuleType a;
     Source := Source a; State := State a; Version := Version a;
     CreateAt := CreateAt a; CreateBy := CreateBy a; UpdateAt := UpdateAt a;
     UpdateBy := UpdateBy a |}.

Definition withPreferredChannels (a : t) (l : list string) : t :=
  {| ID := ID a; Alert := Alert a; AlertType := AlertType a;
     Annotations := Annotations a; BroadcastToAll := BroadcastToAll a;
     Condition := Condition a; Disabled := Disabled a; EvalWindow := EvalWindow a;
     Frequency := Frequency a; Labels := Labels a;
     PreferredChannels := l; RuleType := RuleType a;
     Source := Source a; State := State a; Version := Version a;
     CreateAt := CreateAt a; CreateBy := CreateBy a; UpdateAt := UpdateAt a;
     UpdateBy := UpdateBy a |}.

Definition SetCondition (a : t) (tfCondition : types.String) : result t :=
  condition ← structure.ExpandJsonFromString (types.ValueString tfCondition);
  normalizedCondition ← normalizeCondition condition;
  mret (withCondition a normalizedCondition).

Definition SetLabels (a : t) (tfLabels : types.Map) (tfSeverity : types.String) : t :=
  let labels :=
    map_fold (λ key value labels,
                <[key := Go.Trim (types.ToString value) json.quote]> labels)
             ∅ (types.MapElements tfLabels) in
  let terraformLabel := Go.Split AlertTerraformLabel ":" in
  let labels :=
    <[Go.TrimSpace (default EmptyString (terraformLabel !! 0%nat))
        := Go.TrimSpace (default EmptyString (terraformLabel !! 1%nat))]> labels in
  let labels :=
    if negb (String.eqb (types.ValueString tfSeverity) EmptyString)
    then <[attr.Severity := types.ValueString tfSeverity]> labels
    else labels in
  withLabels a labels.

Definition SetPreferredChannels (a : t) (tfPreferredChannels : types.List) : t :=
  withPreferredChannels a
    ((λ value, Go.Trim (types.ToString value) json.quote)
       <$> types.ListElements tfPreferredChannels).

End Alert.

(** ** Package model: the dashboard

    model/dashboard.go holds several revisions of the file; the one embedded
    here is the revision that hashes the widgets (the last one). *)

Module Dashboard.

Record t := {
  CollapsableRowsMigrated : bool;
  Description : string;
  Layout : option (list (option (gmap string value)));
  Name : string;
  PanelMap : option (gmap string value);
  Source : string;
  Tags : list string;
  Title : string;
  UploadedGrafana : bool;
  Variables : gmap string value;
  Version : string;
  Widgets : value
}.



Definition TagsToTerraform (d : t) : types.List :=
  types.ListValue (types.StringValue <$> Tags d).



(** The digest of the widgets: a string is taken to be the digest that
    [SetWidgets] stored, any other value is serialized and hashed. *)
Definition WidgetsToTerraform (d : t) : types.String :=
  match Widgets d with
  | VNil => types.StringValue EmptyString
  | VString widgetsStr => types.StringValue widgetsStr
  | w => types.StringValue (EncodeToString (sha256.Sum256 (json.Marshal w)))
  end.

Definition withLayout (d : t) (x : option (list (option (gmap string value)))) : t :=
  {| CollapsableRowsMigrated := CollapsableRowsMigrated d; Description := Description d;
     Layout := x; Name := Name d; PanelMap := PanelMap d; Source := Source d;
     Tags := Tags d; Title := Title d; UploadedGrafana := UploadedGrafana d;
     Variables := Variables d; Version := Version d; Widgets := Widgets d |}.

Definition withPanelMap (d : t) (x : option (gmap string value)) : t :=
  {| CollapsableRowsMigrated := CollapsableRowsMigrated d; Description := Description d;
     Layout := Layout d; Name := Name d; PanelMap := x; Source := Source d;
     Tags := Tags d; Title := Title d; UploadedGrafana := UploadedGrafana d;
     Variables := Variables d; Version := Version d; Widgets := Widgets d |}.

Definition withTags (d : t) (x : list string) : t :=
  {| CollapsableRowsMigrated := CollapsableRowsMigrated d; Description := Description d;
     Layout := Layout d; Name := Name d; PanelMap := PanelMap d; Source := Source d;
     Tags := x; Title := Title d; UploadedGrafana := UploadedGrafana d;
     Variables := Variables d; Version := Version d; Widgets := Widgets d |}.

Definition withVariables (d : t) (x : gmap string value) : t :=
  {| CollapsableRowsMigrated := CollapsableRowsMigrated d; Description := Description d;
     Layout := Layout d; Name := Name d; PanelMap := PanelMap d; Source := Source d;
     Tags := Tags d; Title := Title d; UploadedGrafana := UploadedGrafana d;
     Variables := x; Version := Version d; Widgets := Widgets d |}.

Definition withWidgets (d : t) (x : value) : t :=
  {| CollapsableRowsMigrated := CollapsableRowsMigrated d; Description := Description d;
     Layout := Layout d; Name := Name d; PanelMap := PanelMap d; Source := Source d;
     Tags := Tags d; Title := Title d; UploadedGrafana := UploadedGrafana d;
     Variables := Variables d; Version := Version d; Widgets := x |}.

Definition SetVariables (d : t) (tfVariables : types.String) : result t :=
  variables ← structure.ExpandJsonFromString (types.ValueString tfVariables);
  mret (withVariables d (default ∅ variables)).

Definition SetPanelMap (d : t) (tfPanelMap : types.String) : result t :=
  if String.eqb (types.ValueString tfPanelMap) EmptyString
  then mret (withPanelMap d (Some ∅))
  else panelMap ← structure.ExpandJsonFromString (types.ValueString tfPanelMap);
       mret (withPanelMap d panelMap).

Definition SetTags (d : t) (tfTags : types.List) : t :=
  withTags d ((λ value, Go.Trim (types.ToString value) json.quote)
                <$> types.ListElements tfTags).

(** The elements of a [[]map[string]interface{}]: objects, or a nil map
    for [null]. *)
Fixpoint asMaps (l : list value) : option (list (option (gmap string value))) :=
  match l with
  | [] => Some []
  | VMap m :: l' => cons (Some m) <$> asMaps l'
  | VNil :: l' => cons None <$> asMaps l'
  | _ :: _ => None
  end.

(** The text [null] leaves the slice nil. *)
Definition SetLayout (d : t) (tfLayout : types.String) : result t :=
  match json.Unmarshal (bytes_of (types.ValueString tfLayout)) with
  | None => Err (unmarshalError (bytes_of (types.ValueString tfLayout)))
  | Some VNil => mret (withLayout d None)
  | Some (VSlice l) =>
      match asMaps l with
      | Some layout => mret (withLayout d (Some layout))
      | None => Err UnmarshalTypeError
      end
  | Some _ => Err UnmarshalTypeError
  end.

(** The digest is taken over the bytes of the submitted text. *)
Definition SetWidgets (d : t) (tfWidgets : types.String) : result t :=
  let widgetsStr := types.ValueString tfWidgets in
  if String.eqb widgetsStr EmptyString then mret (withWidgets d (VString EmptyString))
  else
    let hashString := EncodeToString (sha256.Sum256 (bytes_of widgetsStr)) in
    mret (withWidgets d (VString hashString)).

End Dashboard.

(** ** The SigNoz API client *)

Module client.

(** Modelled from the spec: package [client] is not among the sources.  The
    remote API offers create, read, update and delete per resource kind; a
    dashboard comes back wrapped in a record with its identifier and audit
    fields. *)
Record Dashboard := {
  ID : string;
  CreatedAt : string;
  CreatedBy : string;
  UpdatedAt : string;
  UpdatedBy : string;
  Data : Dashboard.t
}.

Record Client := {
  CreateAlert : Alert.t → result Alert.t;
  GetAlert : string → result Alert.t;
  UpdateAlert : string → Alert.t → option error;
  DeleteAlert : string → option error;
  CreateDashboard : Dashboard.t → result Dashboard;
  GetDashboard : string → result Dashboard;
  UpdateDashboard : string → Dashboard.t → option error;
  DeleteDashboard : string → option error
}.

End client.

(** ** Package resource: the alert resource

    [Create], [Read] and [Update] return the state they store with
    [resp.State.Set], or the error they report in the diagnostics, in which
    case the persisted state is left as it was. *)

Module alertResource.

Record alertResourceModel := {
  ID : types.String;
  Alert : types.String;
  AlertType : types.String;
  BroadcastToAll : types.Bool;
  Condition : types.String;
  Description : types.String;
  Disabled : types.Bool;
  EvalWindow : types.String;
  Frequency : types.String;
  Labels : types.Map;
  PreferredChannels : types.List;
  RuleType : types.String;
  Severity : types.String;
  Source : types.String;
  State : types.String;
  Summary : types.String;
  Version : types.String;
  CreateAt : types.String;
  CreateBy : types.String;
  UpdateAt : types.String;
  UpdateBy : types.String
}.

Section operations.

Variable r : client.Client.

Definition Create (plan : alertResourceModel) : result alertResourceModel :=
  let alertPayload :=
    {| Alert.ID := EmptyString;
       Alert.Alert := types.ValueString (Alert plan);
       Alert.AlertType := types.ValueString (AlertType plan);
       Alert.Annotations :=
         {| AlertAnnotations.Description := types.ValueString (Description plan);
            AlertAnnotations.Summary := types.ValueString (Summary plan) |};
       Alert.BroadcastToAll := types.ValueBool (BroadcastToAll plan);
       Alert.Condition := ∅;
       Alert.Disabled := false;
       Alert.EvalWindow := types.ValueString (EvalWindow plan);
       Alert.Frequency := types.ValueString (Frequency plan);
       Alert.Labels := ∅;
       Alert.PreferredChannels := [];
       Alert.RuleType := types.ValueString (RuleType plan);
       Alert.Source := types.ValueString (Source plan);
       Alert.State := EmptyString;
       Alert.Version := types.ValueString (Version plan);
       Alert.CreateAt := EmptyString;
       Alert.CreateBy := EmptyString;
       Alert.UpdateAt := EmptyString;
       Alert.UpdateBy := EmptyString |} in
  alertPayload ← Alert.SetCondition alertPayload (Condition plan);
  let alertPayload := Alert.SetLabels alertPayload (Labels plan) (Severity plan) in
  let alertPayload := Alert.SetPreferredChannels alertPayload (PreferredChannels plan) in
  alert ← client.CreateAlert r alertPayload;
  mret {| ID := types.StringValue (Alert.ID alert);
          Alert := Alert plan;
          AlertType := AlertType plan;
          BroadcastToAll := BroadcastToAll plan;
          Condition := Condition plan;
          Description := Description plan;
          Disabled := types.BoolValue (Alert.Disabled alert);
          EvalWindow := EvalWindow plan;
          Frequency := Frequency plan;
          Labels := Labels plan;
          PreferredChannels := PreferredChannels plan;
          RuleType := RuleType plan;
          Severity := Severity plan;
          Source := types.StringValue (Alert.Source alert);
          State := types.StringValue (Alert.State alert);
          Summary := Summary plan;
          Version := Version plan;
          CreateAt := types.StringValue (Alert.CreateAt alert);
          CreateBy := types.StringValue (Alert.CreateBy alert);
          UpdateAt := types.StringValue (Alert.UpdateAt alert);
          UpdateBy := types.StringValue (Alert.UpdateBy alert) |}.

(** Every attribute is overwritten with what the API returned; the
    condition is the returned condition with the default fields removed. *)
Definition Read (state : alertResourceModel) : result alertResourceModel :=
  alert ← client.GetAlert r (types.ValueString (ID state));
  mret {| ID := ID state;
          Alert := types.StringValue (Alert.Alert alert);
          AlertType := types.StringValue (Alert.AlertType alert);
          BroadcastToAll := types.BoolValue (Alert.BroadcastToAll alert);
          Condition := Alert.ConditionToTerraform alert;
          Description :=
            types.StringValue (AlertAnnotations.Description (Alert.Annotations alert));
          Disabled := types.BoolValue (Alert.Disabled alert);
          EvalWindow := types.StringValue (Alert.EvalWindow alert);
          Frequency := types.StringValue (Alert.Frequency alert);
          Labels := Alert.LabelsToTerraform alert;
          PreferredChannels := Alert.PreferredChannelsToTerraform alert;
          RuleType := types.StringValue (Alert.RuleType alert);
          Severity :=
            types.StringValue (default EmptyString (Alert.Labels alert !! attr.Severity));
          Source := types.StringValue (Alert.Source alert);
          State := types.StringValue (Alert.State alert);
          Summary :=
            types.StringValue (AlertAnnotations.Summary (Alert.Annotations alert));
          Version := types.StringValue (Alert.Version alert);
          CreateAt := types.StringValue (Alert.CreateAt alert);
          CreateBy := types.StringValue (Alert.CreateBy alert);
          UpdateAt := types.StringValue (Alert.UpdateAt alert);
          UpdateBy := types.StringValue (Alert.UpdateBy alert) |}.

(** The state after an update is the plan, with the condition of the state
    when the two conditions are semantically equal, and with the
    server-managed fields of the state. *)
Definition Update (plan state : alertResourceModel) : result alertResourceModel :=
  let alertUpdate :=
    {| Alert.ID := types.ValueString (ID state);
       Alert.Alert := types.ValueString (Alert plan);
       Alert.AlertType := types.ValueString (AlertType plan);
       Alert.Annotations :=
         {| AlertAnnotations.Description := types.ValueString (Description plan);
            AlertAnnotations.Summary := types.ValueString (Summary plan) |};
       Alert.BroadcastToAll := types.ValueBool (BroadcastToAll plan);
       Alert.Condition := ∅;
       Alert.Disabled := types.ValueBool (Disabled plan);
       Alert.EvalWindow := types.ValueString (EvalWindow plan);
       Alert.Frequency := types.ValueString (Frequency plan);
       Alert.Labels := ∅;
       Alert.PreferredChannels := [];
       Alert.RuleType := types.ValueString (RuleType plan);
       Alert.Source := types.ValueString (Source plan);
       Alert.State := types.ValueString (State state);
       Alert.Version := types.ValueString (Version plan);
       Alert.CreateAt := types.ValueString (CreateAt state);
       Alert.CreateBy := types.ValueString (CreateBy state);
       Alert.UpdateAt := types.ValueString (UpdateAt state);
       Alert.UpdateBy := types.ValueString (UpdateBy state) |} in
  alertUpdate ← Alert.SetCondition alertUpdate (Condition plan);
  let alertUpdate := Alert.SetLabels alertUpdate (Labels plan) (Severity plan) in
  let alertUpdate := Alert.SetPreferredChannels alertUpdate (PreferredChannels plan) in
  match client.UpdateAlert r (types.ValueString (ID state)) alertUpdate with
  | Some err => Err err
  | None =>
      let condition :=
        if negb (types.IsNull (Condition state)) && negb (types.IsUnknown (Condition state))
        then if areJSONsSemanticallyEqual (types.ValueString (Condition plan))
                                          (types.ValueString (Condition state))
             then Condition state
             else Condition plan
        else Condition plan in
      mret {| ID := ID state;
              Alert := Alert plan;
              AlertType := AlertType plan;
              BroadcastToAll := BroadcastToAll plan;
              Condition := condition;
              Description := Description plan;
              Disabled := Disabled plan;
              EvalWindow := EvalWindow plan;
              Frequency := Frequency plan;
              Labels := Labels plan;
              PreferredChannels := PreferredChannels plan;
              RuleType := RuleType plan;
              Severity := Severity plan;
              Source := Source state;
              State := State state;
              Summary := Summary plan;
              Version := Version plan;
              CreateAt := CreateAt state;
              CreateBy := CreateBy state;
              UpdateAt := UpdateAt state;
              UpdateBy := UpdateBy state |}
  end.

Definition Delete (state : alertResourceModel) : option error :=
  client.DeleteAlert r (types.ValueString (ID state)).

End operations.

End alertResource.

(** ** Package resource: the dashboard resource *)

Module dashboardResource.

Record dashboardResourceModel := {
  CollapsableRowsMigrated : types.Bool;
  CreatedAt : types.String;
  CreatedBy : types.String;
  Description : types.String;
  ID : types.String;
  Layout : types.String;
  Name : types.String;
  PanelMap : types.String;
  Source : types.String;
  Tags : types.List;
  Title : types.String;
  UpdatedAt : types.String;
  UpdatedBy : types.String;
  UploadedGrafana : types.Bool;
  Variables : types.String;
  Version : types.String;
  Widgets : types.String
}.

(** The request body built from the plan, by [Create] and [Update] alike. *)
Definition payload (plan : dashboardResourceModel) : result Dashboard.t :=
  let d :=
    {| Dashboard.CollapsableRowsMigrated := types.ValueBool (CollapsableRowsMigrated plan);
       Dashboard.Description := types.ValueString (Description plan);
       Dashboard.Layout := None;
       Dashboard.Name := types.ValueString (Name plan);
       Dashboard.PanelMap := None;
       Dashboard.Source := EmptyString;
       Dashboard.Tags := [];
       Dashboard.Title := types.ValueString (Title plan);
       Dashboard.UploadedGrafana := types.ValueBool (UploadedGrafana plan);
       Dashboard.Variables := ∅;
       Dashboard.Version := types.ValueString (Version plan);
       Dashboard.Widgets := VNil |} in
  d ← Dashboard.SetLayout d (Layout plan);
  d ← Dashboard.SetPanelMap d (PanelMap plan);
  let d := Dashboard.SetTags d (Tags plan) in
  d ← Dashboard.SetVariables d (Variables plan);
  Dashboard.SetWidgets d (Widgets plan).

Section operations.

Variable r : client.Client.

Definition Create (plan : dashboardResourceModel) : result dashboardResourceModel :=
  dashboardPayload ← payload plan;
  dashboard ← client.CreateDashboard r dashboardPayload;
  mret {| CollapsableRowsMigrated := CollapsableRowsMigrated plan;
          CreatedAt := types.StringValue (client.CreatedAt dashboard);
          CreatedBy := types.StringValue (client.CreatedBy dashboard);
          Description := Description plan;
          ID := types.StringValue (client.ID dashboard);
          Layout := Layout plan;
          Name := Name plan;
          PanelMap := PanelMap plan;
          Source := types.StringValue (Dashboard.Source (client.Data dashboard));
          Tags := Tags plan;
          Title := Title plan;
          UpdatedAt := types.StringValue (client.UpdatedAt dashboard);
          UpdatedBy := types.StringValue (client.UpdatedBy dashboard);
          UploadedGrafana := UploadedGrafana plan;
          Variables := Variables plan;
          Version := types.StringValue (Dashboard.Version (client.Data dashboard));
          Widgets := Widgets plan |}.

(** The complex JSON fields keep the value of the state; everything else
    is overwritten with what the API returned. *)
Definition Read (state : dashboardResourceModel) : result dashboardResourceModel :=
  dashboard ← client.GetDashboard r (types.ValueString (ID state));
  let originalWidgets := Widgets state in
  let originalLayout := Layout state in
  let originalPanelMap := PanelMap state in
  let originalVariables := Variables state in
  let data := client.Data dashboard in
  mret {| CollapsableRowsMigrated :=
            types.BoolValue (Dashboard.CollapsableRowsMigrated data);
          CreatedAt := types.StringValue (client.CreatedAt dashboard);
          CreatedBy := types.StringValue (client.CreatedBy dashboard);
          Description := types.StringValue (Dashboard.Description data);
          ID := types.StringValue (client.ID dashboard);
          Layout := originalLayout;
          Name := types.StringValue (Dashboard.Name data);
          PanelMap := originalPanelMap;
          Source := types.StringValue (Dashboard.Source data);
          Tags := Dashboard.TagsToTerraform data;
          Title := types.StringValue (Dashboard.Title data);
          UpdatedAt := types.StringValue (client.UpdatedAt dashboard);
          UpdatedBy := types.StringValue (client.UpdatedBy dashboard);
          UploadedGrafana := types.BoolValue (Dashboard.UploadedGrafana data);
          Variables := originalVariables;
          Version := types.StringValue (Dashboard.Version data);
          Widgets := originalWidgets |}.

(** The state after an update is the plan with the server-managed fields
    of the state. *)
Definition Update (plan state : dashboardResourceModel) : result dashboardResourceModel :=
  dashboardUpdate ← payload plan;
  match client.UpdateDashboard r (types.ValueString (ID state)) dashboardUpdate with
  | Some err => Err err
  | None =>
      mret {| CollapsableRowsMigrated := CollapsableRowsMigrated plan;
              CreatedAt := CreatedAt state;
              CreatedBy := CreatedBy state;
              Description := Description plan;
              ID := ID state;
              Layout := Layout plan;
              Name := Name plan;
              PanelMap := PanelMap plan;
              Source := Source state;
              Tags := Tags plan;
              Title := Title plan;
              UpdatedAt := UpdatedAt state;
              UpdatedBy := UpdatedBy state;
              UploadedGrafana := UploadedGrafana plan;
              Variables := Variables plan;
              Version := Version plan;
              Widgets := Widgets plan |}
  end.

Definition Delete (state : dashboardResourceModel) : option error :=
  client.DeleteDashboard r (types.ValueString (ID state)).

End operations.

End dashboardResource.

(** ** Notation for JSON texts

    [js s] is the text [s] with every apostrophe replaced by a double
    quote, so that the JSON text {"a":1} is written [js "{'a':1}"]. *)

Definition js (s : string) : string :=
  string_of ((λ c, if Ascii.eqb c "'" then json.quote else c) <$> bytes_of s).

(** ** Example inputs

    The Go zero values of the model structs, a client whose calls all
    succeed and return the given alert and dashboard, and resource models
    whose attributes are known, used to run the operations on concrete
    inputs. *)

Definition zeroAlert : Alert.t :=
  {| Alert.ID := EmptyString; Alert.Alert := EmptyString;
     Alert.AlertType := EmptyString;
     Alert.Annotations :=
       {| AlertAnnotations.Description := EmptyString;
          AlertAnnotations.Summary := EmptyString |};
     Alert.BroadcastToAll := false; Alert.Condition := ∅;
     Alert.Disabled := false; Alert.EvalWindow := EmptyString;
     Alert.Frequency := EmptyString; Alert.Labels := ∅;
     Alert.PreferredChannels := []; Alert.RuleType := EmptyString;
     Alert.Source := EmptyString; Alert.State := EmptyString;
     Alert.Version := EmptyString; Alert.CreateAt := EmptyString;
     Alert.CreateBy := EmptyString; Alert.UpdateAt := EmptyString;
     Alert.UpdateBy := EmptyString |}.

Definition zeroDashboard : Dashboard.t :=
  {| Dashboard.CollapsableRowsMigrated := false;
     Dashboard.Description := EmptyString; Dashboard.Layout := None;
     Dashboard.Name := EmptyString; Dashboard.PanelMap := None;
     Dashboard.Source := EmptyString; Dashboard.Tags := [];
     Dashboard.Title := EmptyString; Dashboard.UploadedGrafana := false;
     Dashboard.Variables := ∅; Dashboard.Version := EmptyString;
     Dashboard.Widgets := VNil |}.

Definition remoteDashboard (data : Dashboard.t) : client.Dashboard :=
  {| client.ID := "d-1"; client.CreatedAt := "2024-01-01";
     client.CreatedBy := "admin"; client.UpdatedAt := "2024-01-02";
     client.UpdatedBy := "admin"; client.Data := data |}.

Definition stubClient (alert : Alert.t) (data : Dashboard.t) : client.Client :=
  {| client.CreateAlert := λ _, Ok alert;
     client.GetAlert := λ _, Ok alert;
     client.UpdateAlert := λ _ _, None;
     client.DeleteAlert := λ _, None;
     client.CreateDashboard := λ _, Ok (remoteDashboard data);
     client.GetDashboard := λ _, Ok (remoteDashboard data);
     client.UpdateDashboard := λ _ _, None;
     client.DeleteDashboard := λ _, None |}.

(** An alert model with the given identifier and condition. *)
Definition alertModel (id : string) (condition : string)
  : alertResource.alertResourceModel :=
  {| alertResource.ID := types.StringValue id;
     alertResource.Alert := types.StringValue "cpu";
     alertResource.AlertType := types.StringValue "METRIC_BASED_ALERT";
     alertResource.BroadcastToAll := types.BoolValue false;
     alertResource.Condition := types.StringValue condition;
     alertResource.Description := types.StringValue "high load";
     alertResource.Disabled := types.BoolValue false;
     alertResource.EvalWindow := types.StringValue "5m0s";
     alertResource.Frequency := types.StringValue "1m0s";
     alertResource.Labels := types.MapValue ∅;
     alertResource.PreferredChannels := types.ListValue [];
     alertResource.RuleType := types.StringValue "threshold_rule";
     alertResource.Severity := types.StringValue "critical";
     alertResource.Source := types.StringValue id;
     alertResource.State := types.StringValue id;
     alertResource.Summary := types.StringValue "load";
     alertResource.Version := types.StringValue "v4";
     alertResource.CreateAt := types.StringValue id;
     alertResource.CreateBy := types.StringValue id;
     alertResource.UpdateAt := types.StringValue id;
     alertResource.UpdateBy := types.StringValue id |}.

(** A dashboard model with the given identifier, layout and widgets. *)
Definition dashboardModel (id : string) (layout widgets : string)
  : dashboardResource.dashboardResourceModel :=
  {| dashboardResource.CollapsableRowsMigrated := types.BoolValue true;
     dashboardResource.CreatedAt := types.StringValue id;
     dashboardResource.CreatedBy := types.StringValue id;
     dashboardResource.Description := types.StringValue "overview";
     dashboardResource.ID := types.StringValue id;
     dashboardResource.Layout := types.StringValue layout;
     dashboardResource.Name := types.StringValue "main";
     dashboardResource.PanelMap := types.StringValue "{}";
     dashboardResource.Source := types.StringValue id;
     dashboardResource.Tags := types.ListValue [];
     dashboardResource.Title := types.StringValue "Main";
     dashboardResource.UpdatedAt := types.StringValue id;
     dashboardResource.UpdatedBy := types.StringValue id;
     dashboardResource.UploadedGrafana := types.BoolValue false;
     dashboardResource.Variables := types.StringValue "{}";
     dashboardResource.Version := types.StringValue "v4";
     dashboardResource.Widgets := types.StringValue widgets |}.

(** The [float64] of a small natural number. *)
Definition number (n : N) : value :=
  VFloat (json.mkFloat false (json.N_digits n) 0).

(* ===================================================================== *)
(** * Part II: lemmas and theorems                                        *)
(* ===================================================================== *)

(** ** Strings and bytes *)

Lemma string_of_bytes_of (s : string) : string_of (bytes_of s) = s.
Proof. apply String.string_of_list_ascii_of_string. Qed.

Lemma bytes_of_string_of (b : bytes) : bytes_of (string_of b) = b.
Proof. apply String.list_ascii_of_string_of_list_ascii. Qed.

Lemma string_of_inj (a b : bytes) : string_of a = string_of b → a = b.
Proof.
  intros H. rewrite <- (bytes_of_string_of a), <- (bytes_of_string_of b).
  by rewrite H.
Qed.

Lemma String_eqb_true (a b : string) : String.eqb a b = true ↔ a = b.
Proof. apply String.eqb_eq. Qed.

(** ** Induction over interface values

    The values nest through lists and through maps; the induction goes by
    the number of constructors. *)

Fixpoint value_size (v : value) : nat :=
  match v with
  | VSlice l => S (foldr (λ x acc, x + acc)%nat 0%nat (value_size <$> l))
  | VMap m => S (map_fold (λ _ x acc, x + acc)%nat 0%nat (value_size <$> m))
  | _ => 1%nat
  end.

Lemma sum_list_elem (l : list nat) (n : nat) :
  n ∈ l → (n ≤ foldr (λ x acc, x + acc) 0 l)%nat.
Proof.
  induction 1 as [|? ? ? _ IH]; simpl; [lia|]. lia.
Qed.

Lemma sum_map_elem (m : gmap string nat) (k : string) (n : nat) :
  m !! k = Some n → (n ≤ map_fold (λ _ x acc, x + acc) 0 m)%nat.
Proof.
  revert k n.
  apply (map_fold_weak_ind (λ r m, ∀ k n, m !! k = Some n → (n ≤ r)%nat)).
  - intros k n. by rewrite lookup_empty.
  - intros i x m' r Hi IH k n. rewrite lookup_insert.
    case_decide; intros Hk.
    + injection Hk as ->. lia.
    + specialize (IH _ _ Hk). lia.
Qed.

Lemma value_size_slice (l : list value) (x : value) :
  x ∈ l → (value_size x < value_size (VSlice l))%nat.
Proof.
  intros Hx. simpl. apply Nat.lt_succ_r, sum_list_elem.
  by apply list_elem_of_fmap_2.
Qed.

Lemma value_size_map (m : gmap string value) (k : string) (x : value) :
  m !! k = Some x → (value_size x < value_size (VMap m))%nat.
Proof.
  intros Hx. simpl. apply Nat.lt_succ_r, (sum_map_elem _ k).
  by rewrite lookup_fmap, Hx.
Qed.

Lemma value_induction (P : value → Prop) :
  P VNil →
  (∀ b, P (VBool b)) →
  (∀ n, P (VInt n)) →
  (∀ f, P (VFloat f)) →
  (∀ s, P (VString s)) →
  (∀ l, Forall P l → P (VSlice l)) →
  (∀ m, map_Forall (λ _ x, P x) m → P (VMap m)) →
  ∀ v, P v.
Proof.
  intros HN HB HI HF HS HL HM v.
  remember (value_size v) as n eqn:Hn. revert v Hn.
  induction (lt_wf n) as [n _ IH]. intros v ->.
  assert (∀ x, (value_size x < value_size v)%nat → P x) as IH'.
  { intros x Hx. by apply (IH (value_size x)). }
  destruct v; auto.
  - apply HL, Forall_forall. intros x Hx. apply IH'.
    by apply value_size_slice.
  - apply HM. intros k x Hx. apply IH'.
    by apply (value_size_map _ k).
Qed.

(** ** The canonicalizer *)

(** The fields of the canonical map: a field is kept, with its value
    canonicalized, exactly when the policy does not match its key and
    value. *)
Definition keptFields (m : gmap string value) : gmap string value :=
  map_fold (λ key value result,
              if isDefaultField key value then result
              else <[key := removeDefaultFields value]> result) ∅ m.

Lemma removeDefaultFields_map (m : gmap string value) :
  removeDefaultFields (VMap m) = VMap (keptFields m).
Proof. reflexivity. Qed.

Lemma keptFields_lookup (m : gmap string value) (k : string) :
  keptFields m !! k =
  match m !! k with
  | Some x => if isDefaultField k x then None else Some (removeDefaultFields x)
  | None => None
  end.
Proof.
  unfold keptFields. revert k.
  apply (map_fold_weak_ind (λ r m, ∀ k, r !! k = match m !! k with
     | Some x => if isDefaultField k x then None else Some (removeDefaultFields x)
     | None => None end)).
  - intros k. by rewrite !lookup_empty.
  - intros i x m' r Hi IH k.
    destruct (decide (i = k)) as [->|Hne].
    + rewrite lookup_insert_eq. destruct (isDefaultField k x).
      * by rewrite IH, Hi.
      * by rewrite lookup_insert_eq.
    + rewrite (lookup_insert_ne m') by done.
      destruct (isDefaultField i x); [by rewrite IH|].
      by rewrite lookup_insert_ne, IH.
Qed.

(** A slice keeps its length, and scalars are unchanged: whether a value
    matches the policy is not changed by canonicalizing it. *)
Lemma isDefaultField_removeDefaultFields (k : string) (v : value) :
  isDefaultField k (removeDefaultFields v) = isDefaultField k v.
Proof.
  destruct v; try reflexivity.
  unfold isDefaultField. simpl. by rewrite length_fmap.
Qed.

Lemma removeDefaultFields_idempotent (v : value) :
  removeDefaultFields (removeDefaultFields v) = removeDefaultFields v.
Proof.
  induction v as [| | | | |l IH|m IH] using value_induction; try reflexivity.
  - simpl. f_equal. rewrite <- list_fmap_compose.
    apply list_fmap_ext. intros i x Hx. simpl.
    eapply Forall_forall in IH; [exact IH|]. by eapply list_elem_of_lookup_2.
  - rewrite !removeDefaultFields_map. f_equal. apply map_eq. intros k.
    rewrite !keptFields_lookup.
    destruct (m !! k) as [x|] eqn:Hk; [|done].
    destruct (isDefaultField k x) eqn:Hd; [done|].
    rewrite isDefaultField_removeDefaultFields, Hd.
    f_equal. by apply (IH k).
Qed.

(** ** The semantic comparator *)

Lemma comparator_spec (json1 json2 : string) :
  areJSONsSemanticallyEqual json1 json2 = true ↔
  ∃ data1 data2,
    json.Unmarshal (bytes_of json1) = Some data1 ∧
    json.Unmarshal (bytes_of json2) = Some data2 ∧
    json.Marshal (removeDefaultFields data1) = json.Marshal (removeDefaultFields data2).
Proof.
  unfold areJSONsSemanticallyEqual.
  destruct (json.Unmarshal (bytes_of json1)) as [data1|];
    [|split; [done|by intros (? & ? & ? & _)]].
  destruct (json.Unmarshal (bytes_of json2)) as [data2|];
    [|split; [done|by intros (? & ? & _ & ? & _)]].
  rewrite String_eqb_true. split.
  - intros H%string_of_inj. eauto.
  - intros (? & ? & [= <-] & [= <-] & ->). done.
Qed.

(** C8. Parse failure yields inequivalence: when either text fails to
    parse as JSON the comparator answers [false]; the comparator is a total
    function into [bool], so no error leaves it. *)
Theorem parse_failure_yields_inequivalence (json1 json2 : string) :
  json.Unmarshal (bytes_of json1) = None ∨ json.Unmarshal (bytes_of json2) = None →
  areJSONsSemanticallyEqual json1 json2 = false.
Proof.
  unfold areJSONsSemanticallyEqual. intros [-> | ->]; [done|].
  by destruct (json.Unmarshal (bytes_of json1)).
Qed.

Lemma parse_failure_yields_inequivalence_witness :
  json.Unmarshal (bytes_of (js "{'a':")) = None ∧
  areJSONsSemanticallyEqual (js "{'a':") (js "{'a':1}") = false.
Proof.
  split; [vm_compute; reflexivity|].
  apply parse_failure_yields_inequivalence. left. vm_compute. reflexivity.
Defined.

(** C4, as stated: the comparator is not reflexive over all texts, a text
    that is not JSON is not equivalent to itself. *)
Lemma comparator_not_reflexive_on_all_texts :
  ¬ (∀ a : string, areJSONsSemanticallyEqual a a = true).
Proof.
  intros H. specialize (H "not json"). vm_compute in H. discriminate.
Qed.

(** C4, amended. The comparator is reflexive on the texts that parse as
    JSON, and symmetric and transitive on all texts. *)
Theorem comparator_partial_equivalence (a b c : string) :
  (is_Some (json.Unmarshal (bytes_of a)) → areJSONsSemanticallyEqual a a = true) ∧
  areJSONsSemanticallyEqual a b = areJSONsSemanticallyEqual b a ∧
  (areJSONsSemanticallyEqual a b = true →
   areJSONsSemanticallyEqual b c = true →
   areJSONsSemanticallyEqual a c = true).
Proof.
  split; [|split].
  - intros [data Ha]. apply comparator_spec. eauto.
  - unfold areJSONsSemanticallyEqual.
    destruct (json.Unmarshal (bytes_of a)), (json.Unmarshal (bytes_of b)); try done.
    apply String.eqb_sym.
  - rewrite !comparator_spec.
    intros (x & y & Hx & Hy & Hxy) (y' & z & Hy' & Hz & Hyz).
    rewrite Hy in Hy'. injection Hy' as <-.
    exists x, z. split; [done|]. split; [done|]. congruence.
Qed.

Lemma comparator_partial_equivalence_witness :
  areJSONsSemanticallyEqual (js "{'a':1,'b':2}") (js "{'a':1,'b':2}") = true ∧
  areJSONsSemanticallyEqual (js "{'a':1,'b':2}") (js "{ 'a' : 1.0, 'b' : 2 }") = true.
Proof.
  pose proof (comparator_partial_equivalence
                (js "{'a':1,'b':2}") (js "{'b':2,'a':1,'groupBy':[]}")
                (js "{ 'a' : 1.0, 'b' : 2 }")) as (Hrefl & _ & Htrans).
  split.
  - apply Hrefl. vm_compute. eauto.
  - apply Htrans; vm_compute; reflexivity.
Defined.

(** ** The default-field policy *)

(** C7, as stated: [hidden = true] and an empty [reduceTo] are dropped from
    a query named [B], which is neither the first query nor a formula
    query. *)
Lemma positional_defaults_suppressed_elsewhere :
  normalizeJSON
    (js "{'compositeQuery':{'builderQueries':{'B':{'hidden':true,'reduceTo':'','expr':'x'}}}}")
  = Ok (js "{'compositeQuery':{'builderQueries':{'B':{'expr':'x'}}}}").
Proof. vm_compute. reflexivity. Qed.

Lemma isDefaultField_map (k : string) (m : gmap string value) :
  isDefaultField k (VMap m) = false.
Proof. unfold isDefaultField. repeat (case_match; try reflexivity). Qed.

Lemma setIfNil_lookup (k : string) (x : value) (m : gmap string value) (j : string) :
  Alert.setIfNil k x m !! j =
  if decide (k = j) then (if Alert.isNil m k then Some x else m !! k)
  else m !! j.
Proof.
  unfold Alert.setIfNil. case_decide as Hk.
  - subst j. destruct (Alert.isNil m k); [by rewrite lookup_insert_eq|done].
  - destruct (Alert.isNil m k); [by rewrite lookup_insert_ne|done].
Qed.

(** The builder query named [q] of a condition: the object under
    [compositeQuery], [builderQueries], [q]. *)
Definition builderQuery (c : gmap string value) (q : string)
  : option (gmap string value) :=
  match c !! "compositeQuery" with
  | Some (VMap compositeQuery) =>
      match compositeQuery !! "builderQueries" with
      | Some (VMap builderQueries) =>
          match builderQueries !! q with
          | Some (VMap queryMap) => Some queryMap
          | _ => None
          end
      | _ => None
      end
  | _ => None
  end.

(** [normalizeCondition] rewrites every builder query with
    [normalizeQuery] under its own name. *)
Lemma builderQuery_normalizeCondition (c c' : gmap string value) (q : string)
    (m : gmap string value) :
  builderQuery c q = Some m →
  Alert.normalizeCondition (Some c) = Ok c' →
  builderQuery c' q = Some (Alert.normalizeQuery q m).
Proof.
  unfold builderQuery. intros Hq [= <-].
  destruct (c !! "compositeQuery") as [[| | | | | |cq]|] eqn:Hcq; try done.
  destruct (cq !! "builderQueries") as [[| | | | | |bq]|] eqn:Hbq; try done.
  destruct (bq !! q) as [[| | | | | |m0]|] eqn:Hm; try done.
  injection Hq as ->.
  rewrite !setIfNil_lookup. repeat (case_decide; [done|]).
  unfold Alert.normalizeQueries. rewrite Hcq, Hbq.
  rewrite lookup_insert_eq, lookup_insert_eq, map_lookup_imap, Hm. reflexivity.
Qed.

Lemma normalizeQuery_hidden (q : string) (m : gmap string value) :
  m !! "hidden" = None →
  Alert.normalizeQuery q m !! "hidden" =
  if String.eqb q "A" then Some (VBool true) else None.
Proof.
  intros Hm. unfold Alert.normalizeQuery.
  destruct (String.eqb q "F1"), (String.eqb q "A");
    repeat (rewrite setIfNil_lookup; simpl);
    unfold Alert.isNil; repeat (rewrite setIfNil_lookup; simpl); by rewrite Hm.
Qed.

Lemma normalizeQuery_formula_fields (q : string) (m : gmap string value) (k : string) :
  k ∈ ["reduceTo"; "spaceAggregation"; "timeAggregation"] →
  m !! k = None →
  Alert.normalizeQuery q m !! k =
  if String.eqb q "F1" then Some (VString EmptyString) else None.
Proof.
  intros Hk Hm. unfold Alert.normalizeQuery. set_unfold in Hk.
  destruct Hk as [->|[->|[->|[]]]];
    destruct (String.eqb q "F1"), (String.eqb q "A");
    repeat (rewrite setIfNil_lookup; simpl);
    unfold Alert.isNil; repeat (rewrite setIfNil_lookup; simpl); by rewrite Hm.
Qed.

(** C7, amended. The policy is consulted with the key and the value only:
    in every map, at every depth and under every enclosing key [q], a field
    is dropped exactly when [isDefaultField] matches its key and value, so
    [hidden = true] and the empty [reduceTo], [spaceAggregation] and
    [timeAggregation] are dropped in every container.  The query name only
    decides which defaults [normalizeCondition] adds: in the builder query
    named [q] of the condition it adds [hidden] when [q] is [A] and no
    other, and the empty [reduceTo], [spaceAggregation] and
    [timeAggregation] when [q] is [F1] and no other. *)
Theorem default_policy_ignores_position (q : string) (m : gmap string value) :
  (∀ k, keptFields m !! k =
        match m !! k with
        | Some x => if isDefaultField k x then None else Some (removeDefaultFields x)
        | None => None
        end) ∧
  removeDefaultFields (VMap {[ q := VMap m ]}) = VMap {[ q := VMap (keptFields m) ]} ∧
  (∀ k, k ∈ ["reduceTo"; "spaceAggregation"; "timeAggregation"] →
        m !! k = Some (VString EmptyString) → keptFields m !! k = None) ∧
  (m !! "hidden" = Some (VBool true) → keptFields m !! "hidden" = None) ∧
  (m !! "hidden" = None →
   Alert.normalizeQuery q m !! "hidden" =
   if String.eqb q "A" then Some (VBool true) else None) ∧
  (∀ c c',
     builderQuery c q = Some m →
     Alert.normalizeCondition (Some c) = Ok c' →
     ∃ m',
       builderQuery c' q = Some m' ∧
       m' = Alert.normalizeQuery q m ∧
       (m !! "hidden" = None →
        m' !! "hidden" = if String.eqb q "A" then Some (VBool true) else None) ∧
       (∀ k, k ∈ ["reduceTo"; "spaceAggregation"; "timeAggregation"] →
             m !! k = None →
             m' !! k = if String.eqb q "F1" then Some (VString EmptyString) else None)).
Proof.
  split; [apply keptFields_lookup|]. split; [|split; [|split; [|split]]].
  - rewrite removeDefaultFields_map. f_equal. apply map_eq. intros k.
    rewrite keptFields_lookup. destruct (decide (q = k)) as [->|Hne].
    + by rewrite !lookup_singleton_eq, isDefaultField_map.
    + by rewrite !lookup_singleton_ne.
  - intros k Hk Hm. rewrite keptFields_lookup, Hm.
    set_unfold in Hk. by destruct Hk as [->|[->|[->|[]]]].
  - intros Hm. by rewrite keptFields_lookup, Hm.
  - apply normalizeQuery_hidden.
  - intros c c' Hq Hc. exists (Alert.normalizeQuery q m).
    split; [by eapply builderQuery_normalizeCondition|]. split; [done|].
    split; [apply normalizeQuery_hidden|].
    intros k Hk Hm. by apply normalizeQuery_formula_fields.
Qed.

Lemma default_policy_ignores_position_witness :
  keptFields {[ "hidden" := VBool true; "expr" := VString "x" ]} !! "hidden" = None ∧
  Alert.normalizeQuery "B" {[ "expr" := VString "x" ]} !! "hidden" = None ∧
  ∃ c' m',
    Alert.normalizeCondition
      (Some {[ "compositeQuery" :=
                 VMap {[ "builderQueries" :=
                           VMap {[ "B" := VMap {[ "expr" := VString "x" ]} ]} ]} ]})
    = Ok c' ∧
    builderQuery c' "B" = Some m' ∧
    m' !! "hidden" = None ∧
    m' !! "reduceTo" = None.
Proof.
  pose proof (default_policy_ignores_position "B"
                {[ "hidden" := VBool true; "expr" := VString "x" ]})
    as (_ & _ & _ & H & _).
  pose proof (default_policy_ignores_position "B" {[ "expr" := VString "x" ]})
    as (_ & _ & _ & _ & H' & Hc).
  split; [apply H; vm_compute; reflexivity|].
  split; [apply H'; vm_compute; reflexivity|].
  set (c := {[ "compositeQuery" :=
                 VMap {[ "builderQueries" :=
                           VMap {[ "B" := VMap {[ "expr" := VString "x" ]} ]} ]} ]}
            : gmap string value).
  assert (builderQuery c "B" = Some {[ "expr" := VString "x" ]}) as Hb
    by (vm_compute; reflexivity).
  assert (∃ c', Alert.normalizeCondition (Some c) = Ok c') as [c' Hn]
    by (eexists; reflexivity).
  destruct (Hc c c' Hb Hn) as (m' & Hq & _ & Hh & Hf).
  exists c', m'. split; [exact Hn|]. split; [exact Hq|]. split.
  - apply Hh. vm_compute. reflexivity.
  - apply (Hf "reduceTo"); [set_solver|vm_compute; reflexivity].
Defined.

(** ** The lifecycle operations *)

Lemma SetCondition_ok (a : Alert.t) (tfCondition : types.String) (m : gmap string value) :
  structure.ExpandJsonFromString (types.ValueString tfCondition) = Ok (Some m) →
  ∃ c, Alert.SetCondition a tfCondition = Ok (Alert.withCondition a c).
Proof.
  intros H. unfold Alert.SetCondition. rewrite H. simpl. eauto.
Qed.

(** What [Update] stores when it succeeds: the plan, the merged condition
    and the server-managed fields of the state. *)
Lemma alert_Update_inv (r : client.Client)
    (plan state next : alertResource.alertResourceModel) :
  alertResource.Update r plan state = Ok next →
  alertResource.Condition next =
    (if negb (types.IsNull (alertResource.Condition state))
        && negb (types.IsUnknown (alertResource.Condition state))
     then if areJSONsSemanticallyEqual
               (types.ValueString (alertResource.Condition plan))
               (types.ValueString (alertResource.Condition state))
          then alertResource.Condition state
          else alertResource.Condition plan
     else alertResource.Condition plan) ∧
  alertResource.ID next = alertResource.ID state ∧
  alertResource.CreateAt next = alertResource.CreateAt state ∧
  alertResource.CreateBy next = alertResource.CreateBy state ∧
  alertResource.UpdateAt next = alertResource.UpdateAt state ∧
  alertResource.UpdateBy next = alertResource.UpdateBy state ∧
  alertResource.Source next = alertResource.Source state ∧
  alertResource.State next = alertResource.State state.
Proof.
  unfold alertResource.Update.
  destruct (Alert.SetCondition _ _) as [a|e]; simpl; [|done].
  destruct (client.UpdateAlert _ _ _); simpl; [done|].
  intros [= <-]. simpl. done.
Qed.

(** [Update] does store a state when the planned condition is a JSON
    object and the API accepts the update. *)
Lemma alert_Update_succeeds (r : client.Client)
    (plan state : alertResource.alertResourceModel) (m : gmap string value) :
  structure.ExpandJsonFromString (types.ValueString (alertResource.Condition plan))
    = Ok (Some m) →
  (∀ id a, client.UpdateAlert r id a = None) →
  ∃ next, alertResource.Update r plan state = Ok next.
Proof.
  intros Hc Hr. unfold alertResource.Update.
  edestruct SetCondition_ok as [c ->]; [done|]. simpl.
  rewrite Hr. simpl. eauto.
Qed.

Lemma dashboard_Update_inv (r : client.Client)
    (plan state next : dashboardResource.dashboardResourceModel) :
  dashboardResource.Update r plan state = Ok next →
  dashboardResource.Layout next = dashboardResource.Layout plan ∧
  dashboardResource.Widgets next = dashboardResource.Widgets plan ∧
  dashboardResource.PanelMap next = dashboardResource.PanelMap plan ∧
  dashboardResource.Variables next = dashboardResource.Variables plan ∧
  dashboardResource.ID next = dashboardResource.ID state ∧
  dashboardResource.CreatedAt next = dashboardResource.CreatedAt state ∧
  dashboardResource.CreatedBy next = dashboardResource.CreatedBy state ∧
  dashboardResource.UpdatedAt next = dashboardResource.UpdatedAt state ∧
  dashboardResource.UpdatedBy next = dashboardResource.UpdatedBy state ∧
  dashboardResource.Source next = dashboardResource.Source state.
Proof.
  unfold dashboardResource.Update.
  destruct (dashboardResource.payload plan) as [d|e]; simpl; [|done].
  destruct (client.UpdateDashboard _ _ _); simpl; [done|].
  intros [= <-]. simpl. done.
Qed.

(** C1, as stated: the dashboard's [Update] never consults the comparator.
    The planned layout [[ ]] and the previous layout [[]] are equivalent,
    yet the next state holds the planned text, not the previous one. *)
Lemma update_merge_rule_fails_for_dashboard_layout :
  let plan := dashboardModel "planned" "[ ]" "[]" in
  let state := dashboardModel "d-1" "[]" "[]" in
  areJSONsSemanticallyEqual
    (types.ValueString (dashboardResource.Layout plan))
    (types.ValueString (dashboardResource.Layout state)) = true ∧
  ∃ next,
    dashboardResource.Update (stubClient zeroAlert zeroDashboard) plan state = Ok next ∧
    dashboardResource.Layout next = types.StringValue "[ ]" ∧
    dashboardResource.Layout next ≠ dashboardResource.Layout state.
Proof.
  simpl. split; [vm_compute; reflexivity|].
  eexists. split; [vm_compute; reflexivity|]. simpl. split; [done|]. discriminate.
Qed.

(** C1, amended. The merge rule holds for the alert's condition, the one
    field whose [Update] consults the comparator: with a previous condition
    present, the next state holds the desired condition unless the
    comparator finds the two equivalent, in which case it holds the
    previous one.  With desired condition {"a":2} and previous {"a":1} the
    comparator answers [false], [Update] succeeds whenever the API accepts
    the update, and the next condition is the desired one.  The structured
    fields of the dashboard are taken from the desired configuration. *)
Theorem update_merge_rule (r : client.Client) :
  (∀ plan state next previous,
     alertResource.Condition state = types.Known previous →
     alertResource.Update r plan state = Ok next →
     alertResource.Condition next =
       if areJSONsSemanticallyEqual
            (types.ValueString (alertResource.Condition plan)) previous
       then alertResource.Condition state
       else alertResource.Condition plan) ∧
  (∀ plan state,
     alertResource.Condition plan = types.Known (js "{'a':2}") →
     alertResource.Condition state = types.Known (js "{'a':1}") →
     (∀ id a, client.UpdateAlert r id a = None) →
     areJSONsSemanticallyEqual (js "{'a':2}") (js "{'a':1}") = false ∧
     ∃ next, alertResource.Update r plan state = Ok next ∧
             alertResource.Condition next = alertResource.Condition plan) ∧
  (∀ plan state next,
     dashboardResource.Update r plan state = Ok next →
     dashboardResource.Layout next = dashboardResource.Layout plan ∧
     dashboardResource.Widgets next = dashboardResource.Widgets plan ∧
     dashboardResource.PanelMap next = dashboardResource.PanelMap plan ∧
     dashboardResource.Variables next = dashboardResource.Variables plan).
Proof.
  split; [|split].
  - intros plan state next previous Hs Hu.
    apply alert_Update_inv in Hu as (-> & _). by rewrite Hs.
  - intros plan state Hp Hs Hr.
    assert (areJSONsSemanticallyEqual (js "{'a':2}") (js "{'a':1}") = false) as Hne
      by (vm_compute; reflexivity).
    split; [done|].
    destruct (alert_Update_succeeds r plan state {[ "a" := number 2 ]}) as [next Hu];
      [rewrite Hp; vm_compute; reflexivity|done|].
    exists next. split; [done|].
    apply alert_Update_inv in Hu as (-> & _). rewrite Hs, Hp. simpl.
    by rewrite Hne.
  - intros plan state next Hu.
    apply dashboard_Update_inv in Hu. tauto.
Qed.

Lemma update_merge_rule_witness :
  ∃ next,
    alertResource.Update (stubClient zeroAlert zeroDashboard)
      (alertModel "planned" (js "{'a':2}")) (alertModel "a-1" (js "{'a':1}")) = Ok next ∧
    alertResource.Condition next = types.Known (js "{'a':2}").
Proof.
  destruct (update_merge_rule (stubClient zeroAlert zeroDashboard)) as (_ & H & _).
  destruct (H (alertModel "planned" (js "{'a':2}")) (alertModel "a-1" (js "{'a':1}")))
    as (_ & next & Hu & Hc); [reflexivity|reflexivity|reflexivity|].
  exists next. split; [exact Hu|exact Hc].
Defined.

(** C3.  The scenario on the code: the decoded [absentFor] is a [float64]
    and the policy compares it with the [int] constant [0], so the field is
    kept, the comparator answers [false], and [Update] stores the desired
    condition; [alertOnAbsent = false] alone is dropped.  The [int] zero
    that [normalizeCondition] writes does match the policy. *)
Theorem absentFor_zero_not_suppressed :
  let desired := js "{'absentFor':0,'alertOnAbsent':false,'a':1}" in
  let previous := js "{'a':1}" in
  normalizeJSON desired = Ok (js "{'a':1,'absentFor':0}") ∧
  normalizeJSON previous = Ok (js "{'a':1}") ∧
  areJSONsSemanticallyEqual desired previous = false ∧
  (∃ next,
     alertResource.Update (stubClient zeroAlert zeroDashboard)
       (alertModel "planned" desired) (alertModel "a-1" previous) = Ok next ∧
     alertResource.Condition next = types.Known desired) ∧
  isDefaultField "absentFor" (number 0) = false ∧
  isDefaultField "absentFor" (VInt 0) = true.
Proof.
  simpl. repeat split; try (vm_compute; reflexivity).
  eexists. split; vm_compute; reflexivity.
Qed.

(** C9. Frame condition of [Update]: whatever the desired configuration
    holds, the identifier, the creation and update timestamps, the creator
    and the updater, the source and (for the alert) the lifecycle state of
    the next state are those of the previous state. *)
Theorem update_preserves_server_managed_fields (r : client.Client) :
  (∀ plan state next,
     alertResource.Update r plan state = Ok next →
     alertResource.ID next = alertResource.ID state ∧
     alertResource.CreateAt next = alertResource.CreateAt state ∧
     alertResource.CreateBy next = alertResource.CreateBy state ∧
     alertResource.UpdateAt next = alertResource.UpdateAt state ∧
     alertResource.UpdateBy next = alertResource.UpdateBy state ∧
     alertResource.Source next = alertResource.Source state ∧
     alertResource.State next = alertResource.State state) ∧
  (∀ plan state next,
     dashboardResource.Update r plan state = Ok next →
     dashboardResource.ID next = dashboardResource.ID state ∧
     dashboardResource.CreatedAt next = dashboardResource.CreatedAt state ∧
     dashboardResource.CreatedBy next = dashboardResource.CreatedBy state ∧
     dashboardResource.UpdatedAt next = dashboardResource.UpdatedAt state ∧
     dashboardResource.UpdatedBy next = dashboardResource.UpdatedBy state ∧
     dashboardResource.Source next = dashboardResource.Source state).
Proof.
  split.
  - intros plan state next Hu. apply alert_Update_inv in Hu. tauto.
  - intros plan state next Hu. apply dashboard_Update_inv in Hu. tauto.
Qed.

Lemma update_preserves_server_managed_fields_witness :
  (∃ next,
     alertResource.Update (stubClient zeroAlert zeroDashboard)
       (alertModel "planned" (js "{'a':2}")) (alertModel "a-1" (js "{'a':1}")) = Ok next ∧
     alertResource.ID next = types.Known "a-1" ∧
     alertResource.State next = types.Known "a-1") ∧
  (∃ next,
     dashboardResource.Update (stubClient zeroAlert zeroDashboard)
       (dashboardModel "planned" "[ ]" "[]") (dashboardModel "d-1" "[]" "[]") = Ok next ∧
     dashboardResource.ID next = types.Known "d-1").
Proof.
  destruct (update_preserves_server_managed_fields (stubClient zeroAlert zeroDashboard))
    as (Ha & Hd).
  split.
  - assert (∃ next,
      alertResource.Update (stubClient zeroAlert zeroDashboard)
        (alertModel "planned" (js "{'a':2}")) (alertModel "a-1" (js "{'a':1}")) = Ok next)
      as [next Hu] by (eexists; vm_compute; reflexivity).
    exists next. split; [exact Hu|].
    destruct (Ha _ _ _ Hu) as (H1 & _ & _ & _ & _ & _ & H2).
    split; [exact H1|exact H2].
  - assert (∃ next,
      dashboardResource.Update (stubClient zeroAlert zeroDashboard)
        (dashboardModel "planned" "[ ]" "[]") (dashboardModel "d-1" "[]" "[]") = Ok next)
      as [next Hu] by (eexists; vm_compute; reflexivity).
    exists next. split; [exact Hu|].
    destruct (Hd _ _ _ Hu) as (H1 & _). exact H1.
Defined.

(** C2, as stated: the alert's [Read] does not mask drift of the condition.
    With the previous condition {"a":1} and the observed condition {"a":2}
    the next state holds the observed one. *)
Lemma alert_read_takes_observed_condition :
  let state := alertModel "a-1" (js "{'a':1}") in
  let observed := Alert.withCondition zeroAlert {[ "a" := number 2 ]} in
  ∃ next,
    alertResource.Read (stubClient observed zeroDashboard) state = Ok next ∧
    alertResource.Condition next = types.StringValue (js "{'a':2}") ∧
    alertResource.Condition next ≠ alertResource.Condition state.
Proof.
  simpl. eexists. split; [vm_compute; reflexivity|]. split; [done|]. discriminate.
Qed.

Lemma ConditionToTerraform_spec (a : Alert.t) :
  Alert.ConditionToTerraform a =
  types.StringValue (structure.FlattenJsonToString (keptFields (Alert.Condition a))).
Proof. reflexivity. Qed.

(** C2, amended. The dashboard's [Read] keeps the previous value of the
    widgets, the layout, the panel map and the variables, and sets the
    scalar and computed attributes from the observed dashboard; a [Read]
    right after [Create] therefore leaves the four fields equal to the
    created values.  The alert's [Read] sets the condition to the observed
    condition with the default fields removed, and the scalar attributes
    from the observed alert. *)
Theorem read_drift_masking (r : client.Client) :
  (∀ state dashboard,
     client.GetDashboard r (types.ValueString (dashboardResource.ID state)) = Ok dashboard →
     ∃ next,
       dashboardResource.Read r state = Ok next ∧
       dashboardResource.Widgets next = dashboardResource.Widgets state ∧
       dashboardResource.Layout next = dashboardResource.Layout state ∧
       dashboardResource.PanelMap next = dashboardResource.PanelMap state ∧
       dashboardResource.Variables next = dashboardResource.Variables state ∧
       dashboardResource.ID next = types.StringValue (client.ID dashboard) ∧
       dashboardResource.CreatedAt next = types.StringValue (client.CreatedAt dashboard) ∧
       dashboardResource.CreatedBy next = types.StringValue (client.CreatedBy dashboard) ∧
       dashboardResource.UpdatedAt next = types.StringValue (client.UpdatedAt dashboard) ∧
       dashboardResource.UpdatedBy next = types.StringValue (client.UpdatedBy dashboard) ∧
       dashboardResource.Name next
         = types.StringValue (Dashboard.Name (client.Data dashboard)) ∧
       dashboardResource.Title next
         = types.StringValue (Dashboard.Title (client.Data dashboard)) ∧
       dashboardResource.Description next
         = types.StringValue (Dashboard.Description (client.Data dashboard)) ∧
       dashboardResource.Source next
         = types.StringValue (Dashboard.Source (client.Data dashboard)) ∧
       dashboardResource.Version next
         = types.StringValue (Dashboard.Version (client.Data dashboard)) ∧
       dashboardResource.CollapsableRowsMigrated next
         = types.BoolValue (Dashboard.CollapsableRowsMigrated (client.Data dashboard)) ∧
       dashboardResource.UploadedGrafana next
         = types.BoolValue (Dashboard.UploadedGrafana (client.Data dashboard))) ∧
  (∀ plan created next,
     dashboardResource.Create r plan = Ok created →
     dashboardResource.Read r created = Ok next →
     dashboardResource.Widgets next = dashboardResource.Widgets plan ∧
     dashboardResource.Layout next = dashboardResource.Layout plan ∧
     dashboardResource.PanelMap next = dashboardResource.PanelMap plan ∧
     dashboardResource.Variables next = dashboardResource.Variables plan) ∧
  (∀ state alert,
     client.GetAlert r (types.ValueString (alertResource.ID state)) = Ok alert →
     ∃ next,
       alertResource.Read r state = Ok next ∧
       alertResource.Condition next =
         types.StringValue
           (structure.FlattenJsonToString (keptFields (Alert.Condition alert))) ∧
       alertResource.Alert next = types.StringValue (Alert.Alert alert) ∧
       alertResource.AlertType next = types.StringValue (Alert.AlertType alert) ∧
       alertResource.BroadcastToAll next = types.BoolValue (Alert.BroadcastToAll alert) ∧
       alertResource.Disabled next = types.BoolValue (Alert.Disabled alert) ∧
       alertResource.EvalWindow next = types.StringValue (Alert.EvalWindow alert) ∧
       alertResource.Frequency next = types.StringValue (Alert.Frequency alert) ∧
       alertResource.RuleType next = types.StringValue (Alert.RuleType alert) ∧
       alertResource.Source next = types.StringValue (Alert.Source alert) ∧
       alertResource.State next = types.StringValue (Alert.State alert) ∧
       alertResource.Version next = types.StringValue (Alert.Version alert) ∧
       alertResource.CreateAt next = types.StringValue (Alert.CreateAt alert) ∧
       alertResource.CreateBy next = types.StringValue (Alert.CreateBy alert) ∧
       alertResource.UpdateAt next = types.StringValue (Alert.UpdateAt alert) ∧
       alertResource.UpdateBy next = types.StringValue (Alert.UpdateBy alert)).
Proof.
  split; [|split].
  - intros state dashboard Hg. unfold dashboardResource.Read. rewrite Hg. simpl.
    eexists. split; [reflexivity|]. simpl. repeat split.
  - intros plan created next. unfold dashboardResource.Create, dashboardResource.Read.
    destruct (dashboardResource.payload plan); simpl; [|done].
    destruct (client.CreateDashboard r _); simpl; [|done].
    intros [= <-]. simpl.
    destruct (client.GetDashboard r _); simpl; [|done].
    intros [= <-]. simpl. done.
  - intros state alert Hg. unfold alertResource.Read. rewrite Hg. simpl.
    eexists. split; [reflexivity|]. simpl. repeat split.
Qed.

Lemma read_drift_masking_witness :
  ∃ next,
    dashboardResource.Read
      (stubClient zeroAlert (Dashboard.withWidgets zeroDashboard (VSlice [])))
      (dashboardModel "d-1" "[ ]" "[ ]") = Ok next ∧
    dashboardResource.Widgets next = types.Known "[ ]" ∧
    dashboardResource.Layout next = types.Known "[ ]".
Proof.
  destruct (read_drift_masking
              (stubClient zeroAlert (Dashboard.withWidgets zeroDashboard (VSlice []))))
    as (H & _).
  destruct (H (dashboardModel "d-1" "[ ]" "[ ]")
              (remoteDashboard (Dashboard.withWidgets zeroDashboard (VSlice []))))
    as (next & Hr & Hw & Hl & _); [reflexivity|].
  exists next. split; [exact Hr|]. split; [exact Hw|exact Hl].
Defined.

(** ** The digest of the widgets *)

(** [SetWidgets] hashes the bytes of the submitted text as they are. *)
Lemma SetWidgets_spec (d : Dashboard.t) (widgetsStr : string) :
  widgetsStr ≠ EmptyString →
  Dashboard.SetWidgets d (types.StringValue widgetsStr) =
  Ok (Dashboard.withWidgets d
        (VString (EncodeToString (sha256.Sum256 (bytes_of widgetsStr))))).
Proof.
  intros Hne. unfold Dashboard.SetWidgets. simpl.
  destruct (String.eqb widgetsStr EmptyString) eqn:He; [|done].
  by apply String.eqb_eq in He.
Qed.

(** C6.  The digest on the code: the texts [[ ]] and [[]] differ in white
    space only, and {"a":1,"b":2} and {"b":2,"a":1} in key order only, yet
    each pair gets two different digests; the digest computed on read over
    the observed empty array is the digest of [[]], not the one stored for
    [[ ]]. *)
Theorem widgets_digest_is_over_the_raw_text :
  let digest text :=
    Dashboard.Widgets <$>
      (match Dashboard.SetWidgets zeroDashboard (types.StringValue text) with
       | Ok d => Some d
       | Err _ => None
       end) in
  digest "[ ]"
    = Some (VString "5984eac0c5c6d947241e29dd5671b81a1546cedf77e08d38438ac47029969afa") ∧
  digest "[]"
    = Some (VString "4f53cda18c2baa0c0354bb5f9a3ecbe5ed12ab4d8e11ba873c2f11161202b945") ∧
  digest (js "{'a':1,'b':2}") ≠ digest (js "{'b':2,'a':1}") ∧
  json.Unmarshal (bytes_of "[ ]") = json.Unmarshal (bytes_of "[]") ∧
  Dashboard.WidgetsToTerraform (Dashboard.withWidgets zeroDashboard (VSlice []))
    = types.StringValue "4f53cda18c2baa0c0354bb5f9a3ecbe5ed12ab4d8e11ba873c2f11161202b945".
Proof.
  simpl. repeat split; try (vm_compute; reflexivity).
  vm_compute. discriminate.
Qed.

(** ** The labels of an alert *)

(** C10.  The round trip on the code: a label value that holds a double
    quote comes back with a backslash before each quote, because
    [SetLabels] takes the value from the [%q] rendering of [String()] and
    only strips the outer quotes. *)
Theorem labels_round_trip_breaks_on_quotes :
  let labels : gmap string types.String :=
    {[ "owner" := types.StringValue (js "say 'hi' to ops") ]} in
  let a := Alert.SetLabels zeroAlert (types.MapValue labels) (types.StringValue "critical") in
  Alert.Labels a =
    {[ "owner" := js "say \'hi\' to ops"; "managedBy" := "terraform";
       "severity" := "critical" ]} ∧
  Alert.LabelsToTerraform a =
    types.MapValue {[ "owner" := types.StringValue (js "say \'hi\' to ops") ]} ∧
  Alert.LabelsToTerraform a ≠ types.MapValue labels.
Proof.
  simpl. split; [|split].
  - vm_compute. reflexivity.
  - vm_compute. reflexivity.
  - intros H.
    apply (f_equal (λ m, types.MapElements m !! "owner")) in H.
    vm_compute in H. discriminate.
Qed.

(* ===================================================================== *)
(** * Part III: further properties of the code                            *)
(* ===================================================================== *)

(** ** Canonical trees *)

(** A tree is canonical when no map in it, at any depth, holds a field
    that the default-field policy matches. *)
Inductive canonical : value → Prop :=
| canonical_nil : canonical VNil
| canonical_bool b : canonical (VBool b)
| canonical_int n : canonical (VInt n)
| canonical_float f : canonical (VFloat f)
| canonical_string s : canonical (VString s)
| canonical_slice l : Forall canonical l → canonical (VSlice l)
| canonical_map m :
    map_Forall (λ k x, isDefaultField k x = false ∧ canonical x) m →
    canonical (VMap m).

Lemma fmap_fixed_point {A} (f : A → A) (l : list A) :
  f <$> l = l ↔ Forall (λ x, f x = x) l.
Proof.
  induction l as [|x l IH]; simpl.
  - split; [constructor|done].
  - split.
    + intros [= Hx Hl]. constructor; [done|by apply IH].
    + intros H. inversion H; subst. f_equal; [done|by apply IH].
Qed.

Lemma keptFields_fixed_point (m : gmap string value) :
  keptFields m = m ↔
  map_Forall (λ k x, isDefaultField k x = false ∧ removeDefaultFields x = x) m.
Proof.
  split.
  - intros H k x Hk. pose proof (keptFields_lookup m k) as Hl.
    rewrite H, Hk in Hl. destruct (isDefaultField k x); [done|].
    by injection Hl as <-.
  - intros H. apply map_eq. intros k. rewrite keptFields_lookup.
    destruct (m !! k) as [x|] eqn:Hk; [|done].
    destruct (H k x Hk) as [-> ->]. done.
Qed.

Lemma canonical_fixed_point (v : value) :
  canonical v ↔ removeDefaultFields v = v.
Proof.
  induction v as [| | | | |l IH|m IH] using value_induction;
    try (split; [done|constructor]).
  - split.
    + intros H. inversion H as [| | | | |? Hl|]; subst. simpl. f_equal.
      apply fmap_fixed_point. rewrite Forall_forall in *.
      intros x Hx. by apply IH, Hl.
    + intros [= H]. constructor. apply fmap_fixed_point in H.
      rewrite Forall_forall in *. intros x Hx. by apply IH, H.
  - rewrite removeDefaultFields_map. split.
    + intros H. inversion H as [| | | | | |? Hm]; subst. f_equal.
      apply keptFields_fixed_point. intros k x Hk.
      destruct (Hm k x Hk) as [? ?]. split; [done|]. by apply (IH k x Hk).
    + intros [= H]. constructor. apply keptFields_fixed_point in H.
      intros k x Hk. destruct (H k x Hk) as [? ?].
      split; [done|]. by apply (IH k x Hk).
Qed.

(** X1. The result of [removeDefaultFields] is canonical: no map of it, at
    any depth, holds a field that [isDefaultField] matches. *)
Theorem removeDefaultFields_is_canonical (v : value) :
  canonical (removeDefaultFields v).
Proof. apply canonical_fixed_point, removeDefaultFields_idempotent. Qed.

(** X2. [removeDefaultFields] leaves a tree unchanged exactly when the
    tree is canonical; canonicalizing twice is canonicalizing once. *)
Theorem removeDefaultFields_fixed_points (v : value) :
  (canonical v ↔ removeDefaultFields v = v) ∧
  removeDefaultFields (removeDefaultFields v) = removeDefaultFields v.
Proof. split; [apply canonical_fixed_point|apply removeDefaultFields_idempotent]. Qed.

(** X3. A field that the policy matches is invisible to the canonicalizer:
    a map with the field canonicalizes like the map without it. *)
Theorem default_field_is_invisible (m : gmap string value) (k : string) (x : value) :
  isDefaultField k x = true →
  removeDefaultFields (VMap (<[k := x]> m)) = removeDefaultFields (VMap (delete k m)).
Proof.
  intros Hd. rewrite !removeDefaultFields_map. f_equal. apply map_eq. intros j.
  rewrite !keptFields_lookup. destruct (decide (k = j)) as [<-|Hne].
  - by rewrite lookup_insert_eq, lookup_delete_eq, Hd.
  - by rewrite lookup_insert_ne, lookup_delete_ne.
Qed.

Lemma default_field_is_invisible_witness :
  isDefaultField "groupBy" (VSlice []) = true ∧
  removeDefaultFields (VMap (<["groupBy" := VSlice []]> {[ "x" := number 1 ]}))
  = removeDefaultFields (VMap (delete "groupBy" {[ "x" := number 1 ]})).
Proof.
  split; [reflexivity|]. apply default_field_is_invisible. reflexivity.
Defined.

(** ** The plan modifier *)

Lemma Unmarshal_empty : json.Unmarshal (bytes_of EmptyString) = None.
Proof. reflexivity. Qed.

Lemma comparator_empty_l (s : string) : areJSONsSemanticallyEqual EmptyString s = false.
Proof. unfold areJSONsSemanticallyEqual. by rewrite Unmarshal_empty. Qed.

Lemma comparator_parses (a b : string) :
  areJSONsSemanticallyEqual a b = true →
  is_Some (json.Unmarshal (bytes_of a)) ∧ is_Some (json.Unmarshal (bytes_of b)).
Proof. intros (x & y & -> & -> & _)%comparator_spec. eauto. Qed.

Lemma comparator_refl (a : string) :
  is_Some (json.Unmarshal (bytes_of a)) → areJSONsSemanticallyEqual a a = true.
Proof. intros [v Hv]. apply comparator_spec. eauto. Qed.

(** X5. [PlanModifyString] returns the planned value or the state value,
    and the state value only when both are known and the comparator finds
    the planned text equivalent to the state text. *)
Theorem PlanModifyString_result (StateValue PlanValue : types.String) :
  PlanModifyString StateValue PlanValue = PlanValue ∨
  (PlanModifyString StateValue PlanValue = StateValue ∧
   ∃ state plan,
     StateValue = types.Known state ∧ PlanValue = types.Known plan ∧
     areJSONsSemanticallyEqual plan state = true).
Proof.
  unfold PlanModifyString.
  destruct StateValue as [| |state], PlanValue as [| |plan]; simpl; auto.
  destruct (areJSONsSemanticallyEqual plan state) eqn:He; eauto 10.
Qed.

(** X6. Applying the plan modifier to its own result changes nothing. *)
Theorem PlanModifyString_idempotent (StateValue PlanValue : types.String) :
  PlanModifyString StateValue (PlanModifyString StateValue PlanValue)
  = PlanModifyString StateValue PlanValue.
Proof.
  unfold PlanModifyString.
  destruct StateValue as [| |state], PlanValue as [| |plan]; simpl; try done.
  destruct (areJSONsSemanticallyEqual plan state) eqn:He; simpl; [|by rewrite He].
  rewrite comparator_refl; [done|]. by apply comparator_parses in He as [_ ?].
Qed.

(** X7. The condition that the alert's [Update] stores is the one the plan
    modifier computes from the state and the plan: the two decisions never
    disagree. *)
Theorem update_condition_agrees_with_plan_modifier (r : client.Client)
    (plan state next : alertResource.alertResourceModel) :
  alertResource.Update r plan state = Ok next →
  alertResource.Condition next =
  PlanModifyString (alertResource.Condition state) (alertResource.Condition plan).
Proof.
  intros (-> & _)%alert_Update_inv. unfold PlanModifyString.
  destruct (alertResource.Condition state) as [| |s]; simpl; try done.
  destruct (alertResource.Condition plan) as [| |p]; simpl;
    by rewrite ?comparator_empty_l.
Qed.

Lemma update_condition_agrees_with_plan_modifier_witness :
  ∃ next,
    alertResource.Update (stubClient zeroAlert zeroDashboard)
      (alertModel "planned" (js "{ 'a' : 1 }")) (alertModel "a-1" (js "{'a':1}")) = Ok next ∧
    alertResource.Condition next =
      PlanModifyString (types.Known (js "{'a':1}")) (types.Known (js "{ 'a' : 1 }")).
Proof.
  assert (∃ next,
    alertResource.Update (stubClient zeroAlert zeroDashboard)
      (alertModel "planned" (js "{ 'a' : 1 }")) (alertModel "a-1" (js "{'a':1}")) = Ok next)
    as [next Hu] by (eexists; vm_compute; reflexivity).
  exists next. split; [exact Hu|].
  exact (update_condition_agrees_with_plan_modifier _ _ _ _ Hu).
Defined.

(** ** [SetCondition] and [normalizeCondition] *)

(** The default that [normalizeCondition] adds to the query [queryName]
    under the key [k], if any. *)
Definition queryDefault (queryName k : string) : option value :=
  if String.eqb k "IsAnomaly" then Some (VBool false)
  else if String.eqb k "QueriesUsedInFormula" then Some VNil
  else if String.eqb k "groupBy" then Some (VSlice [])
  else if String.eqb k "hidden" then
    if String.eqb queryName "A" then Some (VBool true) else None
  else if String.eqb k "reduceTo" || String.eqb k "spaceAggregation"
          || String.eqb k "timeAggregation" then
    if String.eqb queryName "F1" then Some (VString EmptyString) else None
  else None.



Lemma setIfNil_lookup_ne (k j : string) (x : value) (m : gmap string value) :
  k ≠ j → Alert.setIfNil k x m !! j = m !! j.
Proof. intros Hne. rewrite setIfNil_lookup. by rewrite decide_False. Qed.

Lemma setIfNil_lookup_eq (k : string) (x : value) (m : gmap string value) :
  Alert.setIfNil k x m !! k = if Alert.isNil m k then Some x else m !! k.
Proof. rewrite setIfNil_lookup. by rewrite decide_True. Qed.

Lemma setIfNil_isNil_ne (k j : string) (x : value) (m : gmap string value) :
  k ≠ j → Alert.isNil (Alert.setIfNil k x m) j = Alert.isNil m j.
Proof. intros Hne. unfold Alert.isNil. by rewrite setIfNil_lookup_ne. Qed.

Ltac string_cases j :=
  repeat match goal with
  | |- context [String.eqb j ?s] =>
      destruct (String.eqb_spec j s); [subst j|]; simpl
  end.

Lemma normalizeQuery_lookup (q : string) (m : gmap string value) (j : string) :
  Alert.normalizeQuery q m !! j =
  match queryDefault q j with
  | Some x => if Alert.isNil m j then Some x else m !! j
  | None => m !! j
  end.
Proof.
  unfold Alert.normalizeQuery, queryDefault.
  destruct (String.eqb q "A"), (String.eqb q "F1"); string_cases j;
    repeat first
      [ rewrite setIfNil_lookup_eq
      | rewrite setIfNil_lookup_ne by congruence
      | rewrite setIfNil_isNil_ne by congruence ];
    reflexivity.
Qed.

Lemma setIfNil_not_nil (k : string) (x : value) (m : gmap string value) :
  x ≠ VNil → Alert.isNil (Alert.setIfNil k x m) k = false.
Proof.
  intros Hx. unfold Alert.isNil at 1. rewrite setIfNil_lookup_eq.
  destruct (Alert.isNil m k) eqn:E; [by destruct x|].
  unfold Alert.isNil in E. by destruct (m !! k) as [[]|].
Qed.


(** X8. What [SetCondition] does with each kind of text: a text that is
    not JSON (the empty text of a null or unknown attribute included) is a
    syntax error, JSON with a number out of the [float64] range is a type
    error, the JSON text [null] runs into the assignment to a nil map, any
    JSON value that is not an object is a type error, and an object is
    stored as [normalizeCondition] returns it, with [absentFor] and
    [alertOnAbsent] present, every other field of the payload left as it
    was. *)
Theorem SetCondition_outcome (a : Alert.t) (tfCondition : types.String) :
  match json.Unmarshal (bytes_of (types.ValueString tfCondition)) with
  | None =>
      Alert.SetCondition a tfCondition =
      Err (if json.Valid (bytes_of (types.ValueString tfCondition))
           then UnmarshalTypeError else SyntaxError)
  | Some VNil => Alert.SetCondition a tfCondition = Err NilMapPanic
  | Some (VMap m) =>
      ∃ c, Alert.normalizeCondition (Some m) = Ok c ∧
           Alert.SetCondition a tfCondition = Ok (Alert.withCondition a c) ∧
           Alert.isNil c "absentFor" = false ∧
           Alert.isNil c "alertOnAbsent" = false
  | Some _ => Alert.SetCondition a tfCondition = Err UnmarshalTypeError
  end ∧
  (types.IsNull tfCondition || types.IsUnknown tfCondition = true →
   Alert.SetCondition a tfCondition = Err SyntaxError).
Proof.
  unfold Alert.SetCondition, structure.ExpandJsonFromString. split.
  - destruct (json.Unmarshal _) as [[]|]; try reflexivity.
    simpl. eexists. split; [reflexivity|]. split; [reflexivity|]. split.
    + rewrite setIfNil_isNil_ne by done. by apply setIfNil_not_nil.
    + by apply setIfNil_not_nil.
  - destruct tfCondition; simpl; try discriminate; reflexivity.
Qed.

Lemma SetCondition_outcome_witness :
  Alert.SetCondition zeroAlert types.Null = Err SyntaxError.
Proof.
  destruct (SetCondition_outcome zeroAlert types.Null) as [_ H].
  apply H. reflexivity.
Defined.







Lemma normalizeQuery_idempotent (q : string) (m : gmap string value) :
  Alert.normalizeQuery q (Alert.normalizeQuery q m) = Alert.normalizeQuery q m.
Proof.
  apply map_eq. intros j. rewrite (normalizeQuery_lookup q (Alert.normalizeQuery q m)).
  destruct (queryDefault q j) as [x|] eqn:Hq; [|done].
  unfold Alert.isNil at 1. rewrite normalizeQuery_lookup, Hq.
  destruct (Alert.isNil m j) eqn:E.
  - by destruct x.
  - unfold Alert.isNil in E. by destruct (m !! j) as [[]|].
Qed.

(** The change [normalizeQueries] makes to the value under
    [compositeQuery]. *)
Definition normalizeComposite (v : value) : value :=
  match v with
  | VMap compositeQuery =>
      match compositeQuery !! "builderQueries" with
      | Some (VMap builderQueries) =>
          VMap (<["builderQueries" :=
                    VMap (map_imap (λ queryName query,
                            Some (match query with
                                  | VMap queryMap =>
                                      VMap (Alert.normalizeQuery queryName queryMap)
                                  | _ => query
                                  end)) builderQueries)]> compositeQuery)
      | _ => v
      end
  | _ => v
  end.

Lemma normalizeQueries_lookup (c : gmap string value) (j : string) :
  Alert.normalizeQueries c !! j =
  if decide (j = "compositeQuery") then normalizeComposite <$> c !! j else c !! j.
Proof.
  unfold Alert.normalizeQueries, normalizeComposite. case_decide as Hj.
  - subst j. destruct (c !! "compositeQuery") as [[| | | | | |cq]|] eqn:Hcq;
      simpl; rewrite ?Hcq; try done.
    destruct (cq !! "builderQueries") as [[| | | | | |bq]|] eqn:Hbq;
      simpl; rewrite ?Hcq; try done.
    by rewrite lookup_insert_eq.
  - repeat case_match; try done. by rewrite lookup_insert_ne.
Qed.

Lemma normalizeComposite_idempotent (v : value) :
  normalizeComposite (normalizeComposite v) = normalizeComposite v.
Proof.
  destruct v as [| | | | | |cq]; try done. simpl.
  destruct (cq !! "builderQueries") as [[| | | | | |bq]|] eqn:Hbq;
    simpl; rewrite ?Hbq; try done.
  rewrite lookup_insert_eq, insert_insert_eq. do 3 f_equal.
  apply map_eq. intros j. rewrite !map_lookup_imap.
  destruct (bq !! j) as [[]|]; simpl; try done.
  by rewrite normalizeQuery_idempotent.
Qed.

Lemma normalizeCondition_lookup (c : gmap string value) (j : string) :
  Alert.setIfNil "alertOnAbsent" (VBool false)
    (Alert.setIfNil "absentFor" (VInt 0) (Alert.normalizeQueries c)) !! j =
  if decide (j = "alertOnAbsent")
  then (if Alert.isNil c j then Some (VBool false) else c !! j)
  else if decide (j = "absentFor")
  then (if Alert.isNil c j then Some (VInt 0) else c !! j)
  else if decide (j = "compositeQuery") then normalizeComposite <$> c !! j
  else c !! j.
Proof.
  repeat case_decide; subst.
  - rewrite setIfNil_lookup_eq, setIfNil_isNil_ne, setIfNil_lookup_ne by done.
    unfold Alert.isNil. by rewrite normalizeQueries_lookup.
  - rewrite setIfNil_lookup_ne, setIfNil_lookup_eq by done.
    unfold Alert.isNil. by rewrite normalizeQueries_lookup.
  - rewrite !setIfNil_lookup_ne by done. by rewrite normalizeQueries_lookup.
  - rewrite !setIfNil_lookup_ne by done.
    rewrite normalizeQueries_lookup. by rewrite decide_False.
Qed.

(** [adds v v']: the value [v'] is [v] with fields added, at any depth.
    Every key of a map is still there, and what it holds is what it held,
    unless that was [nil], or a map to which fields were added. *)
Inductive adds : value → value → Prop :=
| adds_refl v : adds v v
| adds_map m m' :
    (∀ k x, m !! k = Some x → ∃ x', m' !! k = Some x' ∧ (x = VNil ∨ adds x x')) →
    adds (VMap m) (VMap m').

Lemma adds_normalizeQuery (q : string) (m : gmap string value) :
  adds (VMap m) (VMap (Alert.normalizeQuery q m)).
Proof.
  apply adds_map. intros k x Hk. rewrite normalizeQuery_lookup.
  destruct (queryDefault q k) as [y|]; [|exists x; split; [done|right; constructor]].
  unfold Alert.isNil. rewrite Hk.
  destruct x; eexists; (split; [reflexivity|]); (by left) || (right; constructor).
Qed.

Lemma adds_normalizeComposite (v : value) : adds v (normalizeComposite v).
Proof.
  destruct v as [| | | | | |cq]; try apply adds_refl. simpl.
  destruct (cq !! "builderQueries") as [[| | | | | |bq]|] eqn:Hbq;
    try apply adds_refl.
  apply adds_map. intros k x Hk.
  destruct (decide (k = "builderQueries")) as [->|Hne].
  - rewrite lookup_insert_eq. rewrite Hbq in Hk. injection Hk as <-.
    eexists. split; [reflexivity|]. right.
    apply adds_map. intros j y Hj. rewrite map_lookup_imap, Hj. simpl.
    eexists. split; [reflexivity|]. right.
    destruct y; try apply adds_refl. apply adds_normalizeQuery.
  - rewrite lookup_insert_ne by done. exists x. split; [done|]. right. constructor.
Qed.

(** X9. [normalizeCondition] only adds, at every depth: it succeeds on
    every non-nil map, and in the result every key of the condition, of the
    object under [compositeQuery], of the object under [builderQueries] and
    of every builder query is still there, holding what it held unless that
    was [nil].  A missing root key other than [absentFor] and
    [alertOnAbsent] stays missing. *)
Theorem normalizeCondition_keeps_fields (c : gmap string value) :
  ∃ c', Alert.normalizeCondition (Some c) = Ok c' ∧
    adds (VMap c) (VMap c') ∧
    (∀ k x, k ≠ "compositeQuery" → c !! k = Some x → x ≠ VNil → c' !! k = Some x) ∧
    (∀ k, c !! k = None → k ∉ ["absentFor"; "alertOnAbsent"] → c' !! k = None) ∧
    (∀ q m k x,
       builderQuery c q = Some m → m !! k = Some x → x ≠ VNil →
       ∃ m', builderQuery c' q = Some m' ∧ m' !! k = Some x).
Proof.
  eexists. split; [reflexivity|]. split; [|split; [|split]].
  - apply adds_map. intros k x Hk. rewrite normalizeCondition_lookup.
    unfold Alert.isNil. rewrite Hk. repeat case_decide; subst.
    + destruct x; eexists; (split; [reflexivity|]); (by left) || (right; constructor).
    + destruct x; eexists; (split; [reflexivity|]); (by left) || (right; constructor).
    + simpl. eexists. split; [reflexivity|]. right. apply adds_normalizeComposite.
    + exists x. split; [done|]. right. constructor.
  - intros k x Hk Hx Hn. rewrite normalizeCondition_lookup.
    unfold Alert.isNil. rewrite Hx. repeat case_decide; subst; by destruct x.
  - intros k Hk Hn. set_unfold in Hn. rewrite normalizeCondition_lookup.
    repeat case_decide; subst; try naive_solver. by rewrite Hk.
  - intros q m k x Hq Hk Hx. exists (Alert.normalizeQuery q m).
    split; [by eapply builderQuery_normalizeCondition|].
    rewrite normalizeQuery_lookup.
    destruct (queryDefault q k); [|done].
    unfold Alert.isNil. rewrite Hk. by destruct x.
Qed.

Lemma normalizeCondition_keeps_fields_witness :
  ∃ c' m',
    Alert.normalizeCondition
      (Some {[ "compositeQuery" :=
                 VMap {[ "builderQueries" :=
                           VMap {[ "A" := VMap {[ "hidden" := VBool false ]} ]} ]} ]})
    = Ok c' ∧
    builderQuery c' "A" = Some m' ∧
    m' !! "hidden" = Some (VBool false).
Proof.
  set (c := {[ "compositeQuery" :=
                 VMap {[ "builderQueries" :=
                           VMap {[ "A" := VMap {[ "hidden" := VBool false ]} ]} ]} ]}
            : gmap string value).
  destruct (normalizeCondition_keeps_fields c) as (c' & Hn & _ & _ & _ & Hq).
  destruct (Hq "A" {[ "hidden" := VBool false ]} "hidden" (VBool false))
    as (m' & Hm & Hk); [vm_compute; reflexivity|reflexivity|discriminate|].
  by exists c', m'.
Defined.

(** X11. [normalizeCondition] is idempotent: a condition that went through
    it is left unchanged by a second pass. *)
Theorem normalizeCondition_idempotent (c c' : gmap string value) :
  Alert.normalizeCondition (Some c) = Ok c' →
  Alert.normalizeCondition (Some c') = Ok c'.
Proof.
  intros [= <-]. unfold Alert.normalizeCondition. f_equal.
  apply map_eq. intros j. rewrite (normalizeCondition_lookup (Alert.setIfNil _ _ _)).
  repeat case_decide; subst.
  - by rewrite setIfNil_not_nil.
  - rewrite setIfNil_isNil_ne by done. by rewrite setIfNil_not_nil.
  - rewrite normalizeCondition_lookup. simpl.
    destruct (c !! "compositeQuery"); simpl; [|done].
    by rewrite normalizeComposite_idempotent.
  - done.
Qed.

Lemma normalizeCondition_idempotent_witness :
  ∃ c',
    Alert.normalizeCondition
      (Some {[ "compositeQuery" :=
                 VMap {[ "builderQueries" := VMap {[ "A" := VMap ∅ ]} ]} ]}) = Ok c' ∧
    Alert.normalizeCondition (Some c') = Ok c'.
Proof.
  eexists. split; [reflexivity|].
  apply (normalizeCondition_idempotent
           {[ "compositeQuery" :=
                VMap {[ "builderQueries" := VMap {[ "A" := VMap ∅ ]} ]} ]}).
  reflexivity.
Defined.

(** ** Labels, preferred channels and tags *)

(** A plain byte is a printable ASCII byte other than the double quote and
    the backslash: [%q] writes it as it is. *)
Definition plainByte (c : ascii) : bool :=
  let n := N_of_ascii c in
  ((32 <=? n) && (n <? 127) && negb (n =? 34) && negb (n =? 92))%N.

Definition plain (s : string) : Prop :=
  Forall (λ c, plainByte c = true) (bytes_of s).

Lemma quoteByte_plain (c : ascii) : plainByte c = true → Go.quoteByte c = [c].
Proof.
  destruct c as [[] [] [] [] [] [] [] []]; (discriminate || reflexivity).
Qed.

Lemma plainByte_not_quote (c : ascii) : plainByte c = true → Ascii.eqb c json.quote = false.
Proof.
  destruct c as [[] [] [] [] [] [] [] []]; (discriminate || reflexivity).
Qed.

Lemma flat_map_quoteByte_plain (b : bytes) :
  Forall (λ c, plainByte c = true) b → flat_map Go.quoteByte b = b.
Proof.
  induction 1 as [|c b Hc _ IH]; simpl; [done|].
  by rewrite quoteByte_plain, IH.
Qed.

Lemma TrimLeft_plain (b : bytes) :
  Forall (λ c, plainByte c = true) b → Go.TrimLeft json.quote b = b.
Proof.
  destruct 1 as [|c b Hc _]; simpl; [done|]. by rewrite plainByte_not_quote.
Qed.

Lemma Ascii_eqb_refl (c : ascii) : Ascii.eqb c c = true.
Proof. apply Ascii.eqb_refl. Qed.

(** Trimming the quotes off the [%q] rendering of a plain string gives the
    string back. *)
Lemma Trim_Quote_plain (s : string) :
  plain s → Go.Trim (Go.Quote s) json.quote = s.
Proof.
  unfold plain, Go.Trim, Go.Quote. intros Hs.
  rewrite bytes_of_string_of, flat_map_quoteByte_plain by done.
  change (ascii_of_N 34) with json.quote. simpl.
  rewrite <- (string_of_bytes_of s) at 2. f_equal.
  destruct (bytes_of s) as [|c b] eqn:Hb.
  - reflexivity.
  - assert (Go.TrimLeft json.quote ((c :: b) ++ [json.quote]) = (c :: b) ++ [json.quote])
      as ->.
    { simpl. rewrite plainByte_not_quote; [done|]. by inversion Hs. }
    unfold Go.TrimRight. rewrite rev_app_distr. simpl.
    change (rev b ++ [c]) with (rev (c :: b)).
    rewrite TrimLeft_plain; [apply rev_involutive|].
    by apply Forall_rev.
Qed.

Lemma map_fold_insert_fmap {A B} (f : A → B) (m : gmap string A) :
  map_fold (λ key value result, <[key := f value]> result) (∅ : gmap string B) m
  = f <$> m.
Proof.
  apply (map_fold_weak_ind (λ r m, r = f <$> m)).
  - by rewrite fmap_empty.
  - intros i x m' r _ ->. by rewrite fmap_insert.
Qed.

Lemma map_fold_skip_lookup {A B} (skip : string → bool) (f : A → B)
    (m : gmap string A) (j : string) :
  map_fold (λ key value result,
              if skip key then result else <[key := f value]> result)
           (∅ : gmap string B) m !! j
  = if skip j then None else f <$> m !! j.
Proof.
  revert j.
  apply (map_fold_weak_ind (λ r m, ∀ j, r !! j = if skip j then None else f <$> m !! j)).
  - intros j. rewrite !lookup_empty. by destruct (skip j).
  - intros i x m' r Hi IH j. destruct (decide (i = j)) as [->|Hne].
    + rewrite lookup_insert_eq. destruct (skip j) eqn:Hs.
      * by rewrite IH, Hs.
      * by rewrite lookup_insert_eq.
    + rewrite (lookup_insert_ne m') by done.
      destruct (skip i); [by rewrite IH|].
      by rewrite lookup_insert_ne, IH.
Qed.

Definition reservedLabel (k : string) : bool :=
  String.eqb k "severity" || String.eqb k "managedBy".

Lemma LabelsToTerraform_elements (a : Alert.t) (k : string) :
  types.MapElements (Alert.LabelsToTerraform a) !! k =
  if reservedLabel k then None else types.StringValue <$> Alert.Labels a !! k.
Proof.
  unfold Alert.LabelsToTerraform. simpl.
  exact (map_fold_skip_lookup reservedLabel types.StringValue (Alert.Labels a) k).
Qed.

Lemma SetLabels_labels (a : Alert.t) (tfLabels : types.Map) (tfSeverity : types.String)
    (k : string) :
  Alert.Labels (Alert.SetLabels a tfLabels tfSeverity) !! k =
  if String.eqb k "severity" && negb (String.eqb (types.ValueString tfSeverity) EmptyString)
  then Some (types.ValueString tfSeverity)
  else if String.eqb k "managedBy" then Some "terraform"
  else (λ v, Go.Trim (types.ToString v) json.quote) <$> types.MapElements tfLabels !! k.
Proof.
  unfold Alert.SetLabels. simpl. rewrite map_fold_insert_fmap.
  change (Go.TrimSpace (default EmptyString (Go.Split AlertTerraformLabel ":" !! 0%nat)))
    with "managedBy".
  change (Go.TrimSpace (default EmptyString (Go.Split AlertTerraformLabel ":" !! 1%nat)))
    with "terraform".
  change attr.Severity with "severity".
  destruct (String.eqb (types.ValueString tfSeverity) EmptyString); simpl.
  - rewrite andb_false_r. destruct (String.eqb_spec k "managedBy") as [->|Hk].
    + by rewrite lookup_insert_eq.
    + by rewrite lookup_insert_ne, lookup_fmap.
  - rewrite andb_true_r. destruct (String.eqb_spec k "severity") as [->|Hs].
    + by rewrite lookup_insert_eq.
    + rewrite lookup_insert_ne by done.
      destruct (String.eqb_spec k "managedBy") as [->|Hk].
      * by rewrite lookup_insert_eq.
      * by rewrite lookup_insert_ne, lookup_fmap.
Qed.

(** X12. [LabelsToTerraform] never surfaces the labels [severity] and
    [managedBy]; every other label comes out, with its value unchanged. *)
Theorem LabelsToTerraform_hides_reserved_labels (a : Alert.t) (k : string) :
  ∃ elements,
    Alert.LabelsToTerraform a = types.Known elements ∧
    elements !! "severity" = None ∧
    elements !! "managedBy" = None ∧
    (k ≠ "severity" → k ≠ "managedBy" →
     elements !! k = types.StringValue <$> Alert.Labels a !! k).
Proof.
  eexists. split; [reflexivity|].
  pose proof (LabelsToTerraform_elements a) as H. simpl in H.
  split; [apply (H "severity")|]. split; [apply (H "managedBy")|].
  intros Hs Hm. rewrite H. unfold reservedLabel.
  apply String.eqb_neq in Hs, Hm. by rewrite Hs, Hm.
Qed.

(** X13. The labels that [SetLabels] sends: [managedBy] is always
    [terraform], [severity] is the severity attribute whenever that is not
    empty (a user label of either name is overwritten), and every other
    label is the user's, read through [String()] and trimmed. *)
Theorem SetLabels_sets_reserved_labels (a : Alert.t) (tfLabels : types.Map)
    (tfSeverity : types.String) :
  let labels := Alert.Labels (Alert.SetLabels a tfLabels tfSeverity) in
  labels !! "managedBy" = Some "terraform" ∧
  (types.ValueString tfSeverity ≠ EmptyString →
   labels !! "severity" = Some (types.ValueString tfSeverity)) ∧
  (types.ValueString tfSeverity = EmptyString →
   labels !! "severity" =
   (λ v, Go.Trim (types.ToString v) json.quote)
     <$> types.MapElements tfLabels !! "severity") ∧
  (∀ k, k ≠ "severity" → k ≠ "managedBy" →
        labels !! k =
        (λ v, Go.Trim (types.ToString v) json.quote) <$> types.MapElements tfLabels !! k).
Proof.
  cbv zeta. split; [|split; [|split]].
  - rewrite SetLabels_labels. simpl. reflexivity.
  - intros Hs. rewrite SetLabels_labels. simpl.
    apply String.eqb_neq in Hs. by rewrite Hs.
  - intros Hs. rewrite SetLabels_labels. simpl. by rewrite Hs.
  - intros k Hs Hm. rewrite SetLabels_labels.
    apply String.eqb_neq in Hs, Hm. by rewrite Hs, Hm.
Qed.

Lemma SetLabels_sets_reserved_labels_witness :
  Alert.Labels (Alert.SetLabels zeroAlert
                  (types.MapValue {[ "managedBy" := types.StringValue "me" ]})
                  (types.StringValue "info")) !! "severity" = Some "info".
Proof.
  destruct (SetLabels_sets_reserved_labels zeroAlert
              (types.MapValue {[ "managedBy" := types.StringValue "me" ]})
              (types.StringValue "info")) as (_ & H & _).
  apply H. discriminate.
Defined.

(** [SetLabels] followed by [LabelsToTerraform] on plain label values. *)
Lemma LabelsToTerraform_SetLabels (a : Alert.t)
    (labels : gmap string types.String) (tfSeverity : types.String) :
  labels !! "severity" = None →
  labels !! "managedBy" = None →
  map_Forall (λ _ v, ∃ s, v = types.Known s ∧ plain s) labels →
  Alert.LabelsToTerraform (Alert.SetLabels a (types.MapValue labels) tfSeverity)
  = types.MapValue labels.
Proof.
  intros Hs Hm Hp. unfold types.MapValue.
  assert (∀ k, types.MapElements
                 (Alert.LabelsToTerraform
                    (Alert.SetLabels a (types.Known labels) tfSeverity)) !! k
               = labels !! k) as H.
  { intros k. rewrite LabelsToTerraform_elements. unfold reservedLabel.
    destruct (String.eqb_spec k "severity") as [->|Hks]; [done|].
    destruct (String.eqb_spec k "managedBy") as [->|Hkm]; [done|]. cbv beta iota.
    rewrite SetLabels_labels. apply String.eqb_neq in Hks, Hkm.
    rewrite Hks, Hkm. simpl.
    destruct (labels !! k) as [v|] eqn:Hk; [|done]. simpl.
    destruct (Hp k v Hk) as (s & -> & Hsp). simpl.
    by rewrite Trim_Quote_plain. }
  unfold Alert.LabelsToTerraform, types.MapValue in *. f_equal.
  apply map_eq. exact H.
Qed.

(** X14. The label round trip where it holds: when no label is named
    [severity] or [managedBy] and every value is a known plain string,
    [SetLabels] followed by [LabelsToTerraform] gives the user's map back,
    whatever the severity. *)
Theorem labels_round_trip_on_plain_values (a : Alert.t)
    (labels : gmap string types.String) (tfSeverity : types.String) :
  labels !! "severity" = None →
  labels !! "managedBy" = None →
  map_Forall (λ _ v, ∃ s, v = types.Known s ∧ plain s) labels →
  Alert.LabelsToTerraform (Alert.SetLabels a (types.MapValue labels) tfSeverity)
  = types.MapValue labels.
Proof. apply LabelsToTerraform_SetLabels. Qed.

Lemma labels_round_trip_on_plain_values_witness :
  Alert.LabelsToTerraform
    (Alert.SetLabels zeroAlert (types.MapValue {[ "team" := types.StringValue "core ops" ]})
       (types.StringValue "critical"))
  = types.MapValue {[ "team" := types.StringValue "core ops" ]}.
Proof.
  apply labels_round_trip_on_plain_values; try reflexivity.
  apply map_Forall_singleton. eexists. split; [reflexivity|].
  unfold plain. simpl. repeat constructor.
Defined.

(** X15. Preferred channels and dashboard tags make the same round trip:
    a list of known plain strings comes back unchanged from
    [SetPreferredChannels] and [PreferredChannelsToTerraform], and from
    [SetTags] and [TagsToTerraform]. *)
Theorem string_lists_round_trip_on_plain_values (a : Alert.t) (d : Dashboard.t)
    (l : list string) :
  Forall plain l →
  Alert.PreferredChannelsToTerraform
    (Alert.SetPreferredChannels a (types.ListValue (types.StringValue <$> l)))
  = types.ListValue (types.StringValue <$> l) ∧
  Dashboard.TagsToTerraform
    (Dashboard.SetTags d (types.ListValue (types.StringValue <$> l)))
  = types.ListValue (types.StringValue <$> l).
Proof.
  intros Hl.
  assert ((λ value, Go.Trim (types.ToString value) json.quote)
            <$> (types.StringValue <$> l) = l) as H.
  { rewrite <- list_fmap_compose. rewrite <- (list_fmap_id l) at 2.
    apply Forall_fmap_ext. eapply Forall_impl; [exact Hl|].
    intros s Hs. simpl. by apply Trim_Quote_plain. }
  unfold Alert.PreferredChannelsToTerraform, Alert.SetPreferredChannels,
    Dashboard.TagsToTerraform, Dashboard.SetTags. simpl.
  by rewrite H.
Qed.

Lemma string_lists_round_trip_on_plain_values_witness :
  Alert.PreferredChannelsToTerraform
    (Alert.SetPreferredChannels zeroAlert
       (types.ListValue (types.StringValue <$> ["slack"; "pager duty"])))
  = types.ListValue (types.StringValue <$> ["slack"; "pager duty"]).
Proof.
  apply (string_lists_round_trip_on_plain_values zeroAlert zeroDashboard).
  unfold plain. simpl. repeat constructor.
Defined.

(** ** The digest stored for the widgets *)

Lemma round_length (h : list N) (kw : N * N) :
  length (sha256.round h kw) = length h.
Proof.
  unfold sha256.round. do 9 (destruct h as [|? h]; [reflexivity|]). reflexivity.
Qed.

Lemma foldl_round_length (kws : list (N * N)) (h : list N) :
  length (foldl sha256.round h kws) = length h.
Proof.
  revert h. induction kws as [|kw kws IH]; intros h; simpl; [done|].
  by rewrite IH, round_length.
Qed.

Lemma block_length (h blk : list N) : length (sha256.block h blk) = length h.
Proof.
  unfold sha256.block. rewrite length_zip_with, foldl_round_length. lia.
Qed.

Lemma blocks_length (n : nat) (h msg : list N) :
  length (sha256.blocks n h msg) = length h.
Proof.
  revert h msg. induction n as [|n IH]; intros h msg; simpl; [done|].
  by rewrite IH, block_length.
Qed.

Lemma length_flat_map_const {A B} (f : A → list B) (c : nat) (l : list A) :
  (∀ x, length (f x) = c) → length (flat_map f l) = (c * length l)%nat.
Proof.
  intros Hf. induction l as [|x l IH]; simpl; [lia|].
  rewrite length_app, Hf, IH. lia.
Qed.

Lemma Sum256_length (data : bytes) : length (sha256.Sum256 data) = 32%nat.
Proof.
  unfold sha256.Sum256. rewrite length_fmap.
  rewrite (length_flat_map_const _ 4) by done.
  rewrite blocks_length. reflexivity.
Qed.

Lemma string_of_length (b : bytes) : String.length (string_of b) = length b.
Proof. induction b as [|c b IH]; simpl; [done|]. by rewrite IH. Qed.

Lemma EncodeToString_length (b : bytes) :
  String.length (EncodeToString b) = (2 * length b)%nat.
Proof.
  unfold EncodeToString. rewrite string_of_length.
  by apply length_flat_map_const.
Qed.

(** A lower-case hexadecimal digit. *)
Definition hexChar (c : ascii) : bool :=
  existsb (Ascii.eqb c) (bytes_of "0123456789abcdef").

Lemma hexdigit_hexChar (n : N) : hexChar (Go.hexdigit n) = true.
Proof. destruct n as [|p]; [done|]. by do 4 (destruct p as [p|p|]; try done). Qed.

Lemma EncodeToString_hex (b : bytes) :
  Forall (λ c, hexChar c = true) (bytes_of (EncodeToString b)).
Proof.
  unfold EncodeToString, bytes_of, string_of.
  rewrite String.list_ascii_of_string_of_list_ascii.
  induction b as [|c b IH]; simpl; [constructor|].
  constructor; [apply hexdigit_hexChar|].
  constructor; [apply hexdigit_hexChar|exact IH].
Qed.

(** X16. [SetWidgets] never fails and changes the widgets only.  What it
    stores is what [WidgetsToTerraform] returns afterwards, without hashing
    again: the empty string for an empty (null, unknown) text, and for any
    other text, parseable or not, 64 characters, each of them a lower-case
    hexadecimal digit. *)
Theorem widgets_digest_is_stored_and_returned (d : Dashboard.t) (tfWidgets : types.String) :
  ∃ digest,
    Dashboard.SetWidgets d tfWidgets = Ok (Dashboard.withWidgets d (VString digest)) ∧
    Dashboard.WidgetsToTerraform (Dashboard.withWidgets d (VString digest))
      = types.StringValue digest ∧
    (if String.eqb (types.ValueString tfWidgets) EmptyString
     then digest = EmptyString
     else String.length digest = 64%nat ∧
          Forall (λ c, hexChar c = true) (bytes_of digest)).
Proof.
  unfold Dashboard.SetWidgets. cbv zeta.
  destruct (String.eqb (types.ValueString tfWidgets) EmptyString).
  - by exists EmptyString.
  - eexists. split; [reflexivity|]. split; [reflexivity|]. split.
    + by rewrite EncodeToString_length, Sum256_length.
    + apply EncodeToString_hex.
Qed.

(** ** What [Create] sends and stores *)

Lemma bind_Ok_inv {A B} (x : result A) (k : A → result B) (b : B) :
  x ≫= k = Ok b → ∃ a, x = Ok a ∧ k a = Ok b.
Proof. destruct x as [a|e]; [by exists a|discriminate]. Qed.

Lemma SetCondition_inv (a a' : Alert.t) (tfCondition : types.String) :
  Alert.SetCondition a tfCondition = Ok a' →
  ∃ condition, a' = Alert.withCondition a condition.
Proof.
  unfold Alert.SetCondition. intros H.
  apply bind_Ok_inv in H as (c & _ & H).
  apply bind_Ok_inv in H as (n & _ & H).
  exists n. by injection H.
Qed.

Lemma SetLayout_inv (d d' : Dashboard.t) (tfLayout : types.String) :
  Dashboard.SetLayout d tfLayout = Ok d' → ∃ layout, d' = Dashboard.withLayout d layout.
Proof.
  unfold Dashboard.SetLayout. intros H.
  repeat case_match; try discriminate; injection H as <-; eauto.
Qed.

Lemma SetPanelMap_inv (d d' : Dashboard.t) (tfPanelMap : types.String) :
  Dashboard.SetPanelMap d tfPanelMap = Ok d' →
  ∃ panelMap, d' = Dashboard.withPanelMap d panelMap.
Proof.
  unfold Dashboard.SetPanelMap. intros H. case_match.
  - injection H as <-. eauto.
  - apply bind_Ok_inv in H as (m & _ & H). injection H as <-. eauto.
Qed.

Lemma SetVariables_inv (d d' : Dashboard.t) (tfVariables : types.String) :
  Dashboard.SetVariables d tfVariables = Ok d' →
  ∃ variables, d' = Dashboard.withVariables d variables.
Proof.
  unfold Dashboard.SetVariables. intros H.
  apply bind_Ok_inv in H as (m & _ & H). injection H as <-. eauto.
Qed.

Lemma SetWidgets_inv (d d' : Dashboard.t) (tfWidgets : types.String) :
  Dashboard.SetWidgets d tfWidgets = Ok d' →
  ∃ widgets, d' = Dashboard.withWidgets d widgets.
Proof.
  unfold Dashboard.SetWidgets. cbv zeta. intros H.
  case_match; injection H as <-; eauto.
Qed.

(** The request body of the dashboard carries the scalar attributes of the
    plan and no source. *)
Lemma payload_inv (plan : dashboardResource.dashboardResourceModel) (d : Dashboard.t) :
  dashboardResource.payload plan = Ok d →
  Dashboard.Source d = EmptyString ∧
  Dashboard.Name d = types.ValueString (dashboardResource.Name plan) ∧
  Dashboard.Title d = types.ValueString (dashboardResource.Title plan) ∧
  Dashboard.Description d = types.ValueString (dashboardResource.Description plan) ∧
  Dashboard.Version d = types.ValueString (dashboardResource.Version plan).
Proof.
  unfold dashboardResource.payload. cbv zeta. intros H.
  apply bind_Ok_inv in H as (d1 & H1 & H).
  apply bind_Ok_inv in H as (d2 & H2 & H).
  apply bind_Ok_inv in H as (d3 & H3 & H).
  apply SetLayout_inv in H1 as [? ->].
  apply SetPanelMap_inv in H2 as [? ->].
  apply SetVariables_inv in H3 as [? ->].
  apply SetWidgets_inv in H as [? ->].
  done.
Qed.

(** X17. When the dashboard's [Create] succeeds, the API was called with a
    request that carries the plan's name, title, description and version
    and an empty source, whatever source the plan gives.  The stored state
    is the plan, except that the identifier, the source, the version and
    the audit fields are the ones of the response. *)
Theorem dashboard_Create_outcome (r : client.Client)
    (plan next : dashboardResource.dashboardResourceModel) :
  dashboardResource.Create r plan = Ok next →
  ∃ sent dashboard,
    client.CreateDashboard r sent = Ok dashboard ∧
    Dashboard.Source sent = EmptyString ∧
    Dashboard.Name sent = types.ValueString (dashboardResource.Name plan) ∧
    Dashboard.Title sent = types.ValueString (dashboardResource.Title plan) ∧
    Dashboard.Description sent = types.ValueString (dashboardResource.Description plan) ∧
    Dashboard.Version sent = types.ValueString (dashboardResource.Version plan) ∧
    dashboardResource.ID next = types.StringValue (client.ID dashboard) ∧
    dashboardResource.Source next
      = types.StringValue (Dashboard.Source (client.Data dashboard)) ∧
    dashboardResource.Version next
      = types.StringValue (Dashboard.Version (client.Data dashboard)) ∧
    dashboardResource.CreatedAt next = types.StringValue (client.CreatedAt dashboard) ∧
    dashboardResource.CreatedBy next = types.StringValue (client.CreatedBy dashboard) ∧
    dashboardResource.UpdatedAt next = types.StringValue (client.UpdatedAt dashboard) ∧
    dashboardResource.UpdatedBy next = types.StringValue (client.UpdatedBy dashboard) ∧
    dashboardResource.Layout next = dashboardResource.Layout plan ∧
    dashboardResource.Widgets next = dashboardResource.Widgets plan ∧
    dashboardResource.PanelMap next = dashboardResource.PanelMap plan ∧
    dashboardResource.Variables next = dashboardResource.Variables plan ∧
    dashboardResource.Tags next = dashboardResource.Tags plan ∧
    dashboardResource.Name next = dashboardResource.Name plan ∧
    dashboardResource.Title next = dashboardResource.Title plan ∧
    dashboardResource.Description next = dashboardResource.Description plan ∧
    dashboardResource.CollapsableRowsMigrated next
      = dashboardResource.CollapsableRowsMigrated plan ∧
    dashboardResource.UploadedGrafana next = dashboardResource.UploadedGrafana plan.
Proof.
  unfold dashboardResource.Create. intros H.
  apply bind_Ok_inv in H as (sent & Hp & H).
  apply bind_Ok_inv in H as (dashboard & Hc & H).
  injection H as <-. exists sent, dashboard.
  destruct (payload_inv _ _ Hp) as (? & ? & ? & ? & ?). simpl.
  repeat split; done.
Qed.

Lemma dashboard_Create_outcome_witness :
  ∃ next,
    dashboardResource.Create (stubClient zeroAlert zeroDashboard)
      (dashboardModel "planned" "[]" "[]") = Ok next ∧
    dashboardResource.ID next = types.StringValue "d-1" ∧
    dashboardResource.Source next = types.StringValue EmptyString.
Proof.
  assert (∃ next, dashboardResource.Create (stubClient zeroAlert zeroDashboard)
                    (dashboardModel "planned" "[]" "[]") = Ok next) as [next Hn]
    by (eexists; vm_compute; reflexivity).
  exists next. split; [exact Hn|].
  destruct (dashboard_Create_outcome _ _ _ Hn)
    as (sent & dashboard & Hc & _ & _ & _ & _ & _ & Hid & Hs & _).
  simpl in Hc. injection Hc as <-. by split.
Defined.

(** X18. When the alert's [Create] succeeds, the API was called with a
    request without identifier and state, with [disabled] false whatever
    the plan says, and with the label [managedBy] set to [terraform].  The
    stored state is the plan, except that the identifier, the disabled
    flag, the source, the state and the audit fields are the response's. *)
Theorem alert_Create_outcome (r : client.Client)
    (plan next : alertResource.alertResourceModel) :
  alertResource.Create r plan = Ok next →
  ∃ sent alert,
    client.CreateAlert r sent = Ok alert ∧
    Alert.ID sent = EmptyString ∧
    Alert.Disabled sent = false ∧
    Alert.State sent = EmptyString ∧
    Alert.Labels sent !! "managedBy" = Some "terraform" ∧
    alertResource.ID next = types.StringValue (Alert.ID alert) ∧
    alertResource.Disabled next = types.BoolValue (Alert.Disabled alert) ∧
    alertResource.Source next = types.StringValue (Alert.Source alert) ∧
    alertResource.State next = types.StringValue (Alert.State alert) ∧
    alertResource.CreateAt next = types.StringValue (Alert.CreateAt alert) ∧
    alertResource.CreateBy next = types.StringValue (Alert.CreateBy alert) ∧
    alertResource.UpdateAt next = types.StringValue (Alert.UpdateAt alert) ∧
    alertResource.UpdateBy next = types.StringValue (Alert.UpdateBy alert) ∧
    alertResource.Condition next = alertResource.Condition plan ∧
    alertResource.Labels next = alertResource.Labels plan ∧
    alertResource.Severity next = alertResource.Severity plan ∧
    alertResource.PreferredChannels next = alertResource.PreferredChannels plan ∧
    alertResource.Alert next = alertResource.Alert plan ∧
    alertResource.Version next = alertResource.Version plan ∧
    alertResource.AlertType next = alertResource.AlertType plan ∧
    alertResource.BroadcastToAll next = alertResource.BroadcastToAll plan ∧
    alertResource.Description next = alertResource.Description plan ∧
    alertResource.EvalWindow next = alertResource.EvalWindow plan ∧
    alertResource.Frequency next = alertResource.Frequency plan ∧
    alertResource.RuleType next = alertResource.RuleType plan ∧
    alertResource.Summary next = alertResource.Summary plan.
Proof.
  unfold alertResource.Create. cbv zeta. intros H.
  apply bind_Ok_inv in H as (a1 & H1 & H).
  apply bind_Ok_inv in H as (alert & Hc & H).
  injection H as <-. eexists _, alert. split; [exact Hc|].
  apply SetCondition_inv in H1 as [c ->].
  split; [done|]. split; [done|]. split; [done|].
  split; [|by repeat split].
  change (Alert.Labels (Alert.SetPreferredChannels ?x _)) with (Alert.Labels x).
  rewrite SetLabels_labels. reflexivity.
Qed.

Lemma alert_Create_outcome_witness :
  ∃ next,
    alertResource.Create (stubClient zeroAlert zeroDashboard)
      (alertModel "planned" "{}") = Ok next ∧
    alertResource.ID next = types.StringValue EmptyString.
Proof.
  assert (∃ next, alertResource.Create (stubClient zeroAlert zeroDashboard)
                    (alertModel "planned" "{}") = Ok next) as [next Hn]
    by (eexists; vm_compute; reflexivity).
  exists next. split; [exact Hn|].
  destruct (alert_Create_outcome _ _ _ Hn) as (sent & alert & Hc & _ & _ & _ & _ & Hid & _).
  simpl in Hc. injection Hc as <-. exact Hid.
Defined.

(** ** Labels and severity through the API *)

(** X19. Labels and severity survive the way through the API: if the
    alert that [Read] observes has the labels that [SetLabels] built from a
    plan with plain label values, none of them named [severity] or
    [managedBy], and a severity that is not empty, then [Read] stores the
    plan's labels and the plan's severity, and keeps the identifier of the
    state. *)
Theorem alert_Read_recovers_labels_and_severity (r : client.Client)
    (state : alertResource.alertResourceModel) (sent alert : Alert.t)
    (labels : gmap string types.String) (severity : string) :
  client.GetAlert r (types.ValueString (alertResource.ID state)) = Ok alert →
  Alert.Labels alert
    = Alert.Labels (Alert.SetLabels sent (types.MapValue labels) (types.StringValue severity)) →
  labels !! "severity" = None →
  labels !! "managedBy" = None →
  map_Forall (λ _ v, ∃ s, v = types.Known s ∧ plain s) labels →
  severity ≠ EmptyString →
  ∃ next,
    alertResource.Read r state = Ok next ∧
    alertResource.Labels next = types.MapValue labels ∧
    alertResource.Severity next = types.StringValue severity ∧
    alertResource.ID next = alertResource.ID state.
Proof.
  intros Hg Hl Hs Hm Hp Hne. unfold alertResource.Read. rewrite Hg. simpl.
  eexists. split; [reflexivity|]. simpl. split; [|split; [|done]].
  - rewrite <- (LabelsToTerraform_SetLabels sent labels (types.StringValue severity))
      by done.
    unfold Alert.LabelsToTerraform. by rewrite Hl.
  - rewrite Hl. change attr.Severity with "severity".
    rewrite SetLabels_labels. simpl.
    apply String.eqb_neq in Hne. by rewrite Hne.
Qed.

Lemma alert_Read_recovers_labels_and_severity_witness :
  ∃ next,
    alertResource.Read
      (stubClient
         (Alert.SetLabels zeroAlert
            (types.MapValue {[ "team" := types.StringValue "core" ]})
            (types.StringValue "warning"))
         zeroDashboard)
      (alertModel "a-1" "{}") = Ok next ∧
    alertResource.Labels next = types.MapValue {[ "team" := types.StringValue "core" ]} ∧
    alertResource.Severity next = types.StringValue "warning" ∧
    alertResource.ID next = types.StringValue "a-1".
Proof.
  apply (alert_Read_recovers_labels_and_severity
           (stubClient
              (Alert.SetLabels zeroAlert
                 (types.MapValue {[ "team" := types.StringValue "core" ]})
                 (types.StringValue "warning"))
              zeroDashboard)
           (alertModel "a-1" "{}") zeroAlert
           (Alert.SetLabels zeroAlert
              (types.MapValue {[ "team" := types.StringValue "core" ]})
              (types.StringValue "warning"))
           {[ "team" := types.StringValue "core" ]} "warning").
  - reflexivity.
  - reflexivity.
  - reflexivity.
  - reflexivity.
  - apply map_Forall_singleton. eexists. split; [reflexivity|].
    unfold plain. simpl. repeat constructor.
  - discriminate.
Defined.

(** ** A condition of default fields only *)

Lemma keptFields_empty_iff (m : gmap string value) :
  keptFields m = ∅ ↔ map_Forall (λ k v, isDefaultField k v = true) m.
Proof.
  split.
  - intros He k v Hk. pose proof (keptFields_lookup m k) as H.
    rewrite He, lookup_empty, Hk in H.
    by destruct (isDefaultField k v).
  - intros Hd. apply map_eq. intros k.
    rewrite keptFields_lookup, lookup_empty.
    destruct (m !! k) as [v|] eqn:Hk; [|done]. by rewrite (Hd k v Hk).
Qed.

(** X20. [ConditionToTerraform] returns the empty string exactly when
    every field of the condition is a default field (an empty condition
    included).  That string is not JSON: [SetCondition] rejects it with a
    syntax error. *)
Theorem condition_of_defaults_reads_back_empty (a : Alert.t) :
  (Alert.ConditionToTerraform a = types.StringValue EmptyString
   ↔ map_Forall (λ k v, isDefaultField k v = true) (Alert.Condition a)) ∧
  ∀ a', Alert.SetCondition a' (types.StringValue EmptyString) = Err SyntaxError.
Proof.
  split; [|reflexivity].
  rewrite ConditionToTerraform_spec, <- keptFields_empty_iff.
  unfold structure.FlattenJsonToString. case_decide as Hsz.
  - apply map_size_empty_iff in Hsz. by rewrite Hsz.
  - split; [discriminate|]. intros He. by rewrite He in Hsz.
Qed.

(** ** The decoder reads back what the encoder writes *)

(** *** Digits *)

Lemma byte_digit_digit_byte (d : digit) : json.byte_digit (json.digit_byte d) = Some d.
Proof. by destruct d. Qed.

Lemma scanDigits_cons (c : ascii) (cs : bytes) :
  json.scanDigits (c :: cs) =
  match json.byte_digit c with
  | Some d => let '(ds, r) := json.scanDigits cs in (d :: ds, r)
  | None => ([], c :: cs)
  end.
Proof. reflexivity. Qed.

Lemma scanDigits_digit_bytes (ds : list digit) (rest : bytes) :
  json.scanDigits (json.digit_bytes ds ++ rest) =
  (ds ++ (json.scanDigits rest).1, (json.scanDigits rest).2).
Proof.
  induction ds as [|d ds IH].
  - simpl. by destruct (json.scanDigits rest).
  - change (json.digit_bytes (d :: ds) ++ rest)
      with (json.digit_byte d :: (json.digit_bytes ds ++ rest)).
    rewrite scanDigits_cons, byte_digit_digit_byte, IH. reflexivity.
Qed.

Lemma digits_uint_uint_digits (u : Decimal.uint) :
  json.digits_uint (json.uint_digits u) = u.
Proof. induction u; simpl; by f_equal. Qed.

Lemma digits_N_N_digits (n : N) : json.digits_N (json.N_digits n) = n.
Proof.
  unfold json.digits_N, json.N_digits.
  rewrite digits_uint_uint_digits. apply DecimalN.Unsigned.of_to.
Qed.

Lemma N_digits_nonempty (n : N) : json.N_digits n ≠ [].
Proof.
  unfold json.N_digits. destruct n as [|p]; [done|]. simpl.
  pose proof (DecimalPos.Unsigned.to_uint_nonnil p) as H.
  destruct (Pos.to_uint p); [done|done..].
Qed.

(** *** What may follow a value *)

Definition stop (rest : bytes) : Prop :=
  match rest with
  | [] => True
  | c :: _ => c = ","%char ∨ c = "]"%char ∨ c = "}"%char
  end.

Lemma stop_scanDigits (rest : bytes) : stop rest → json.scanDigits rest = ([], rest).
Proof.
  destruct rest as [|c rest]; [done|]. by intros [->|[->| ->]].
Qed.

Lemma scanDigits_stop (ds : list digit) (rest : bytes) :
  stop rest → json.scanDigits (json.digit_bytes ds ++ rest) = (ds, rest).
Proof.
  intros H. rewrite scanDigits_digit_bytes, stop_scanDigits by done.
  simpl. by rewrite app_nil_r.
Qed.

(** *** Numbers *)

Definition normalDigits (ds : list digit) : Prop :=
  json.stripZeros ds = ds ∧ json.stripZeros (rev ds) = rev ds.

(** The floats the decoder produces: no leading and no trailing zero among
    the digits, and exponent zero when there is no digit. *)
Definition normal (f : float64) : Prop :=
  normalDigits (f_digits f) ∧ (f_digits f = [] → f_exp f = 0).

Lemma stripZeros_replicate (k : nat) (ds : list digit) :
  json.stripZeros (replicate k d0 ++ ds) = json.stripZeros ds.
Proof. induction k as [|k IH]; simpl; done. Qed.

Lemma stripZeros_idempotent (ds : list digit) :
  json.stripZeros (json.stripZeros ds) = json.stripZeros ds.
Proof. induction ds as [|[] ds IH]; simpl; done. Qed.

Lemma stripZeros_snoc (ds : list digit) (x : digit) :
  x ≠ d0 → json.stripZeros (ds ++ [x]) = json.stripZeros ds ++ [x].
Proof.
  intros Hx. induction ds as [|d ds IH]; simpl.
  - by destruct x.
  - by destruct d.
Qed.

Lemma stripZeros_fixed_cons (d : digit) (ds : list digit) :
  json.stripZeros (d :: ds) = d :: ds → d ≠ d0.
Proof.
  intros H ->. simpl in H.
  assert (∀ l, length (json.stripZeros l) ≤ length l)%nat as Hle.
  { clear. induction l as [|[] l IH]; simpl; lia. }
  specialize (Hle ds). rewrite H in Hle. simpl in Hle. lia.
Qed.

Lemma rev_replicate {A} (k : nat) (x : A) : rev (replicate k x) = replicate k x.
Proof.
  induction k as [|k IH]; simpl; [done|]. rewrite IH. clear IH.
  induction k as [|k IH]; simpl; [done|]. by rewrite IH.
Qed.

Lemma mkFloat_padded (neg : bool) (a b : nat) (ds : list digit) (e : Z) :
  normalDigits ds → ds ≠ [] →
  json.mkFloat neg (replicate a d0 ++ ds ++ replicate b d0) e
  = Float64 neg ds (e + Z.of_nat b).
Proof.
  intros [Hl Hr] Hne. unfold json.mkFloat.
  rewrite !rev_app_distr, !rev_replicate, <- app_assoc, stripZeros_replicate.
  assert (json.stripZeros (rev ds ++ replicate a d0) = rev ds ++ replicate a d0) as ->.
  { destruct (rev ds) as [|x l] eqn:Hrev.
    - apply (f_equal (@rev digit)) in Hrev. rewrite rev_involutive in Hrev. done.
    - apply stripZeros_fixed_cons in Hr. simpl. by destruct x. }
  rewrite rev_app_distr, rev_replicate, rev_involutive, stripZeros_replicate, Hl.
  destruct ds as [|d ds]; [done|]. f_equal.
  rewrite !length_app, !length_replicate, length_rev. simpl. lia.
Qed.

Lemma mkFloat_normal (neg : bool) (ds : list digit) (e : Z) :
  normalDigits ds → ds ≠ [] → json.mkFloat neg ds e = Float64 neg ds e.
Proof.
  intros Hn Hne.
  pose proof (mkFloat_padded neg 0 0 ds e Hn Hne) as H. simpl in H.
  rewrite app_nil_r, Z.add_0_r in H. exact H.
Qed.

Lemma mkFloat_is_normal (neg : bool) (ds : list digit) (e : Z) :
  normal (json.mkFloat neg ds e).
Proof.
  unfold json.mkFloat.
  set (r := json.stripZeros (rev ds)).
  assert (json.stripZeros (rev (json.stripZeros (rev r))) = rev (json.stripZeros (rev r)))
    as Hr.
  { assert (json.stripZeros r = r) as Hfix by apply stripZeros_idempotent.
    destruct r as [|x r']; [done|].
    apply stripZeros_fixed_cons in Hfix. simpl.
    rewrite stripZeros_snoc, rev_app_distr by done. simpl. by destruct x. }
  destruct (json.stripZeros (rev r)) as [|d m] eqn:Hm.
  - split; [done|]. done.
  - split; [|done]. split; [|exact Hr]. cbn [f_digits].
    rewrite <- Hm. apply stripZeros_idempotent.
Qed.

Definition nondigit (rest : bytes) : Prop :=
  match rest with
  | [] => True
  | c :: _ => json.byte_digit c = None
  end.

Lemma stop_nondigit (rest : bytes) : stop rest → nondigit rest.
Proof. destruct rest as [|c rest]; [done|]. by intros [->|[->| ->]]. Qed.

Lemma scanDigits_nondigit (ds : list digit) (rest : bytes) :
  nondigit rest → json.scanDigits (json.digit_bytes ds ++ rest) = (ds, rest).
Proof.
  intros H. rewrite scanDigits_digit_bytes.
  assert (json.scanDigits rest = ([], rest)) as ->.
  { destruct rest as [|c rest]; [done|]. simpl in H. by rewrite scanDigits_cons, H. }
  simpl. by rewrite app_nil_r.
Qed.

Lemma digit_bytes_app (a b : list digit) :
  json.digit_bytes (a ++ b) = json.digit_bytes a ++ json.digit_bytes b.
Proof. apply fmap_app. Qed.

Lemma digit_bytes_replicate (k : nat) :
  json.digit_bytes (replicate k d0) = replicate k "0"%char.
Proof. unfold json.digit_bytes. by rewrite fmap_replicate. Qed.

(** The part of [parseNumber] behind the sign. *)
Definition parseUnsigned (neg : bool) (cs0 : bytes) : option (float64 * bytes) :=
  match cs0 with
  | c :: cs1 =>
      if json.byteIs c "0" then json.scanFraction neg [d0] cs1
      else match json.scanDigits cs0 with
           | ([], _) => None
           | (ds, cs2) => json.scanFraction neg ds cs2
           end
  | [] => None
  end.

Lemma parseNumber_minus (cs : bytes) :
  json.parseNumber ("-"%char :: cs) = parseUnsigned true cs.
Proof. reflexivity. Qed.

Lemma parseNumber_unsigned (cs : bytes) (r : float64 * bytes) :
  parseUnsigned false cs = Some r → json.parseNumber cs = Some r.
Proof.
  destruct cs as [|c cs]; [done|]. intros H.
  unfold json.parseNumber. destruct (json.byteIs c "-") eqn:Hc; [|exact H].
  apply Ascii.eqb_eq in Hc as ->. discriminate.
Qed.

Lemma scanExponent_stop (neg : bool) (ds fs : list digit) (rest : bytes) :
  stop rest →
  json.scanExponent neg ds fs rest
  = Some (json.mkFloat neg (ds ++ fs) (- Z.of_nat (length fs)), rest).
Proof.
  destruct rest as [|c rest]; [done|]. by intros [->|[->| ->]].
Qed.

Lemma scanFraction_stop (neg : bool) (ds : list digit) (rest : bytes) :
  stop rest →
  json.scanFraction neg ds rest = Some (json.mkFloat neg ds 0, rest).
Proof.
  intros H.
  assert (json.scanFraction neg ds rest = json.scanExponent neg ds [] rest) as ->.
  { destruct rest as [|c rest]; [done|]. by destruct H as [->|[->| ->]]. }
  rewrite scanExponent_stop by done. by rewrite app_nil_r.
Qed.

Lemma scanExponent_e (neg : bool) (ds fs : list digit) (x : Z) (rest : bytes) :
  stop rest →
  json.scanExponent neg ds fs
    ("e"%char :: (if x <? 0 then "-"%char else "+"%char)
       :: json.digit_bytes (json.N_digits (Z.abs_N x)) ++ rest)
  = Some (json.mkFloat neg (ds ++ fs) (x - Z.of_nat (length fs)), rest).
Proof.
  intros H. unfold json.scanExponent.
  change (json.byteIs "e" "e" || json.byteIs "e" "E") with true. cbv iota.
  assert (json.scanDigits (json.digit_bytes (json.N_digits (Z.abs_N x)) ++ rest)
          = (json.N_digits (Z.abs_N x), rest)) as Hs
    by (apply scanDigits_nondigit, stop_nondigit, H).
  pose proof (N_digits_nonempty (Z.abs_N x)) as Hne.
  pose proof (digits_N_N_digits (Z.abs_N x)) as Hx.
  destruct (x <? 0) eqn:Hneg.
  - change (json.byteIs "-" "-") with true. cbv iota. rewrite Hs.
    destruct (json.N_digits (Z.abs_N x)) as [|d l]; [done|].
    rewrite Hx. do 3 f_equal. apply Z.ltb_lt in Hneg. lia.
  - change (json.byteIs "+" "-") with false.
    change (json.byteIs "+" "+") with true. cbv iota. rewrite Hs.
    destruct (json.N_digits (Z.abs_N x)) as [|d l]; [done|].
    rewrite Hx. do 3 f_equal. apply Z.ltb_ge in Hneg. lia.
Qed.

Lemma byteIs_digit_zero (d : digit) :
  d ≠ d0 → json.byteIs (json.digit_byte d) "0" = false.
Proof. by destruct d. Qed.

Lemma nondigit_point (cs : bytes) : nondigit ("."%char :: cs).
Proof. reflexivity. Qed.

Lemma nondigit_e (cs : bytes) : nondigit ("e"%char :: cs).
Proof. reflexivity. Qed.

Lemma scanFraction_e (neg : bool) (ds : list digit) (cs : bytes) :
  json.scanFraction neg ds ("e"%char :: cs) = json.scanExponent neg ds [] ("e"%char :: cs).
Proof. reflexivity. Qed.

Lemma scanFraction_point (neg : bool) (ds : list digit) (cs : bytes) :
  json.scanFraction neg ds ("."%char :: cs) =
  match json.scanDigits cs with
  | ([], _) => None
  | (fs, cs2) => json.scanExponent neg ds fs cs2
  end.
Proof. reflexivity. Qed.

Ltac float_exp :=
  match goal with
  | |- Some (Float64 ?n ?d ?a, ?r) = Some (Float64 ?n ?d ?b, ?r) =>
      replace a with b; [reflexivity|]
  end.

Lemma parseUnsigned_digits (neg : bool) (ds : list digit) (d : digit) (ds' : list digit)
    (rest : bytes) :
  ds = d :: ds' → d ≠ d0 → nondigit rest →
  parseUnsigned neg (json.digit_bytes ds ++ rest) = json.scanFraction neg ds rest.
Proof.
  intros -> Hd0 Hr.
  pose proof (scanDigits_nondigit (d :: ds') rest Hr) as Hs.
  change (json.digit_bytes (d :: ds') ++ rest)
    with (json.digit_byte d :: (json.digit_bytes ds' ++ rest)) in *.
  unfold parseUnsigned. by rewrite byteIs_digit_zero, Hs.
Qed.

(** What [formatFloat] writes behind the sign is read back. *)
Lemma parseUnsigned_formatFloat (neg : bool) (f : float64) (rest : bytes) :
  normal f → stop rest →
  parseUnsigned neg (json.formatFloat (Float64 false (f_digits f) (f_exp f)) ++ rest)
  = Some (Float64 neg (f_digits f) (f_exp f), rest).
Proof.
  destruct f as [fneg digits e]. intros [Hn He] Hstop. simpl in *.
  unfold json.formatFloat. cbn [f_neg f_digits f_exp].
  destruct digits as [|d ds] eqn:Hd.
  { rewrite He by done. simpl. rewrite scanFraction_stop by done. reflexivity. }
  rewrite <- Hd in *.
  assert (digits ≠ []) as Hne by (by rewrite Hd).
  assert (d ≠ d0) as Hd0.
  { destruct Hn as [Hl _]. rewrite Hd in Hl. by apply stripZeros_fixed_cons in Hl. }
  set (n := Z.of_nat (length digits)).
  assert (0 < n) as Hnpos by (subst n; rewrite Hd; simpl; lia).
  set (p := n + e). rewrite app_nil_l.
  destruct ((p <? -5) || (21 <? p)) eqn:Hfmt.
  - (* the exponent form *)
    assert (json.scanFraction neg [d]
              ((match ds with [] => [] | _ :: _ => "."%char :: json.digit_bytes ds end
                ++ ["e"%char; if p - 1 <? 0 then "-"%char else "+"%char]
                ++ json.digit_bytes (json.N_digits (Z.abs_N (p - 1)))) ++ rest)
            = Some (Float64 neg digits e, rest)) as Hfrac.
    { rewrite <- !app_assoc. destruct ds as [|d' ds'] eqn:Hds.
      - cbn [app]. rewrite scanFraction_e, scanExponent_e by done.
        cbn [app length]. rewrite <- Hd.
        rewrite mkFloat_normal by done.
        float_exp. subst p n. rewrite Hd. simpl. lia.
      - rewrite <- Hds in *. cbn [app].
        rewrite scanFraction_point.
        rewrite scanDigits_nondigit by apply nondigit_e.
        destruct ds as [|d'' ds'']; [done|].
        rewrite scanExponent_e by done.
        change ([d] ++ d'' :: ds'') with (d :: d'' :: ds''). rewrite <- Hd.
        rewrite mkFloat_normal by done. float_exp.
        subst p n. rewrite Hd. simpl. lia. }
    change ((json.digit_byte d :: ?t) ++ rest) with (json.digit_byte d :: (t ++ rest)).
    unfold parseUnsigned. rewrite byteIs_digit_zero by done.
    rewrite scanDigits_cons, byte_digit_digit_byte.
    match goal with |- context [json.scanDigits ?t] =>
      assert (json.scanDigits t = ([], t)) as Hsd end.
    { destruct ds; reflexivity. }
    rewrite Hsd. exact Hfrac.
  - apply orb_false_iff in Hfmt as [H5 H21].
    apply Z.ltb_ge in H5, H21.
    destruct (p <=? 0) eqn:Hp0.
    + (* 0.000ddd *)
      apply Z.leb_le in Hp0.
      rewrite <- !app_assoc. simpl.
      rewrite <- digit_bytes_replicate, app_assoc, <- digit_bytes_app.
      rewrite scanDigits_nondigit by (by apply stop_nondigit).
      destruct (replicate (Z.to_nat (- p)) d0 ++ digits) as [|x l] eqn:Hx.
      { apply app_eq_nil in Hx as [_ Hx]. done. }
      rewrite <- Hx. rewrite scanExponent_stop by done.
      change ([d0] ++ replicate (Z.to_nat (- p)) d0 ++ digits)
        with (replicate (S (Z.to_nat (- p))) d0 ++ digits).
      rewrite <- (app_nil_r digits) at 1.
      change (@nil digit) with (replicate 0 d0).
      rewrite mkFloat_padded by done. float_exp.
      rewrite length_app, length_replicate. subst p n. lia.
    + apply Z.leb_gt in Hp0. destruct (p <? n) eqn:Hpn.
      * (* ddd.ddd *)
        apply Z.ltb_lt in Hpn.
        destruct (Z.to_nat p) as [|k] eqn:Hk; [lia|].
        assert (take (S k) digits = d :: take k ds) as Htake by (by rewrite Hd).
        assert (drop (S k) digits ≠ []) as Hdrop.
        { intros Hnil. apply (f_equal length) in Hnil.
          rewrite length_drop in Hnil. simpl in Hnil. subst n. lia. }
        rewrite <- app_assoc.
        rewrite (parseUnsigned_digits neg _ d (take k ds)) by (done || apply nondigit_point).
        cbn [app]. rewrite scanFraction_point.
        rewrite scanDigits_nondigit by (by apply stop_nondigit).
        destruct (drop (S k) digits) as [|y l] eqn:Hy; [done|]. rewrite <- Hy.
        rewrite scanExponent_stop by done. rewrite take_drop.
        rewrite mkFloat_normal by done. float_exp.
        rewrite length_drop. subst p n. lia.
      * (* ddd000 *)
        apply Z.ltb_ge in Hpn.
        rewrite <- digit_bytes_replicate, <- digit_bytes_app.
        rewrite (parseUnsigned_digits neg _ d (ds ++ replicate (Z.to_nat (p - n)) d0))
          by (by rewrite ?Hd; try apply stop_nondigit).
        rewrite scanFraction_stop by done.
        change (digits ++ replicate (Z.to_nat (p - n)) d0)
          with (replicate 0 d0 ++ digits ++ replicate (Z.to_nat (p - n)) d0).
        rewrite mkFloat_padded by done. float_exp. subst p. lia.
Qed.

Lemma parseNumber_formatFloat (f : float64) (rest : bytes) :
  normal f → stop rest →
  json.parseNumber (json.formatFloat f ++ rest) = Some (f, rest).
Proof.
  intros Hn Hs.
  pose proof (parseUnsigned_formatFloat (f_neg f) f rest Hn Hs) as H.
  destruct f as [[] digits e]; cbn [f_neg f_digits f_exp] in *.
  - assert (json.formatFloat (Float64 true digits e)
            = "-"%char :: json.formatFloat (Float64 false digits e)) as ->.
    { unfold json.formatFloat. simpl. by destruct digits. }
    change (("-"%char :: ?b) ++ rest) with ("-"%char :: (b ++ rest)).
    by rewrite parseNumber_minus.
  - by apply parseNumber_unsigned.
Qed.

(** *** Strings *)

Lemma parseString_escapeByte (c : ascii) (tail : bytes) :
  json.parseString (json.escapeByte c ++ tail) = json.prepend [c] (json.parseString tail).
Proof.
  destruct c as [[] [] [] [] [] [] [] []]; reflexivity.
Qed.

Lemma parseString_escaped (b rest : bytes) :
  json.parseString (flat_map json.escapeByte b ++ json.quote :: rest) = Some (b, rest).
Proof.
  induction b as [|c b IH]; [reflexivity|].
  change (flat_map json.escapeByte (c :: b))
    with (json.escapeByte c ++ flat_map json.escapeByte b).
  by rewrite <- app_assoc, parseString_escapeByte, IH.
Qed.

Lemma appendString_app (s : string) (rest : bytes) :
  json.appendString s ++ rest
  = json.quote :: flat_map json.escapeByte (bytes_of s) ++ json.quote :: rest.
Proof. unfold json.appendString. simpl. by rewrite <- app_assoc. Qed.

(** *** Values *)

(** The values the decoder produces within nesting depth [d]: no [int],
    floats in normal form and in range, arrays and objects nested at most
    [d] deep. *)
Fixpoint decoded (d : nat) (v : value) : Prop :=
  match v with
  | VNil | VBool _ | VString _ => True
  | VInt _ => False
  | VFloat f => normal f ∧ json.inRange f = true
  | VSlice l =>
      match d with
      | O => False
      | S d' => Forall (decoded d') l
      end
  | VMap m =>
      match d with
      | O => False
      | S d' => map_Forall (λ _, decoded d') m
      end
  end.

Lemma decoded_int (d : nat) (n : Z) : decoded d (VInt n) → False.
Proof. by destruct d. Qed.

Lemma decoded_float (d : nat) (f : float64) :
  decoded d (VFloat f) → normal f ∧ json.inRange f = true.
Proof. by destruct d. Qed.

Lemma parseValue_unfold (check : bool) (depth : nat) (cs : bytes) :
  json.parseValue check depth cs =
  match json.skipSpace cs with
  | [] => None
  | c :: cs1 =>
      if json.byteIs c "{" then
        match depth with
        | O => None
        | S d =>
            match json.skipSpace cs1 with
            | c' :: cs2 =>
                if json.byteIs c' "}" then Some (VMap ∅, cs2)
                else match json.parseMembers (json.parseValue check d) (length cs1) ∅ cs1 with
                     | Some (m, rest) => Some (VMap m, rest)
                     | None => None
                     end
            | [] => None
            end
        end
      else if json.byteIs c "[" then
        match depth with
        | O => None
        | S d =>
            match json.skipSpace cs1 with
            | c' :: cs2 =>
                if json.byteIs c' "]" then Some (VSlice [], cs2)
                else match json.parseElements (json.parseValue check d) (length cs1) cs1 with
                     | Some (vs, rest) => Some (VSlice vs, rest)
                     | None => None
                     end
            | [] => None
            end
        end
      else if Ascii.eqb c json.quote then
        match json.parseString cs1 with
        | Some (s, rest) => Some (VString (string_of s), rest)
        | None => None
        end
      else if json.byteIs c "t" then
        match json.stripPrefix (bytes_of "rue") cs1 with
        | Some rest => Some (VBool true, rest)
        | None => None
        end
      else if json.byteIs c "f" then
        match json.stripPrefix (bytes_of "alse") cs1 with
        | Some rest => Some (VBool false, rest)
        | None => None
        end
      else if json.byteIs c "n" then
        match json.stripPrefix (bytes_of "ull") cs1 with
        | Some rest => Some (VNil, rest)
        | None => None
        end
      else
        match json.parseNumber (c :: cs1) with
        | Some (f, rest) =>
            if negb check || json.inRange f then Some (VFloat f, rest) else None
        | None => None
        end
  end.
Proof. destruct depth; reflexivity. Qed.

(** The first byte of a number: the minus sign or a digit. *)
Definition numberStart (c : ascii) : bool :=
  json.byteIs c "-" || bool_decide (is_Some (json.byte_digit c)).

Lemma parseNumber_start (cs : bytes) (r : float64 * bytes) :
  json.parseNumber cs = Some r → ∃ c cs', cs = c :: cs' ∧ numberStart c = true.
Proof.
  destruct cs as [|c cs]; [done|]. intros H. exists c, cs. split; [done|].
  unfold numberStart. destruct (json.byteIs c "-") eqn:Hm; [done|]. simpl.
  apply bool_decide_eq_true.
  unfold json.parseNumber in H. rewrite Hm in H.
  destruct (json.byteIs c "0") eqn:H0.
  - apply Ascii.eqb_eq in H0 as ->. by eexists.
  - rewrite scanDigits_cons in H. destruct (json.byte_digit c); [by eexists|done].
Qed.

Lemma parseValue_number (check : bool) (depth : nat) (c : ascii) (cs : bytes) :
  numberStart c = true →
  json.parseValue check depth (c :: cs) =
  match json.parseNumber (c :: cs) with
  | Some (f, rest) =>
      if negb check || json.inRange f then Some (VFloat f, rest) else None
  | None => None
  end.
Proof.
  intros H. rewrite parseValue_unfold.
  destruct c as [[] [] [] [] [] [] [] []]; try discriminate H; reflexivity.
Qed.

Lemma numberStart_skip (c : ascii) (cs : bytes) :
  numberStart c = true →
  json.skipSpace (c :: cs) = c :: cs ∧ json.byteIs c "]" = false.
Proof.
  intros H. destruct c as [[] [] [] [] [] [] [] []]; try discriminate H; done.
Qed.

(** The scalar values. *)
Lemma parseValue_scalar (check : bool) (depth : nat) (v : value) (rest : bytes) :
  match v with VSlice _ | VMap _ => False | _ => decoded depth v end →
  stop rest →
  json.parseValue check depth (json.Marshal v ++ rest) = Some (v, rest).
Proof.
  intros Hv Hs.
  destruct v as [|[]|n|f|s|l|m]; try done; try (by apply decoded_int in Hv).
  - rewrite parseValue_unfold. reflexivity.
  - rewrite parseValue_unfold. reflexivity.
  - rewrite parseValue_unfold. reflexivity.
  - apply decoded_float in Hv as [Hv Hr].
    pose proof (parseNumber_formatFloat f rest Hv Hs) as Hp.
    destruct (parseNumber_start _ _ Hp) as (c & cs & Hc & Hstart).
    cbn [json.Marshal]. rewrite Hc in *.
    by rewrite parseValue_number, Hp, Hr, orb_true_r.
  - cbn [json.Marshal]. rewrite appendString_app, parseValue_unfold.
    change (json.skipSpace (json.quote :: ?t)) with (json.quote :: t). cbv iota.
    change (json.byteIs json.quote "{") with false.
    change (json.byteIs json.quote "[") with false.
    change (Ascii.eqb json.quote json.quote) with true. cbv iota.
    by rewrite parseString_escaped, string_of_bytes_of.
Qed.

(** The first byte of an encoded value is no white space and no closing
    bracket. *)
Lemma Marshal_start (depth : nat) (v : value) :
  decoded depth v →
  ∃ c bs, json.Marshal v = c :: bs ∧ json.isSpace c = false
          ∧ json.byteIs c "]" = false.
Proof.
  intros Hv. destruct v as [|[]|n|f|s|l|m]; try (by eexists _, _).
  - by apply decoded_int in Hv.
  - apply decoded_float in Hv as [Hv _].
    pose proof (parseNumber_formatFloat f [] Hv I) as Hp.
    destruct (parseNumber_start _ _ Hp) as (c & cs & Hc & Hstart).
    rewrite app_nil_r in Hc. cbn [json.Marshal]. rewrite Hc. exists c, cs.
    destruct (numberStart_skip c [] Hstart) as [Hsk Hb]. split; [done|].
    split; [|done]. simpl in Hsk. by destruct (json.isSpace c).
Qed.

(** *** Arrays *)

Lemma joinComma_cons (x : bytes) (y : bytes) (l : list bytes) :
  json.joinComma (x :: y :: l) = x ++ ","%char :: json.joinComma (y :: l).
Proof. reflexivity. Qed.

Lemma parseElements_joinComma (pv : bytes → option (value * bytes)) (l : list value) :
  ∀ (n : nat) (v0 : value) (rest : bytes),
    (length (v0 :: l) ≤ n)%nat →
    Forall (λ v, ∀ rest, stop rest → pv (json.Marshal v ++ rest) = Some (v, rest))
           (v0 :: l) →
    json.parseElements pv n (json.joinComma (json.Marshal <$> v0 :: l) ++ "]"%char :: rest)
    = Some (v0 :: l, rest).
Proof.
  induction l as [|v1 l IH]; intros n v0 rest Hn Hpv.
  - destruct n as [|n]; [simpl in Hn; lia|].
    apply Forall_cons in Hpv as [H0 _]. simpl.
    rewrite H0 by (right; by left). reflexivity.
  - destruct n as [|n]; [simpl in Hn; lia|].
    apply Forall_cons in Hpv as [H0 Hl].
    rewrite !fmap_cons, joinComma_cons, <- app_assoc.
    cbn [json.parseElements]. rewrite H0 by (by left).
    change (json.skipSpace ((","%char :: ?t) ++ ?r)) with (","%char :: (t ++ r)).
    cbv iota. change (json.byteIs "," ",") with true. cbv iota.
    rewrite <- !fmap_cons. rewrite IH; [done| |done].
    simpl in *. lia.
Qed.

(** *** Objects *)

Lemma insertKey_fmap {A B} (f : A → B) (kv : string * A) (l : list (string * A)) :
  json.insertKey (prod_map id f kv) (prod_map id f <$> l)
  = prod_map id f <$> json.insertKey kv l.
Proof.
  induction l as [|x l IH]; [done|]. simpl.
  destruct (String.leb kv.1 x.1); [done|]. rewrite fmap_cons. f_equal. exact IH.
Qed.

Lemma sortKeys_fmap {A B} (f : A → B) (l : list (string * A)) :
  json.sortKeys (prod_map id f <$> l) = prod_map id f <$> json.sortKeys l.
Proof.
  induction l as [|x l IH]; [done|]. unfold json.sortKeys in *.
  rewrite fmap_cons. cbn [foldr]. by rewrite IH, insertKey_fmap.
Qed.

Lemma insertKey_perm {A} (kv : string * A) (l : list (string * A)) :
  json.insertKey kv l ≡ₚ kv :: l.
Proof.
  induction l as [|x l IH]; [done|]. simpl.
  destruct (String.leb kv.1 x.1); [done|].
  rewrite IH. apply Permutation_swap.
Qed.

Lemma sortKeys_perm {A} (l : list (string * A)) : json.sortKeys l ≡ₚ l.
Proof.
  induction l as [|x l IH]; [done|]. unfold json.sortKeys in *. simpl.
  by rewrite insertKey_perm, IH.
Qed.

Definition insertAll (acc : gmap string value) (l : list (string * value))
  : gmap string value :=
  foldl (λ m kv, <[kv.1 := kv.2]> m) acc l.

Lemma insertAll_lookup (l : list (string * value)) :
  ∀ (acc : gmap string value) (k : string),
    NoDup l.*1 →
    insertAll acc l !! k =
    match (list_to_map l : gmap string value) !! k with
    | Some v => Some v
    | None => acc !! k
    end.
Proof.
  induction l as [|[k0 v0] l IH]; intros acc k Hnd; [done|].
  apply NoDup_cons in Hnd as [Hk0 Hnd]. simpl.
  change (foldl _ (<[k0:=v0]> acc) l) with (insertAll (<[k0:=v0]> acc) l).
  rewrite IH by done. destruct (decide (k0 = k)) as [->|Hne].
  - rewrite !lookup_insert_eq.
    by rewrite (not_elem_of_list_to_map_1 l k).
  - by rewrite !lookup_insert_ne.
Qed.

Lemma insertAll_sorted (m : gmap string value) (l : list (string * value)) :
  l ≡ₚ map_to_list m → insertAll ∅ l = m.
Proof.
  intros Hp. assert (NoDup l.*1) as Hnd.
  { rewrite Hp. apply NoDup_fst_map_to_list. }
  apply map_eq. intros k. rewrite insertAll_lookup by done.
  rewrite (list_to_map_proper l (map_to_list m)), list_to_map_to_list by done.
  rewrite lookup_empty. by destruct (m !! k).
Qed.

Lemma member_app (k : string) (b rest : bytes) :
  json.member (k, b) ++ rest
  = json.quote :: flat_map json.escapeByte (bytes_of k)
      ++ json.quote :: ":"%char :: b ++ rest.
Proof.
  unfold json.member. cbn [fst snd]. rewrite <- app_assoc, appendString_app.
  reflexivity.
Qed.

Lemma parseMembers_joinComma (pv : bytes → option (value * bytes))
    (l : list (string * value)) :
  ∀ (n : nat) (acc : gmap string value) (kv0 : string * value) (rest : bytes),
    (length (kv0 :: l) ≤ n)%nat →
    Forall (λ kv, ∀ rest, stop rest → pv (json.Marshal kv.2 ++ rest) = Some (kv.2, rest))
           (kv0 :: l) →
    json.parseMembers pv n acc
      (json.joinComma (json.member <$> (prod_map id json.Marshal <$> kv0 :: l))
         ++ "}"%char :: rest)
    = Some (insertAll acc (kv0 :: l), rest).
Proof.
  induction l as [|kv1 l IH]; intros n acc [k0 v0] rest Hn Hpv.
  - destruct n as [|n]; [simpl in Hn; lia|].
    apply Forall_cons in Hpv as [H0 _]. simpl in H0.
    cbn [fmap list_fmap json.joinComma prod_map id fst snd].
    rewrite member_app. cbn [json.parseMembers].
    change (json.skipSpace (json.quote :: ?t)) with (json.quote :: t). cbv iota.
    change (Ascii.eqb json.quote json.quote) with true. cbv iota.
    rewrite parseString_escaped.
    change (json.skipSpace (":"%char :: ?t)) with (":"%char :: t). cbv iota.
    change (json.byteIs ":" ":") with true. cbv iota.
    rewrite H0 by (right; by right). rewrite string_of_bytes_of. reflexivity.
  - destruct n as [|n]; [simpl in Hn; lia|].
    apply Forall_cons in Hpv as [H0 Hl]. simpl in H0.
    rewrite !fmap_cons, joinComma_cons, <- app_assoc.
    cbn [prod_map id fst snd].
    rewrite member_app. cbn [json.parseMembers].
    change (json.skipSpace (json.quote :: ?t)) with (json.quote :: t). cbv iota.
    change (Ascii.eqb json.quote json.quote) with true. cbv iota.
    rewrite parseString_escaped.
    change (json.skipSpace (":"%char :: ?t)) with (":"%char :: t). cbv iota.
    change (json.byteIs ":" ":") with true. cbv iota.
    change ((","%char :: ?t) ++ ?r) with (","%char :: (t ++ r)).
    rewrite H0 by (by left). rewrite string_of_bytes_of.
    change (json.skipSpace (","%char :: ?t)) with (","%char :: t). cbv iota.
    change (json.byteIs "," ",") with true. cbv iota.
    rewrite <- !fmap_cons. rewrite IH; [done| |done].
    simpl in *. lia.
Qed.

Lemma joinComma_length (l : list bytes) (rest : bytes) (c : ascii) :
  (length l ≤ length (json.joinComma l ++ c :: rest))%nat.
Proof.
  induction l as [|x [|y l] IH].
  - simpl. lia.
  - simpl. rewrite length_app. simpl. lia.
  - rewrite joinComma_cons, <- app_assoc, length_app.
    change ((","%char :: ?t) ++ ?r) with (","%char :: (t ++ r)).
    simpl in *. lia.
Qed.

(** *** The decoder reads back what the encoder writes *)

Lemma parseValue_Marshal (check : bool) (depth : nat) :
  ∀ (v : value) (rest : bytes),
    decoded depth v → stop rest →
    json.parseValue check depth (json.Marshal v ++ rest) = Some (v, rest).
Proof.
  induction depth as [|d IH]; intros v rest Hv Hs.
  { destruct v; try done; by apply parseValue_scalar. }
  destruct v as [| | | | |l|m]; try (by apply parseValue_scalar).
  - (* arrays *)
    simpl in Hv. rewrite parseValue_unfold.
    cbn [json.Marshal]. 
    change (json.skipSpace (("["%char :: ?t) ++ ?r)) with ("["%char :: (t ++ r)).
    cbv iota. change (json.byteIs "[" "{") with false.
    change (json.byteIs "[" "[") with true. cbv iota.
    destruct l as [|v0 l]; [reflexivity|].
    rewrite <- app_assoc.
    change (["]"%char] ++ rest) with ("]"%char :: rest).
    pose proof (Forall_inv Hv) as Hv0.
    destruct (Marshal_start d v0 Hv0) as (c & bs & Hc & Hsp & Hb).
    assert (∃ t, json.joinComma (json.Marshal <$> v0 :: l) ++ "]"%char :: rest = c :: t)
      as [t Ht].
    { destruct l as [|v1 l].
      - simpl. rewrite Hc. by eexists.
      - rewrite !fmap_cons, joinComma_cons, Hc. by eexists. }
    rewrite Ht. cbn [json.skipSpace]. rewrite Hsp, Hb. rewrite <- Ht.
    rewrite parseElements_joinComma; [done| |].
    + rewrite <- (length_fmap json.Marshal). apply joinComma_length.
    + eapply Forall_impl; [exact Hv|]. intros v Hd r Hr. by apply IH.
  - (* objects *)
    simpl in Hv. rewrite parseValue_unfold.
    cbn [json.Marshal].
    change (json.skipSpace (("{"%char :: ?t) ++ ?r)) with ("{"%char :: (t ++ r)).
    cbv iota. change (json.byteIs "{" "{") with true. cbv iota.
    rewrite map_to_list_fmap, sortKeys_fmap.
    pose proof (sortKeys_perm (map_to_list m)) as Hperm.
    destruct (json.sortKeys (map_to_list m)) as [|[k0 v0] l] eqn:Hl.
    { symmetry in Hperm. apply Permutation_nil_r in Hperm.
      apply map_to_list_empty_iff in Hperm as ->. reflexivity. }
    rewrite <- app_assoc.
    change (["}"%char] ++ rest) with ("}"%char :: rest).
    assert (∃ t, json.joinComma (json.member <$> (prod_map id json.Marshal <$> (k0, v0) :: l))
                   ++ "}"%char :: rest = json.quote :: t) as [t Ht].
    { destruct l as [|kv1 l].
      - cbn [fmap list_fmap json.joinComma prod_map id fst snd].
        rewrite member_app. by eexists.
      - rewrite !fmap_cons, joinComma_cons, <- app_assoc.
        cbn [prod_map id fst snd]. rewrite member_app. by eexists. }
    rewrite Ht.
    change (json.skipSpace (json.quote :: t)) with (json.quote :: t). cbv iota.
    change (json.byteIs json.quote "}") with false. cbv iota.
    rewrite <- Ht.
    rewrite parseMembers_joinComma.
    + by rewrite (insertAll_sorted m).
    + rewrite <- !(length_fmap (prod_map id json.Marshal)),
        <- (length_fmap json.member). apply joinComma_length.
    + apply Forall_forall. intros [k v] Hkv r Hr. simpl. apply IH; [|done].
      apply (Hv k). apply elem_of_map_to_list. by rewrite <- Hperm.
Qed.

Lemma Unmarshal_Marshal (v : value) :
  decoded json.maxNestingDepth v → json.Unmarshal (json.Marshal v) = Some v.
Proof.
  intros Hv. unfold json.Unmarshal.
  rewrite <- (app_nil_r (json.Marshal v)).
  by rewrite parseValue_Marshal.
Qed.

(** *** What the decoder returns *)

Lemma scanExponent_normal (neg : bool) (ds fs : list digit) (cs : bytes)
    (f : float64) (rest : bytes) :
  json.scanExponent neg ds fs cs = Some (f, rest) → normal f.
Proof.
  unfold json.scanExponent. intros H.
  repeat case_match; simplify_eq; apply mkFloat_is_normal.
Qed.

Lemma scanFraction_normal (neg : bool) (ds : list digit) (cs : bytes)
    (f : float64) (rest : bytes) :
  json.scanFraction neg ds cs = Some (f, rest) → normal f.
Proof.
  unfold json.scanFraction. intros H.
  repeat case_match; simplify_eq; by eapply scanExponent_normal.
Qed.

Lemma parseNumber_normal (cs : bytes) (f : float64) (rest : bytes) :
  json.parseNumber cs = Some (f, rest) → normal f.
Proof.
  unfold json.parseNumber. intros H.
  repeat case_match; simplify_eq; by eapply scanFraction_normal.
Qed.

Lemma parseElements_Forall (P : value → Prop) (pv : bytes → option (value * bytes)) :
  (∀ cs v rest, pv cs = Some (v, rest) → P v) →
  ∀ n cs vs rest, json.parseElements pv n cs = Some (vs, rest) → Forall P vs.
Proof.
  intros Hpv. induction n as [|n IH]; intros cs vs rest H; [done|].
  cbn [json.parseElements] in H.
  destruct (pv cs) as [[v cs1]|] eqn:Hv; [|done]. apply Hpv in Hv.
  destruct (json.skipSpace cs1) as [|c cs2]; [done|].
  destruct (json.byteIs c ",").
  - destruct (json.parseElements pv n cs2) as [[vs' rest']|] eqn:Hn; [|done].
    injection H as <- <-. constructor; [done|]. by eapply IH.
  - destruct (json.byteIs c "]"); [|done]. injection H as <- <-. by constructor.
Qed.

Lemma parseMembers_Forall (P : value → Prop) (pv : bytes → option (value * bytes)) :
  (∀ cs v rest, pv cs = Some (v, rest) → P v) →
  ∀ n acc cs m rest,
    map_Forall (λ _, P) acc →
    json.parseMembers pv n acc cs = Some (m, rest) → map_Forall (λ _, P) m.
Proof.
  intros Hpv. induction n as [|n IH]; intros acc cs m rest Hacc H; [done|].
  cbn [json.parseMembers] in H.
  destruct (json.skipSpace cs) as [|q cs1]; [done|].
  destruct (Ascii.eqb q json.quote); [|done].
  destruct (json.parseString cs1) as [[k cs2]|]; [|done].
  destruct (json.skipSpace cs2) as [|c cs3]; [done|].
  destruct (json.byteIs c ":"); [|done].
  destruct (pv cs3) as [[v cs4]|] eqn:Hv; [|done]. apply Hpv in Hv.
  assert (map_Forall (λ _, P) (<[string_of k := v]> acc)) as Hacc'
    by (by apply map_Forall_insert_2).
  destruct (json.skipSpace cs4) as [|c' cs5]; [done|].
  destruct (json.byteIs c' ",").
  - by eapply IH.
  - destruct (json.byteIs c' "}"); [|done]. by injection H as <- <-.
Qed.

Lemma parseValue_decoded (depth : nat) :
  ∀ cs v rest, json.parseValue true depth cs = Some (v, rest) → decoded depth v.
Proof.
  induction depth as [|d IH]; intros cs v rest H;
    rewrite parseValue_unfold in H;
    (destruct (json.skipSpace cs) as [|c cs1]; [done|]);
    (destruct (json.byteIs c "{"); [|destruct (json.byteIs c "[")]);
    try discriminate H.
  - repeat case_match; simplify_eq; try done.
    simpl. split; [by eapply parseNumber_normal|done].
  - destruct (json.skipSpace cs1) as [|c' cs2]; [done|].
    destruct (json.byteIs c' "}").
    + injection H as <- <-. simpl. apply map_Forall_empty.
    + destruct (json.parseMembers _ _ _ _) as [[m r]|] eqn:Hm; [|done].
      injection H as <- <-. simpl.
      eapply parseMembers_Forall; [exact IH| |exact Hm]. apply map_Forall_empty.
  - destruct (json.skipSpace cs1) as [|c' cs2]; [done|].
    destruct (json.byteIs c' "]").
    + injection H as <- <-. simpl. constructor.
    + destruct (json.parseElements _ _ _) as [[vs r]|] eqn:Hm; [|done].
      injection H as <- <-. simpl.
      eapply parseElements_Forall; [exact IH|exact Hm].
  - repeat case_match; simplify_eq; try done.
    simpl. split; [by eapply parseNumber_normal|done].
Qed.

Lemma Unmarshal_decoded (data : bytes) (v : value) :
  json.Unmarshal data = Some v → decoded json.maxNestingDepth v.
Proof.
  unfold json.Unmarshal. intros H.
  destruct (json.parseValue true json.maxNestingDepth data) as [[v' rest]|] eqn:Hp;
    [|done].
  destruct (json.skipSpace rest); [|done]. injection H as <-.
  by eapply parseValue_decoded.
Qed.

Lemma removeDefaultFields_decoded (depth : nat) :
  ∀ v, decoded depth v → decoded depth (removeDefaultFields v).
Proof.
  induction depth as [|d IH]; intros v Hv; destruct v as [| | | | |l|m]; try done.
  - simpl in *. apply Forall_fmap. eapply Forall_impl; [exact Hv|]. exact IH.
  - rewrite removeDefaultFields_map. simpl in *. intros k x Hk.
    rewrite keptFields_lookup in Hk.
    destruct (m !! k) as [y|] eqn:Hy; [|done].
    destruct (isDefaultField k y); [done|]. injection Hk as <-.
    apply IH. by apply (Hv k).
Qed.


Lemma Marshal_inj (a b : value) :
  decoded json.maxNestingDepth a → decoded json.maxNestingDepth b →
  json.Marshal a = json.Marshal b → a = b.
Proof.
  intros Ha Hb H. apply Unmarshal_Marshal in Ha, Hb.
  rewrite H in Ha. congruence.
Qed.

(** *** Trees on which the model is exact

    A number is kept as the decimal that was read and a string as its
    bytes, where [encoding/json] rounds a number to the nearest [float64],
    writes the shortest decimal that reads back as that [float64], and
    replaces bytes that are not UTF-8.  On the trees below the two agree:
    strings and keys of printable ASCII, numbers that are zero or have at
    most fifteen significant digits and a magnitude from 1e-301 up to
    1e300, no [int], nesting within the decoder's limit. *)

Definition printable (s : string) : bool :=
  forallb (λ c, (32 <=? N_of_ascii c)%N && (N_of_ascii c <? 127)%N) (bytes_of s).

#[global] Instance normal_dec (f : float64) : Decision (normal f).
Proof. unfold normal, normalDigits. apply _. Defined.

Definition exactFloat (f : float64) : bool :=
  bool_decide (normal f) &&
  match f_digits f with
  | [] => true
  | _ :: _ =>
      let p := Z.of_nat (length (f_digits f)) + f_exp f in
      (length (f_digits f) <=? 15)%nat && (-300 <=? p) && (p <=? 300)
  end.

Fixpoint exactWithin (d : nat) (v : value) : bool :=
  match v with
  | VNil | VBool _ => true
  | VInt _ => false
  | VFloat f => exactFloat f
  | VString s => printable s
  | VSlice l =>
      match d with
      | O => false
      | S d' => forallb (exactWithin d') l
      end
  | VMap m =>
      match d with
      | O => false
      | S d' => forallb (λ kv, printable kv.1 && exactWithin d' kv.2) (map_to_list m)
      end
  end.

Definition exactTree (v : value) : Prop :=
  exactWithin json.maxNestingDepth v = true.

Lemma exactFloat_decoded (f : float64) :
  exactFloat f = true → normal f ∧ json.inRange f = true.
Proof.
  unfold exactFloat, json.inRange. intros [Hn Hp]%andb_true_iff.
  apply bool_decide_eq_true in Hn. split; [done|].
  destruct (f_digits f) as [|d ds]; [done|].
  apply andb_true_iff in Hp as [_ Hp]. apply Z.leb_le in Hp.
  cbv zeta. rewrite (proj2 (Z.leb_le _ 308)) by lia. reflexivity.
Qed.

Lemma exactWithin_decoded (d : nat) :
  ∀ v, exactWithin d v = true → decoded d v.
Proof.
  induction d as [|d IH]; intros v H; destruct v as [| | |f| |l|m];
    try done; try (by apply exactFloat_decoded).
  - simpl in *. apply Forall_forall. intros x Hx. apply IH.
    rewrite forallb_forall in H. by apply H, list_elem_of_In.
  - simpl in *. intros k x Hk. apply IH.
    rewrite forallb_forall in H.
    apply elem_of_map_to_list, list_elem_of_In, H, andb_true_iff in Hk.
    by destruct Hk.
Qed.

Lemma exactTree_decoded (v : value) : exactTree v → decoded json.maxNestingDepth v.
Proof. apply exactWithin_decoded. Qed.

(** ** Canonical texts *)

Lemma normalizeJSON_Ok (text normalized : string) :
  normalizeJSON text = Ok normalized ↔
  ∃ data, json.Unmarshal (bytes_of text) = Some data ∧
          normalized = string_of (json.Marshal (removeDefaultFields data)).
Proof.
  unfold normalizeJSON. destruct (json.Unmarshal (bytes_of text)) as [data|].
  - split; [intros [= <-]; eauto|]. by intros (? & [= <-] & ->).
  - split; [done|]. by intros (? & ? & _).
Qed.








(** ** The condition that [Read] stores *)

(** X24. [Read] stores the condition of the observed alert without its
    default fields.  When the observed condition is a tree as the API
    client decodes it (printable ASCII strings, numbers of at most fifteen
    significant digits, no [int]) and keeps a field, the stored text
    decodes to what was kept and is its own normal form, and the plan
    modifier keeps it against a planned text exactly when the planned text
    has the same canonical tree. *)
Theorem observed_condition_is_stored_canonical (r : client.Client)
    (state next : alertResource.alertResourceModel) :
  alertResource.Read r state = Ok next →
  ∃ alert,
    client.GetAlert r (types.ValueString (alertResource.ID state)) = Ok alert ∧
    alertResource.Condition next = Alert.ConditionToTerraform alert ∧
    (exactTree (VMap (Alert.Condition alert)) →
     keptFields (Alert.Condition alert) ≠ ∅ →
     ∃ text,
       alertResource.Condition next = types.StringValue text ∧
       json.Unmarshal (bytes_of text)
         = Some (VMap (keptFields (Alert.Condition alert))) ∧
       normalizeJSON text = Ok text ∧
       ∀ planned pv,
         json.Unmarshal (bytes_of planned) = Some pv →
         exactTree pv →
         (PlanModifyString (types.StringValue text) (types.StringValue planned)
          = types.StringValue text
          ↔ removeDefaultFields pv = VMap (keptFields (Alert.Condition alert)))).
Proof.
  unfold alertResource.Read. intros H.
  apply bind_Ok_inv in H as (alert & Hg & H). injection H as <-.
  exists alert. split; [exact Hg|]. split; [reflexivity|].
  intros Hex Hne. cbn [alertResource.Condition].
  set (kept := keptFields (Alert.Condition alert)) in *.
  assert (decoded json.maxNestingDepth (VMap kept)) as Hdec.
  { subst kept. rewrite <- removeDefaultFields_map.
    by apply removeDefaultFields_decoded, exactTree_decoded. }
  assert (removeDefaultFields (VMap kept) = VMap kept) as Hfix.
  { subst kept. rewrite <- removeDefaultFields_map.
    apply removeDefaultFields_idempotent. }
  exists (string_of (json.Marshal (VMap kept))).
  assert (json.Unmarshal (bytes_of (string_of (json.Marshal (VMap kept))))
          = Some (VMap kept)) as Hu
    by (by rewrite bytes_of_string_of, Unmarshal_Marshal).
  split; [|split; [exact Hu|split]].
  - rewrite ConditionToTerraform_spec. fold kept.
    unfold structure.FlattenJsonToString. rewrite decide_False; [done|].
    by intros ?%map_size_empty_iff.
  - apply normalizeJSON_Ok. exists (VMap kept). by rewrite Hfix.
  - intros planned pv Hp _.
    assert (areJSONsSemanticallyEqual planned (string_of (json.Marshal (VMap kept))) = true
            ↔ removeDefaultFields pv = VMap kept) as Heq.
    { rewrite comparator_spec. split.
      - intros (x & y & Hx & Hy & Hm). simplify_eq. rewrite Hfix in Hm.
        apply Marshal_inj; [|done|done].
        by eapply removeDefaultFields_decoded, Unmarshal_decoded.
      - intros Hr. exists pv, (VMap kept). by rewrite Hfix, Hr. }
    unfold PlanModifyString.
    cbn [types.IsNull types.IsUnknown types.StringValue types.ValueString orb].
    destruct (areJSONsSemanticallyEqual planned _) eqn:Hs.
    + split; [intros _; by apply Heq|done].
    + split.
      * intros Hpl%(f_equal types.ValueString).
        cbn [types.ValueString types.StringValue] in Hpl.
        rewrite Hpl, Hu in Hp. injection Hp as <-. exact Hfix.
      * intros Hr. apply Heq in Hr. discriminate Hr.
Qed.

Lemma observed_condition_is_stored_canonical_witness :
  ∃ next,
    alertResource.Read
      (stubClient (Alert.withCondition zeroAlert
                     {[ "op" := VString "1"; "absentFor" := number 0 ]})
                  zeroDashboard)
      (alertModel "a-1" "{}") = Ok next ∧
    alertResource.Condition next
    = Alert.ConditionToTerraform
        (Alert.withCondition zeroAlert
           {[ "op" := VString "1"; "absentFor" := number 0 ]}).
Proof.
  set (observed := Alert.withCondition zeroAlert
                     {[ "op" := VString "1"; "absentFor" := number 0 ]}).
  assert (∃ next, alertResource.Read (stubClient observed zeroDashboard)
                    (alertModel "a-1" "{}") = Ok next) as [next Hn]
    by (eexists; reflexivity).
  exists next. split; [exact Hn|].
  destruct (observed_condition_is_stored_canonical _ _ _ Hn) as (alert & Hg & Hc & _).
  simpl in Hg. injection Hg as <-. exact Hc.
Defined.

(** ** The JSON attributes of the dashboard, set and read back *)









(** ** What [Update] sends *)

Lemma SetCondition_Ok_inv (a a' : Alert.t) (tfCondition : types.String) :
  Alert.SetCondition a tfCondition = Ok a' →
  ∃ m c,
    json.Unmarshal (bytes_of (types.ValueString tfCondition)) = Some (VMap m) ∧
    Alert.normalizeCondition (Some m) = Ok c ∧
    a' = Alert.withCondition a c.
Proof.
  unfold Alert.SetCondition, structure.ExpandJsonFromString. intros H.
  destruct (json.Unmarshal _) as [[| | | | | |m]|]; try discriminate H.
  exists m. simpl in H. injection H as <-. by eexists.
Qed.

(** X28. When the alert's [Update] succeeds, the API was called under the
    identifier of the state, with a request that carries the identifier,
    the state and the audit fields of the state, the [disabled] flag and the
    source of the plan, the label [managedBy], and as condition the
    planned condition with the defaults of [normalizeCondition], also when
    the stored state keeps the previous condition text. *)
Theorem alert_Update_request (r : client.Client)
    (plan state next : alertResource.alertResourceModel) :
  alertResource.Update r plan state = Ok next →
  ∃ sent m,
    client.UpdateAlert r (types.ValueString (alertResource.ID state)) sent = None ∧
    json.Unmarshal (bytes_of (types.ValueString (alertResource.Condition plan)))
      = Some (VMap m) ∧
    Alert.normalizeCondition (Some m) = Ok (Alert.Condition sent) ∧
    Alert.ID sent = types.ValueString (alertResource.ID state) ∧
    Alert.State sent = types.ValueString (alertResource.State state) ∧
    Alert.CreateAt sent = types.ValueString (alertResource.CreateAt state) ∧
    Alert.CreateBy sent = types.ValueString (alertResource.CreateBy state) ∧
    Alert.UpdateAt sent = types.ValueString (alertResource.UpdateAt state) ∧
    Alert.UpdateBy sent = types.ValueString (alertResource.UpdateBy state) ∧
    Alert.Disabled sent = types.ValueBool (alertResource.Disabled plan) ∧
    Alert.Source sent = types.ValueString (alertResource.Source plan) ∧
    Alert.Labels sent !! "managedBy" = Some "terraform".
Proof.
  unfold alertResource.Update. cbv zeta. intros H.
  apply bind_Ok_inv in H as (a1 & H1 & H).
  apply SetCondition_Ok_inv in H1 as (m & c & Hm & Hc & ->).
  destruct (client.UpdateAlert r _ _) as [e|] eqn:Hu; [discriminate H|]. clear H.
  eexists _, m. split; [exact Hu|]. split; [exact Hm|].
  split; [exact Hc|]. do 8 (split; [reflexivity|]).
  change (Alert.Labels (Alert.SetPreferredChannels ?x _)) with (Alert.Labels x).
  rewrite SetLabels_labels. reflexivity.
Qed.

Lemma alert_Update_request_witness :
  ∃ sent,
    client.UpdateAlert (stubClient zeroAlert zeroDashboard) "a-1" sent = None ∧
    Alert.ID sent = "a-1" ∧
    Alert.Condition sent !! "absentFor" = Some (VInt 0).
Proof.
  assert (∃ next, alertResource.Update (stubClient zeroAlert zeroDashboard)
                    (alertModel "planned" "{}") (alertModel "a-1" "{}") = Ok next)
    as [next Hn] by (eexists; vm_compute; reflexivity).
  destruct (alert_Update_request _ _ _ _ Hn)
    as (sent & m & Hu & Hm & Hc & Hid & _).
  exists sent. split; [exact Hu|]. split; [exact Hid|].
  assert (m = ∅) as -> by (vm_compute in Hm; by injection Hm).
  injection Hc as <-. reflexivity.
Defined.

(** ** Texts that are rejected before the API is called *)

(** The texts [SetLayout] accepts: a JSON array of objects and [null]s, or
    [null]. *)
Definition layoutText (s : string) : bool :=
  match json.Unmarshal (bytes_of s) with
  | Some VNil => true
  | Some (VSlice l) => bool_decide (is_Some (Dashboard.asMaps l))
  | _ => false
  end.

(** The texts [ExpandJsonFromString] accepts: a JSON object or [null]. *)
Definition objectText (s : string) : bool :=
  match json.Unmarshal (bytes_of s) with
  | Some VNil | Some (VMap _) => true
  | _ => false
  end.

Definition validDashboardPlan (plan : dashboardResource.dashboardResourceModel) : bool :=
  layoutText (types.ValueString (dashboardResource.Layout plan))
  && (String.eqb (types.ValueString (dashboardResource.PanelMap plan)) EmptyString
      || objectText (types.ValueString (dashboardResource.PanelMap plan)))
  && objectText (types.ValueString (dashboardResource.Variables plan)).

Ltac ok_iff :=
  split; [intros [? Hx]; (done || discriminate Hx)
         |intros Hx; ((eexists; reflexivity) || discriminate Hx)].

Lemma SetLayout_Ok (d : Dashboard.t) (tfLayout : types.String) :
  (∃ d', Dashboard.SetLayout d tfLayout = Ok d')
  ↔ layoutText (types.ValueString tfLayout) = true.
Proof.
  unfold Dashboard.SetLayout, layoutText.
  destruct (json.Unmarshal _) as [[| | | | |l|]|]; simpl; try ok_iff.
  destruct (Dashboard.asMaps l) as [x|]; simpl; ok_iff.
Qed.

Lemma ExpandJsonFromString_Ok (s : string) :
  (∃ m, structure.ExpandJsonFromString s = Ok m) ↔ objectText s = true.
Proof.
  unfold structure.ExpandJsonFromString, objectText.
  destruct (json.Unmarshal _) as [[]|]; simpl; ok_iff.
Qed.

Lemma SetPanelMap_Ok (d : Dashboard.t) (tfPanelMap : types.String) :
  (∃ d', Dashboard.SetPanelMap d tfPanelMap = Ok d')
  ↔ String.eqb (types.ValueString tfPanelMap) EmptyString
    || objectText (types.ValueString tfPanelMap) = true.
Proof.
  unfold Dashboard.SetPanelMap.
  destruct (String.eqb _ EmptyString); simpl; [split; [done|by eexists]|].
  rewrite <- ExpandJsonFromString_Ok.
  destruct (structure.ExpandJsonFromString _) as [m|e]; simpl.
  - split; by eexists.
  - split; by intros [? ?].
Qed.

Lemma SetVariables_Ok (d : Dashboard.t) (tfVariables : types.String) :
  (∃ d', Dashboard.SetVariables d tfVariables = Ok d')
  ↔ objectText (types.ValueString tfVariables) = true.
Proof.
  unfold Dashboard.SetVariables. rewrite <- ExpandJsonFromString_Ok.
  destruct (structure.ExpandJsonFromString _) as [m|e]; simpl.
  - split; by eexists.
  - split; by intros [? ?].
Qed.

Lemma SetWidgets_total (d : Dashboard.t) (tfWidgets : types.String) :
  ∃ d', Dashboard.SetWidgets d tfWidgets = Ok d'.
Proof.
  unfold Dashboard.SetWidgets. cbv zeta.
  destruct (String.eqb _ EmptyString); eexists; reflexivity.
Qed.

Lemma bind_Ok {A B} (a : A) (k : A → result B) : Ok a ≫= k = k a.
Proof. reflexivity. Qed.

Lemma payload_Ok (plan : dashboardResource.dashboardResourceModel) :
  (∃ d, dashboardResource.payload plan = Ok d) ↔ validDashboardPlan plan = true.
Proof.
  unfold dashboardResource.payload, validDashboardPlan. cbv zeta.
  rewrite !andb_true_iff. split.
  - intros [d H].
    apply bind_Ok_inv in H as (d1 & H1 & H).
    apply bind_Ok_inv in H as (d2 & H2 & H).
    apply bind_Ok_inv in H as (d3 & H3 & H).
    split; [split|].
    + eapply SetLayout_Ok. eexists. exact H1.
    + eapply SetPanelMap_Ok. eexists. exact H2.
    + eapply SetVariables_Ok. eexists. exact H3.
  - intros [[H1 H2] H3].
    eapply SetLayout_Ok in H1 as [d1 ->]. rewrite bind_Ok.
    apply (SetPanelMap_Ok d1) in H2 as [d2 ->]. rewrite bind_Ok.
    apply (SetVariables_Ok (Dashboard.SetTags d2 (dashboardResource.Tags plan)))
      in H3 as [d3 ->]. rewrite bind_Ok.
    apply SetWidgets_total.
Qed.

(** X29. The dashboard's [Create] and [Update] call the API only for a
    valid plan: the layout a JSON array of objects (or [null]), the panel
    map empty or a JSON object (or [null]), the variables a JSON object (or
    [null]).  For any other plan both fail with the same error whatever the
    client does; for a valid plan both send one and the same request and
    succeed exactly when the client accepts it.  The widgets text is not
    examined. *)
Theorem dashboard_plan_is_validated_before_the_call
    (plan : dashboardResource.dashboardResourceModel) :
  if validDashboardPlan plan then
    ∃ sent, ∀ r state,
      ((∃ next, dashboardResource.Create r plan = Ok next)
       ↔ ∃ dashboard, client.CreateDashboard r sent = Ok dashboard) ∧
      ((∃ next, dashboardResource.Update r plan state = Ok next)
       ↔ client.UpdateDashboard r (types.ValueString (dashboardResource.ID state)) sent
         = None)
  else
    ∃ e, ∀ r state,
      dashboardResource.Create r plan = Err e ∧
      dashboardResource.Update r plan state = Err e.
Proof.
  pose proof (payload_Ok plan) as Hp.
  unfold dashboardResource.Create, dashboardResource.Update.
  destruct (validDashboardPlan plan).
  - destruct (proj2 Hp eq_refl) as [d ->]. exists d. intros r state.
    rewrite !bind_Ok. split.
    + destruct (client.CreateDashboard r d) as [dashboard|e].
      * rewrite bind_Ok. split; intros _; eexists; reflexivity.
      * split; intros [? H]; discriminate H.
    + destruct (client.UpdateDashboard r _ d) as [e|].
      * split; [intros [? H]; discriminate H|discriminate].
      * split; [done|]. intros _. eexists. reflexivity.
  - destruct (dashboardResource.payload plan) as [d|e].
    + destruct Hp as [Hp _]. discriminate Hp. by eexists.
    + by exists e.
Qed.

Lemma bind_Err {A B} (e : error) (k : A → result B) : Err e ≫= k = Err e.
Proof. reflexivity. Qed.

(** The texts [SetCondition] accepts: a JSON object. *)
Definition conditionText (s : string) : bool :=
  match json.Unmarshal (bytes_of s) with
  | Some (VMap _) => true
  | _ => false
  end.

Lemma SetCondition_result (tfCondition : types.String) :
  if conditionText (types.ValueString tfCondition)
  then ∀ a, ∃ c, Alert.SetCondition a tfCondition = Ok (Alert.withCondition a c)
  else ∃ e, ∀ a, Alert.SetCondition a tfCondition = Err e.
Proof.
  unfold conditionText, Alert.SetCondition, structure.ExpandJsonFromString.
  destruct (json.Unmarshal _) as [[| | | | | |m]|];
    try (eexists; intros a; reflexivity).
  intros a. eexists. reflexivity.
Qed.

Lemma dashboard_plan_is_validated_before_the_call_witness :
  ∃ e, ∀ r state,
    dashboardResource.Create r (dashboardModel "planned" "{}" "[]") = Err e ∧
    dashboardResource.Update r (dashboardModel "planned" "{}" "[]") state = Err e.
Proof.
  exact (dashboard_plan_is_validated_before_the_call (dashboardModel "planned" "{}" "[]")).
Defined.

(** X30. The alert's [Create] and [Update] call the API only when the
    planned condition is a JSON object: for any other text (no JSON, [null],
    an array, a number, the empty text of a null attribute) both fail with
    the same error whatever the client does; for a JSON object each sends
    one request and succeeds exactly when the client accepts it. *)
Theorem alert_condition_is_validated_before_the_call
    (plan : alertResource.alertResourceModel) :
  if conditionText (types.ValueString (alertResource.Condition plan)) then
    (∃ sent, ∀ r,
       (∃ next, alertResource.Create r plan = Ok next)
       ↔ ∃ alert, client.CreateAlert r sent = Ok alert) ∧
    (∀ state, ∃ sent, ∀ r,
       (∃ next, alertResource.Update r plan state = Ok next)
       ↔ client.UpdateAlert r (types.ValueString (alertResource.ID state)) sent = None)
  else
    ∃ e, ∀ r state,
      alertResource.Create r plan = Err e ∧
      alertResource.Update r plan state = Err e.
Proof.
  pose proof (SetCondition_result (alertResource.Condition plan)) as Hc.
  unfold alertResource.Create, alertResource.Update. cbv zeta.
  destruct (conditionText _).
  - split.
    + match goal with
      | |- context [Alert.SetCondition ?a _] => destruct (Hc a) as [c Hc']
      end.
      eexists. intros r. rewrite Hc', bind_Ok. split.
      * intros [next H]. apply bind_Ok_inv in H as (alert & Ha & _).
        exists alert. exact Ha.
      * intros [alert Ha]. rewrite Ha, bind_Ok. eexists. reflexivity.
    + intros state.
      match goal with
      | |- context [Alert.SetCondition ?a _] => destruct (Hc a) as [c Hc']
      end.
      eexists. intros r. rewrite Hc', bind_Ok. split.
      * intros [next H].
        destruct (client.UpdateAlert r _ _) as [e|] eqn:Hu; [discriminate H|].
        exact Hu.
      * intros Hu. rewrite Hu. eexists. reflexivity.
  - destruct Hc as [e He]. exists e. intros r state.
    by rewrite !He, !bind_Err.
Qed.

Lemma alert_condition_is_validated_before_the_call_witness :
  ∃ e, ∀ r state,
    alertResource.Create r (alertModel "planned" "[]") = Err e ∧
    alertResource.Update r (alertModel "planned" "[]") state = Err e.
Proof.
  exact (alert_condition_is_validated_before_the_call (alertModel "planned" "[]")).
Defined.
